(** * Swathi Nakshatra tracker: the period locator and its ephemeris

    A shallow embedding of the numerical core of the tracker:

    - [src/unnamed/part_000]: the application with the inline lunar series
      ([getMoonSiderealLongitude], 30 minute coarse step, 30 day search
      horizon), embedded in [Module Inline];
    - [src/unnamed/part_001]: the calculator service on top of the global
      [SunCalc] library ([getLunarSiderealLongitude], one hour coarse step),
      embedded in [Module Calculator];
    - the components around them: the countdown ([calculateCountdown],
      [shouldAnnounce], the text of a [CountdownUnit]), the notifier
      ([Module Notifier]), the App component of part_000 ([Module App]) and
      the hook of [src/hooks/useNakshatra.ts] ([Module Hook]);
    - [src/App.tsx]: the application with the simplified lunar motion and
      its own locator (one hour coarse step, no horizon), embedded in
      [Module Legacy].

    Modelling choices.
    - An instant is the [Date.getTime()] value of a valid [Date]: an integer
      number of milliseconds, [Z].  A [Date] is only ever read with
      [getTime] and written with [setTime] or rebuilt with [new Date], so a
      date variable is modelled by its time value.  A time value further
      than 8.64e15 ms from the epoch makes an Invalid Date, whose time value
      is NaN: the inline locator is embedded a second time on such Date
      objects, in [Module Dated], and what a call raises and whether its
      loops end is stated there.
    - A JavaScript number holding an angle is a rational [Q]; arithmetic is
      exact.  The program itself computes on binary64: the constants, the
      band test, the ayanamsha, the lunar series of part_000 and the
      longitude of the service are embedded a second time over binary64 in
      [Module Binary64], with a [Math.sin] of its own, to run the program
      where the rounding or the values of the sine matter.
    - [Math.sin] and [Math.PI] belong to the host, and [SunCalc] to a
      library outside the repository: they are parameters.  The global
      [window.SunCalc], which the service reads at every probe, is a
      parameter of each call: two calls may find it in two states.
    - The [async] function settles its promise with a period or rejects it
      with an error: [result].  A [while] loop runs on fuel; [Pending] says
      that the loop was still running when the fuel ran out. *)

From Stdlib Require Import ZArith QArith Qround Qabs Lia Lqa Bool List String.
From Stdlib Require Import Floats.
From Stdlib Require Import Ascii DecimalString.

#[local] Set Warnings "-inexact-float".

Local Open Scope Z_scope.

(** ** Instants and numbers *)

Definition Instant := Z.

(** The range of time values of a valid [Date] (ECMAScript TimeClip). *)
Definition MAX_TIME : Z := 8640000000000000.

(** [x >= y] and [x < y] on numbers. *)
Definition Qge_bool (x y : Q) : bool := Qle_bool y x.
Definition Qlt_bool (x y : Q) : bool := negb (Qle_bool y x).

(** Truncation toward zero, and the [%] of JavaScript on numbers:
    the remainder takes the sign of the dividend. *)
Definition Qtrunc (q : Q) : Z :=
  if Qle_bool 0 q then Qfloor q else Qceiling q.

Definition Qrem (x m : Q) : Q := (x - m * inject_Z (Qtrunc (x / m)))%Q.

(** ** Outcomes of the asynchronous locator *)

Inductive Error : Set :=
| SearchExhausted   (* 'Could not find Swathi period within 30 days' *)
| SunCalcNotLoaded. (* 'SunCalc library is not loaded. ...' *)

Definition message (e : Error) : string :=
  match e with
  | SearchExhausted => "Could not find Swathi period within 30 days"
  | SunCalcNotLoaded =>
      "SunCalc library is not loaded. Please check the script tag in your HTML file."
  end.

Inductive result (A : Type) : Type :=
| Ok (a : A)
| Throw (e : Error)
| Pending.

Arguments Ok {A} a.
Arguments Throw {A} e.
Arguments Pending {A}.

Definition bind {A B : Type} (r : result A) (k : A -> result B) : result B :=
  match r with
  | Ok a => k a
  | Throw e => Throw e
  | Pending => Pending
  end.

Notation "x <- r ;; k" := (bind r (fun x => k))
  (at level 61, r at next level, right associativity).

(** [while (cond(d)) { d = body(d) }] on a date variable [d]. *)
Fixpoint while (fuel : nat) (cond : Instant -> result bool)
    (body : Instant -> result Instant) (d : Instant) : result Instant :=
  match fuel with
  | O => Pending
  | S fuel' =>
      b <- cond d ;;
      if b then (d' <- body d ;; while fuel' cond body d') else Ok d
  end.

(** types.ts: interface NakshatraPeriod { start: Date; end: Date } *)
Record NakshatraPeriod : Set := { start : Instant; end_ : Instant }.

(** ** Constants and the functions shared by both files *)

(** const NAKSHATRA_SPAN_DEGREES = 360 / 27 *)
Definition NAKSHATRA_SPAN_DEGREES : Q := 360 / 27.

(** new Date('2000-01-01T12:00:00Z').getTime() *)
Definition J2000 : Instant := 946728000000.

(** getLahiriAyanamsha, the same text in both files. *)
Definition getLahiriAyanamsha (date : Instant) : Q :=
  (let AYANAMSHA_AT_J2000 := 23.85575 in
   let PRECESSION_RATE_DEG_PER_YEAR := 50.29 / 3600 in
   let yearsSinceJ2000 :=
     (inject_Z date - inject_Z J2000) / (1000 * 60 * 60 * 24 * 365.25) in
   AYANAMSHA_AT_J2000 + yearsSinceJ2000 * PRECESSION_RATE_DEG_PER_YEAR)%Q.

(** The ayanamsha as section 4.1 of the specification words it. *)
Definition years_since_epoch (t : Instant) : Q :=
  (inject_Z (t - J2000) / (86400000 * 365.25))%Q.

Definition ayanamsha_spec (t : Instant) : Q :=
  (23.85575 + years_since_epoch t * (50.29 / 3600))%Q.

(** ** The computations over binary64 *)

Module Binary64.

Local Open Scope float_scope.

Definition NAKSHATRA_SPAN_DEGREES : float := 360 / 27.
Definition SWATHI_START_DEGREES : float := (15 - 1) * NAKSHATRA_SPAN_DEGREES.
Definition SWATHI_END_DEGREES : float := 15 * NAKSHATRA_SPAN_DEGREES.

Definition isSwathi (longitude : float) : bool :=
  (SWATHI_START_DEGREES <=? longitude) && (longitude <? SWATHI_END_DEGREES).

(** [time] is [date.getTime()]. *)
Definition getLahiriAyanamsha (time : float) : float :=
  let AYANAMSHA_AT_J2000 := 23.85575 in
  let J2000 := 946728000000 in
  let PRECESSION_RATE_DEG_PER_YEAR := 50.29 / 3600 in
  let yearsSinceJ2000 := (time - J2000) / (1000 * 60 * 60 * 24 * 365.25) in
  AYANAMSHA_AT_J2000 + yearsSinceJ2000 * PRECESSION_RATE_DEG_PER_YEAR.

(** Math.PI *)
Definition Math_PI : float := 0x1.921fb54442d18p+1.

(** [date.getTime()] as a number: a whole number of milliseconds, which a
    valid date keeps below 2^53. *)
Definition number (time : Z) : float :=
  match time with
  | Z0 => 0
  | Zpos _ => PrimFloat.of_uint63 (Uint63.of_Z time)
  | Zneg p => - PrimFloat.of_uint63 (Uint63.of_Z (Zpos p))
  end.

(** The whole number nearest to [y], for [y] below 2^51 in absolute
    value: the sum with 1.5 * 2^52 has no fractional digits left. *)
Definition nearest (y : float) : float :=
  y + 6755399441055744 - 6755399441055744.

(** [y] without its fractional digits. *)
Definition trunc (y : float) : float :=
  let n := nearest y in
  if 0 <=? y then (if y <? n then n - 1 else n)
  else (if n <? y then n + 1 else n).

(** [x % m] on numbers, for a positive [m]: what is left of [x] once the
    whole multiples of [m] are taken away, with the sign of [x].  The
    division may round up to the next whole number; the remainder, which
    is computed without rounding, then has the wrong sign and is put
    right. *)
Definition rem (x m : float) : float :=
  let q := trunc (x / m) in
  let r := x - q * m in
  if (0 <=? x) && (r <? 0) then r + m
  else if (x <? 0) && (0 <? r) then r - m
  else r.

(** A [Math.sin], which ECMAScript leaves to the implementation: the
    argument less the nearest multiple of 2 pi, taken away in three parts
    of which the first two have 32 digits, and the Taylor polynomial of
    degree 29 of what remains, between -pi and pi. *)
Definition TWO_PI_1 : float := 0x1.921fb544p+2.
Definition TWO_PI_2 : float := 0x1.0b4611ap-32.
Definition TWO_PI_3 : float := 0x1.898cc51701b84p-62.

Definition sinCoefficients : list float :=
  1
  :: - (1 / 6)
  :: 1 / 120
  :: - (1 / 5040)
  :: 1 / 362880
  :: - (1 / 39916800)
  :: 1 / 6227020800
  :: - (1 / 1307674368000)
  :: 1 / 355687428096000
  :: - (1 / 121645100408832000)
  :: 1 / 51090942171709440000
  :: - (1 / 25852016738884976640000)
  :: 1 / 15511210043330985984000000
  :: - (1 / 10888869450418352160768000000)
  :: 1 / 8841761993739701954543616000000
  :: nil.

Definition sin (x : float) : float :=
  let k := nearest (x * (1 / (2 * Math_PI))) in
  let r := x - k * TWO_PI_1 - k * TWO_PI_2 - k * TWO_PI_3 in
  let r2 := r * r in
  r * fold_right (fun c acc => c + r2 * acc) 0 sinCoefficients.

Section Host.

Variable Math_sin : float -> float.

(** getMoonSiderealLongitude of part_000; [time] is [date.getTime()]. *)
Definition getMoonSiderealLongitude (time : float) : float :=
  (* Julian Date calculation *)
  let jd := time / 86400000 + 2440587.5 in
  let T := (jd - 2451545.0) / 36525 in
  let Lp := 218.3164477 + 481267.88123421 * T - 0.0015786 * T * T
            + T * T * T / 538841 - T * T * T * T / 65194000 in
  let D := 297.8501921 + 445267.1114034 * T - 0.0018819 * T * T
           + T * T * T / 545868 - T * T * T * T / 113065000 in
  let M := 357.5291092 + 35999.0502909 * T - 0.0001536 * T * T
           + T * T * T / 24490000 in
  let Mp := 134.9633964 + 477198.8675055 * T + 0.0087414 * T * T
            + T * T * T / 69699 - T * T * T * T / 14712000 in
  let F := 93.2720950 + 483202.0175233 * T - 0.0036539 * T * T
           - T * T * T / 3526000 + T * T * T * T / 863310000 in
  (* Convert to radians *)
  let toRad := fun deg : float => deg * Math_PI / 180 in
  let Dr := toRad D in
  let Mr := toRad M in
  let Mpr := toRad Mp in
  let Fr := toRad F in
  (* Main periodic terms for the Moon's longitude *)
  let sigmaL := 0 in
  let sigmaL := sigmaL + 6288774 * Math_sin Mpr in
  let sigmaL := sigmaL + 1274027 * Math_sin (2 * Dr - Mpr) in
  let sigmaL := sigmaL + 658314 * Math_sin (2 * Dr) in
  let sigmaL := sigmaL + 213618 * Math_sin (2 * Mpr) in
  let sigmaL := sigmaL + -185116 * Math_sin Mr in
  let sigmaL := sigmaL + -114332 * Math_sin (2 * Fr) in
  let sigmaL := sigmaL + 58793 * Math_sin (2 * Dr - 2 * Mpr) in
  let sigmaL := sigmaL + 57066 * Math_sin (2 * Dr - Mr - Mpr) in
  let sigmaL := sigmaL + 53322 * Math_sin (2 * Dr + Mpr) in
  let sigmaL := sigmaL + 45758 * Math_sin (2 * Dr - Mr) in
  let sigmaL := sigmaL + -40923 * Math_sin (Mr - Mpr) in
  let sigmaL := sigmaL + -34720 * Math_sin Dr in
  let sigmaL := sigmaL + -30383 * Math_sin (Mr + Mpr) in
  let sigmaL := sigmaL + 15327 * Math_sin (2 * Dr - 2 * Fr) in
  let sigmaL := sigmaL + -12528 * Math_sin (Mpr + 2 * Fr) in
  let sigmaL := sigmaL + 10980 * Math_sin (Mpr - 2 * Fr) in
  let sigmaL := sigmaL + 10675 * Math_sin (4 * Dr - Mpr) in
  let sigmaL := sigmaL + 10034 * Math_sin (3 * Mpr) in
  let sigmaL := sigmaL + 8548 * Math_sin (4 * Dr - 2 * Mpr) in
  let sigmaL := sigmaL + -7888 * Math_sin (2 * Dr + Mr - Mpr) in
  let sigmaL := sigmaL + -6766 * Math_sin (2 * Dr + Mr) in
  let sigmaL := sigmaL + -5163 * Math_sin (Dr - Mpr) in
  (* Moon's ecliptic longitude *)
  let tropicalLongitude := Lp + sigmaL / 1000000 in
  (* Normalize to 0-360 *)
  let tropicalLongitude := rem tropicalLongitude 360 in
  let tropicalLongitude :=
    if tropicalLongitude <? 0 then tropicalLongitude + 360
    else tropicalLongitude in
  (* Convert to sidereal *)
  let ayanamsha := getLahiriAyanamsha time in
  let siderealLongitude := tropicalLongitude - ayanamsha in
  (* Normalize to 0-360 *)
  let siderealLongitude :=
    if siderealLongitude <? 0 then siderealLongitude + 360
    else siderealLongitude in
  let siderealLongitude :=
    if 360 <=? siderealLongitude then siderealLongitude - 360
    else siderealLongitude in
  siderealLongitude.

End Host.

(** getLunarSiderealLongitude of part_001 once [window.SunCalc] is found:
    [eclipticLon] is [moonPosition.eclipticLon], [time] is
    [date.getTime()]. *)
Definition getLunarSiderealLongitude (eclipticLon time : float) : float :=
  (* SunCalc returns longitude in radians, convert to degrees *)
  let tropicalLongitude := eclipticLon * (180 / Math_PI) in
  let ayanamsha := getLahiriAyanamsha time in
  let siderealLongitude := tropicalLongitude - ayanamsha in
  (* Normalize to 0-360 degrees *)
  let siderealLongitude :=
    if siderealLongitude <? 0 then siderealLongitude + 360
    else siderealLongitude in
  siderealLongitude.

End Binary64.

(** ** src/unnamed/part_000: inline lunar series *)

Module Inline.

(** const SWATHI_START_DEGREES = (15 - 1) * NAKSHATRA_SPAN_DEGREES
    const SWATHI_END_DEGREES = 15 * NAKSHATRA_SPAN_DEGREES *)
Definition SWATHI_START_DEGREES : Q := (15 - 1) * NAKSHATRA_SPAN_DEGREES.
Definition SWATHI_END_DEGREES : Q := 15 * NAKSHATRA_SPAN_DEGREES.

Definition isSwathi (longitude : Q) : bool :=
  Qge_bool longitude SWATHI_START_DEGREES
  && Qlt_bool longitude SWATHI_END_DEGREES.

Local Open Scope Q_scope.

(** The [const]s of getMoonSiderealLongitude, one definition each. *)

(** jd = date.getTime() / 86400000 + 2440587.5; T = (jd - 2451545.0) / 36525 *)
Definition julianDate (date : Instant) : Q :=
  inject_Z date / 86400000 + 2440587.5.

Definition julianCenturies (date : Instant) : Q :=
  (julianDate date - 2451545.0) / 36525.

(** Moon's mean longitude (L') *)
Definition Lp (T : Q) : Q :=
  218.3164477 + 481267.88123421 * T - 0.0015786 * T * T
  + T * T * T / 538841 - T * T * T * T / 65194000.

(** Moon's mean elongation (D) *)
Definition D (T : Q) : Q :=
  297.8501921 + 445267.1114034 * T - 0.0018819 * T * T
  + T * T * T / 545868 - T * T * T * T / 113065000.

(** Sun's mean anomaly (M) *)
Definition M (T : Q) : Q :=
  357.5291092 + 35999.0502909 * T - 0.0001536 * T * T + T * T * T / 24490000.

(** Moon's mean anomaly (M') *)
Definition Mp (T : Q) : Q :=
  134.9633964 + 477198.8675055 * T + 0.0087414 * T * T
  + T * T * T / 69699 - T * T * T * T / 14712000.

(** Moon's argument of latitude (F) *)
Definition F (T : Q) : Q :=
  93.2720950 + 483202.0175233 * T - 0.0036539 * T * T
  - T * T * T / 3526000 + T * T * T * T / 863310000.

Section Host.

(** [Math.sin] and [Math.PI]. *)
Variable Math_sin : Q -> Q.
Variable Math_PI : Q.

Definition toRad (deg : Q) : Q := deg * Math_PI / 180.

(** Main periodic terms for the Moon's longitude, in the order of the
    [sigmaL += ...] statements. *)
Definition sigmaL (Dr Mr Mpr Fr : Q) : Q :=
  let sigmaL := 0 in
  let sigmaL := sigmaL + 6288774 * Math_sin Mpr in
  let sigmaL := sigmaL + 1274027 * Math_sin (2 * Dr - Mpr) in
  let sigmaL := sigmaL + 658314 * Math_sin (2 * Dr) in
  let sigmaL := sigmaL + 213618 * Math_sin (2 * Mpr) in
  let sigmaL := sigmaL + -185116 * Math_sin Mr in
  let sigmaL := sigmaL + -114332 * Math_sin (2 * Fr) in
  let sigmaL := sigmaL + 58793 * Math_sin (2 * Dr - 2 * Mpr) in
  let sigmaL := sigmaL + 57066 * Math_sin (2 * Dr - Mr - Mpr) in
  let sigmaL := sigmaL + 53322 * Math_sin (2 * Dr + Mpr) in
  let sigmaL := sigmaL + 45758 * Math_sin (2 * Dr - Mr) in
  let sigmaL := sigmaL + -40923 * Math_sin (Mr - Mpr) in
  let sigmaL := sigmaL + -34720 * Math_sin Dr in
  let sigmaL := sigmaL + -30383 * Math_sin (Mr + Mpr) in
  let sigmaL := sigmaL + 15327 * Math_sin (2 * Dr - 2 * Fr) in
  let sigmaL := sigmaL + -12528 * Math_sin (Mpr + 2 * Fr) in
  let sigmaL := sigmaL + 10980 * Math_sin (Mpr - 2 * Fr) in
  let sigmaL := sigmaL + 10675 * Math_sin (4 * Dr - Mpr) in
  let sigmaL := sigmaL + 10034 * Math_sin (3 * Mpr) in
  let sigmaL := sigmaL + 8548 * Math_sin (4 * Dr - 2 * Mpr) in
  let sigmaL := sigmaL + -7888 * Math_sin (2 * Dr + Mr - Mpr) in
  let sigmaL := sigmaL + -6766 * Math_sin (2 * Dr + Mr) in
  let sigmaL := sigmaL + -5163 * Math_sin (Dr - Mpr) in
  sigmaL.

(** Moon's ecliptic longitude before normalisation: Lp + sigmaL / 1000000 *)
Definition eclipticLongitude (date : Instant) : Q :=
  let T := julianCenturies date in
  let Dr := toRad (D T) in
  let Mr := toRad (M T) in
  let Mpr := toRad (Mp T) in
  let Fr := toRad (F T) in
  Lp T + sigmaL Dr Mr Mpr Fr / 1000000.

Definition getMoonSiderealLongitude (date : Instant) : Q :=
  let tropicalLongitude := eclipticLongitude date in
  (* Normalize to 0-360 *)
  let tropicalLongitude := Qrem tropicalLongitude 360 in
  let tropicalLongitude :=
    if Qlt_bool tropicalLongitude 0 then tropicalLongitude + 360
    else tropicalLongitude in
  (* Convert to sidereal *)
  let ayanamsha := getLahiriAyanamsha date in
  let siderealLongitude := tropicalLongitude - ayanamsha in
  (* Normalize to 0-360 *)
  let siderealLongitude :=
    if Qlt_bool siderealLongitude 0 then siderealLongitude + 360
    else siderealLongitude in
  let siderealLongitude :=
    if Qge_bool siderealLongitude 360 then siderealLongitude - 360
    else siderealLongitude in
  siderealLongitude.

Local Open Scope Z_scope.

Definition coarseStep : Z := 30 * 60 * 1000. (* 30 minutes *)
Definition fineStep : Z := 60 * 1000.        (* 1 minute *)
Definition horizon : Z := 30 * 24 * 60 * 60 * 1000. (* max 30 days search *)

Definition findCurrentOrNextSwathiPeriod (fuel : nat) (startDate : Instant)
  : result NakshatraPeriod :=
  let currentDate := startDate in
  let longitude := getMoonSiderealLongitude currentDate in
  (* If currently in Swathi, find the boundaries of this period *)
  if isSwathi longitude then
    (* Find start by going backwards *)
    let startFinder := currentDate in
    (* Coarse search backwards *)
    startFinder <- while fuel (fun d => Ok (isSwathi (getMoonSiderealLongitude d)))
                     (fun d => Ok (d - coarseStep)) startFinder ;;
    (* Fine tune forward to exact start *)
    startFinder <- while fuel (fun d => Ok (negb (isSwathi (getMoonSiderealLongitude d))))
                     (fun d => Ok (d + fineStep)) startFinder ;;
    let periodStart := startFinder in
    (* Find end by going forwards *)
    let endFinder := currentDate in
    (* Coarse search forwards *)
    endFinder <- while fuel (fun d => Ok (isSwathi (getMoonSiderealLongitude d)))
                   (fun d => Ok (d + coarseStep)) endFinder ;;
    (* Fine tune backwards to exact end *)
    endFinder <- while fuel (fun d => Ok (negb (isSwathi (getMoonSiderealLongitude d))))
                   (fun d => Ok (d - fineStep)) endFinder ;;
    (* Add one more minute to get the actual end *)
    let periodEnd := endFinder + fineStep in
    Ok {| start := periodStart; end_ := periodEnd |}
  else
    (* Not in Swathi - find the next period *)
    let searchDate := currentDate in
    (* Coarse search to find when we enter Swathi *)
    searchDate <- while fuel (fun d => Ok (negb (isSwathi (getMoonSiderealLongitude d))))
                    (fun d =>
                       let d' := d + coarseStep in
                       (* Safety check to prevent infinite loop *)
                       if d' - currentDate >? horizon
                       then Throw SearchExhausted
                       else Ok d') searchDate ;;
    (* Fine tune backwards to exact start *)
    searchDate <- while fuel (fun d => Ok (isSwathi (getMoonSiderealLongitude (d - fineStep))))
                    (fun d => Ok (d - fineStep)) searchDate ;;
    let periodStart := searchDate in
    (* Find end of this period *)
    let endFinder := periodStart in
    (* Coarse search forwards *)
    endFinder <- while fuel (fun d => Ok (isSwathi (getMoonSiderealLongitude d)))
                   (fun d => Ok (d + coarseStep)) endFinder ;;
    (* Fine tune backwards to exact end *)
    endFinder <- while fuel (fun d => Ok (negb (isSwathi (getMoonSiderealLongitude d))))
                   (fun d => Ok (d - fineStep)) endFinder ;;
    let periodEnd := endFinder + fineStep in
    Ok {| start := periodStart; end_ := periodEnd |}.

End Host.

End Inline.

(** ** src/unnamed/part_000 on Date objects

    The locator once more, with the dates as the objects they are: a
    [Date] holds a time value no further than [MAX_TIME] from the epoch,
    or NaN (an Invalid Date).  [new Date(t)] of a time value out of that
    range is an Invalid Date; every number computed from NaN is NaN, and
    every comparison with NaN is false. *)

Module Dated.

(** A Date: its time value, or [None] for an Invalid Date. *)
Definition Date : Set := option Z.

(** new Date(time) *)
Definition TimeClip (time : Z) : Date :=
  if Z.abs time <=? MAX_TIME then Some time else None.

(** new Date(d.getTime() + ms) *)
Definition shifted (d : Date) (ms : Z) : Date :=
  match d with
  | Some time => TimeClip (time + ms)
  | None => None
  end.

(** { start: Date; end: Date } *)
Record Period : Set := { start : Date; end_ : Date }.

(** [while (cond(d)) { d = body(d) }] on a date variable [d]. *)
Fixpoint while (fuel : nat) (cond : Date -> result bool)
    (body : Date -> result Date) (d : Date) : result Date :=
  match fuel with
  | O => Pending
  | S fuel' =>
      b <- cond d ;;
      if b then (d' <- body d ;; while fuel' cond body d') else Ok d
  end.

Section Host.

Variable Math_sin : Q -> Q.
Variable Math_PI : Q.

(** isSwathi(getMoonSiderealLongitude(d)): the longitude of an Invalid
    Date is NaN, which is not in the band. *)
Definition inBand (d : Date) : bool :=
  match d with
  | Some time =>
      Inline.isSwathi (Inline.getMoonSiderealLongitude Math_sin Math_PI time)
  | None => false
  end.

(** searchDate.getTime() - currentDate.getTime() > 30 * 24 * 60 * 60 * 1000 *)
Definition pastHorizon (searchDate currentDate : Date) : bool :=
  match searchDate, currentDate with
  | Some s, Some c => s - c >? Inline.horizon
  | _, _ => false
  end.

Definition findCurrentOrNextSwathiPeriod (fuel : nat) (startDate : Date)
  : result Period :=
  let currentDate := startDate in
  (* If currently in Swathi, find the boundaries of this period *)
  if inBand currentDate then
    let startFinder := currentDate in
    (* Coarse search backwards *)
    startFinder <- while fuel (fun d => Ok (inBand d))
                     (fun d => Ok (shifted d (- Inline.coarseStep)))
                     startFinder ;;
    (* Fine tune forward to exact start *)
    startFinder <- while fuel (fun d => Ok (negb (inBand d)))
                     (fun d => Ok (shifted d Inline.fineStep)) startFinder ;;
    let periodStart := startFinder in
    let endFinder := currentDate in
    (* Coarse search forwards *)
    endFinder <- while fuel (fun d => Ok (inBand d))
                   (fun d => Ok (shifted d Inline.coarseStep)) endFinder ;;
    (* Fine tune backwards to exact end *)
    endFinder <- while fuel (fun d => Ok (negb (inBand d)))
                   (fun d => Ok (shifted d (- Inline.fineStep))) endFinder ;;
    (* Add one more minute to get the actual end *)
    let periodEnd := shifted endFinder Inline.fineStep in
    Ok {| start := periodStart; end_ := periodEnd |}
  else
    (* Not in Swathi - find the next period *)
    let searchDate := currentDate in
    (* Coarse search to find when we enter Swathi *)
    searchDate <- while fuel (fun d => Ok (negb (inBand d)))
                    (fun d =>
                       let d' := shifted d Inline.coarseStep in
                       (* Safety check to prevent infinite loop *)
                       if pastHorizon d' currentDate
                       then Throw SearchExhausted
                       else Ok d') searchDate ;;
    (* Fine tune backwards to exact start *)
    searchDate <- while fuel
                    (fun d => Ok (inBand (shifted d (- Inline.fineStep))))
                    (fun d => Ok (shifted d (- Inline.fineStep)))
                    searchDate ;;
    let periodStart := searchDate in
    let endFinder := periodStart in
    (* Coarse search forwards *)
    endFinder <- while fuel (fun d => Ok (inBand d))
                   (fun d => Ok (shifted d Inline.coarseStep)) endFinder ;;
    (* Fine tune backwards to exact end *)
    endFinder <- while fuel (fun d => Ok (negb (inBand d)))
                   (fun d => Ok (shifted d (- Inline.fineStep))) endFinder ;;
    let periodEnd := shifted endFinder Inline.fineStep in
    Ok {| start := periodStart; end_ := periodEnd |}.

End Host.

End Dated.

(** ** src/unnamed/part_001: calculator service over the global SunCalc *)

Module Calculator.

(** What the service reads of [window.SunCalc.getMoonPosition(date)]: the
    field [eclipticLon], in radians. *)
Record MoonPosition : Set := { eclipticLon : Q }.

Record SunCalcLibrary : Type := { getMoonPosition : Instant -> MoonPosition }.

(** The global object: [SunCalc] is [None] when
    [typeof window.SunCalc === 'undefined']. *)
Record Window : Type := { SunCalc : option SunCalcLibrary }.

Definition SWATHI_START_DEGREES_TROPICAL : Q :=
  (15 - 1) * NAKSHATRA_SPAN_DEGREES.
Definition SWATHI_END_DEGREES_TROPICAL : Q := 15 * NAKSHATRA_SPAN_DEGREES.

Definition isSwathi (longitude : Q) : bool :=
  Qge_bool longitude SWATHI_START_DEGREES_TROPICAL
  && Qlt_bool longitude SWATHI_END_DEGREES_TROPICAL.

Section Host.

Variable Math_PI : Q.
Variable window : Window.

Definition getLunarSiderealLongitude (date : Instant) : result Q :=
  match SunCalc window with
  | None => Throw SunCalcNotLoaded
  | Some lib =>
      let moonPosition := getMoonPosition lib date in
      (* SunCalc returns longitude in radians, convert to degrees *)
      let tropicalLongitude :=
        (eclipticLon moonPosition * (180 / Math_PI))%Q in
      let ayanamsha := getLahiriAyanamsha date in
      let siderealLongitude := (tropicalLongitude - ayanamsha)%Q in
      (* Normalize to 0-360 degrees *)
      let siderealLongitude :=
        if Qlt_bool siderealLongitude 0 then (siderealLongitude + 360)%Q
        else siderealLongitude in
      Ok siderealLongitude
  end.

Definition coarseStep : Z := 60 * 60 * 1000. (* 1 hour *)
Definition fineStep : Z := 60 * 1000.        (* 1 minute *)

(** isSwathi(getLunarSiderealLongitude(d)), a loop condition that can throw. *)
Definition inSwathi (d : Instant) : result bool :=
  l <- getLunarSiderealLongitude d ;; Ok (isSwathi l).

Definition notInSwathi (d : Instant) : result bool :=
  l <- getLunarSiderealLongitude d ;; Ok (negb (isSwathi l)).

(** The dates are mutated in place with [setTime]; [periodStart] and
    [periodEnd] are aliases of [startFinder], [searchDate] and [endFinder],
    none of which is written after the alias is taken, and [endFinder] is a
    copy ([new Date(...)]): the time values below are what the returned
    period shows. *)
Definition findCurrentOrNextSwathiPeriod (fuel : nat) (startDate : Instant)
  : result NakshatraPeriod :=
  let currentDate := startDate in
  longitude <- getLunarSiderealLongitude currentDate ;;
  (* If we are currently in Swathi, find the start and end of this period *)
  if isSwathi longitude then
    (* Find the start by going backwards *)
    let startFinder := currentDate in
    startFinder <- while fuel inSwathi
                     (fun d => Ok (d - coarseStep)) startFinder ;;
    (* Refine to the minute *)
    startFinder <- while fuel notInSwathi
                     (fun d => Ok (d + fineStep)) startFinder ;;
    let periodStart := startFinder in
    (* Find the end by going forwards *)
    let endFinder := currentDate in
    endFinder <- while fuel inSwathi
                   (fun d => Ok (d + coarseStep)) endFinder ;;
    (* Refine to the minute *)
    endFinder <- while fuel inSwathi
                   (fun d => Ok (d + fineStep)) endFinder ;;
    let periodEnd := endFinder in
    Ok {| start := periodStart; end_ := periodEnd |}
  else
    (* If not in Swathi, find the start of the next period *)
    let searchDate := currentDate in
    searchDate <- while fuel notInSwathi
                    (fun d => Ok (d + coarseStep)) searchDate ;;
    (* Refine to the minute *)
    searchDate <- while fuel (fun d => inSwathi (d - fineStep))
                    (fun d => Ok (d - fineStep)) searchDate ;;
    let periodStart := searchDate in
    (* Now find the end of that period *)
    let endFinder := periodStart in
    endFinder <- while fuel inSwathi
                   (fun d => Ok (d + coarseStep)) endFinder ;;
    (* Refine to the minute *)
    endFinder <- while fuel inSwathi
                   (fun d => Ok (d + fineStep)) endFinder ;;
    let periodEnd := endFinder in
    Ok {| start := periodStart; end_ := periodEnd |}.

End Host.

End Calculator.

(** ** Normalisation of the sidereal longitude *)

(** The last steps of getMoonSiderealLongitude, as a function of the
    ecliptic longitude [x] and of the ayanamsha [ay]. *)
Definition inline_normalise (x ay : Q) : Q :=
  let tropicalLongitude := Qrem x 360 in
  let tropicalLongitude :=
    if Qlt_bool tropicalLongitude 0 then (tropicalLongitude + 360)%Q
    else tropicalLongitude in
  let siderealLongitude := (tropicalLongitude - ay)%Q in
  let siderealLongitude :=
    if Qlt_bool siderealLongitude 0 then (siderealLongitude + 360)%Q
    else siderealLongitude in
  let siderealLongitude :=
    if Qge_bool siderealLongitude 360 then (siderealLongitude - 360)%Q
    else siderealLongitude in
  siderealLongitude.

(** ** Concrete hosts used to run the code

    A rational stand-in for [Math.PI], the sine with every periodic term
    switched off (the mean-motion fallback of the inline series), and a
    mean-motion [SunCalc] that reports a normalised ecliptic longitude. *)

Definition PI_double : Q := 3.141592653589793.

Definition noSine (x : Q) : Q := 0.

(** The inline series with the sine switched off, every intermediate
    fraction in lowest terms: its mean longitude, cheap to evaluate. *)
Definition meanLongitude (t : Instant) : Q :=
  inline_normalise (Qred (Inline.Lp (Qred (Inline.julianCenturies t))))
    (Qred (getLahiriAyanamsha t)).

Definition meanBand (t : Instant) : bool :=
  Inline.isSwathi (meanLongitude t).

Definition meanMotionMoon (date : Instant) : Calculator.MoonPosition :=
  (let d := inject_Z (date - J2000) / 86400000 in
   let deg := Qrem (218.316 + 13.176396 * d) 360 in
   let deg := if Qlt_bool deg 0 then deg + 360 else deg in
   {| Calculator.eclipticLon := deg * (PI_double / 180) |})%Q.

Definition meanMotionSunCalc : Calculator.SunCalcLibrary :=
  {| Calculator.getMoonPosition := meanMotionMoon |}.

Definition windowLoaded : Calculator.Window :=
  {| Calculator.SunCalc := Some meanMotionSunCalc |}.

Definition windowBare : Calculator.Window :=
  {| Calculator.SunCalc := None |}.

(** The mean-motion library once more, as another object that reports the
    same longitudes, each as a fraction in lowest terms. *)
Definition meanMotionSunCalcAgain : Calculator.SunCalcLibrary :=
  {| Calculator.getMoonPosition :=
       fun date =>
         {| Calculator.eclipticLon :=
              Qred (Calculator.eclipticLon (meanMotionMoon date)) |} |}.

Definition windowReloaded : Calculator.Window :=
  {| Calculator.SunCalc := Some meanMotionSunCalcAgain |}.

(** ** The countdown of the components *)

(** types.ts: interface CountdownState *)
Record CountdownState : Set :=
  { days : Z; hours : Z; minutes : Z; seconds : Z }.

(** { days: 0, hours: 0, minutes: 0, seconds: 0 } *)
Definition NO_COUNTDOWN : CountdownState :=
  {| days := 0; hours := 0; minutes := 0; seconds := 0 |}.

(** calculateCountdown, the same text in part_000, in App.tsx and in
    hooks/useNakshatra.ts.  [now] is what [new Date().getTime()] reads off
    the clock; a [null] target is [None]. *)
Definition calculateCountdown (now : Instant) (targetDate : option Instant)
  : CountdownState :=
  match targetDate with
  | None => NO_COUNTDOWN
  | Some targetDate =>
      let difference := targetDate - now in
      if difference <=? 0 then NO_COUNTDOWN
      else
        let difference := inject_Z difference in
        {| days := Qfloor (difference / (1000 * 60 * 60 * 24));
           hours := Qfloor (Qrem (difference / (1000 * 60 * 60)) 24);
           minutes := Qfloor (Qrem (difference / 1000 / 60) 60);
           seconds := Qfloor (Qrem (difference / 1000) 60) |}%Q
  end.

(** components/Countdown.tsx: shouldAnnounce *)
Definition shouldAnnounce (countdown : CountdownState) : bool :=
  ((Z.rem (minutes countdown) 5 =? 0) && (seconds countdown =? 0))
  || ((days countdown =? 0) && (hours countdown =? 0)
      && (minutes countdown =? 0)).

(** ** components/Countdown.tsx and part_000: CountdownUnit *)

(** [String(value)] for an integer [value]. *)
Definition String_of_number (value : Z) : string :=
  NilZero.string_of_int (Z.to_int value).

(** [s.padStart(targetLength, c)] for a pad of one character [c]. *)
Fixpoint padding (n : nat) (c : ascii) : string :=
  match n with
  | O => EmptyString
  | S n => String c (padding n c)
  end.

Definition padStart (s : string) (targetLength : nat) (c : ascii) : string :=
  (padding (targetLength - String.length s) c ++ s)%string.

(** The text of a CountdownUnit: String(value).padStart(2, '0') *)
Definition CountdownUnit_text (value : Z) : string :=
  padStart (String_of_number value) 2 "0"%char.

(** Reading a decimal text back. *)
Definition number_of_String (s : string) : option Z :=
  option_map Z.of_int (NilZero.int_of_string s).

(** ** part_000 and components/NotificationManager.tsx: the notifier *)

Module Notifier.

(** NotificationPermission *)
Inductive NotificationPermission : Set := default | granted | denied.

(** new Notification(title, { body, icon }) *)
Record Notification : Set := { title : string; body : string }.

Definition SWATHI_IS_ACTIVE : Notification :=
  {| title := "Swathi Nakshatra is Active";
     body := "The auspicious period has begun. Embrace the celestial energy."
  |}.

(** The state of the component: useState('default') and useState(null). *)
Record State : Set :=
  { permission : NotificationPermission; lastNotified : option Z }.

Definition initial : State :=
  {| permission := default; lastNotified := None |}.

(** Its props. *)
Record Props : Set :=
  { isSwathiActive : bool; nextSwathiStart : option Instant }.

(** [x !== lastNotified] for a number [x] and a number or null. *)
Definition differs (x : Z) (lastNotified : option Z) : bool :=
  match lastNotified with
  | None => true
  | Some y => negb (x =? y)
  end.

(** [permission === 'granted'] *)
Definition is_granted (permission : NotificationPermission) : bool :=
  match permission with
  | granted => true
  | _ => false
  end.

(** The effect on [isSwathiActive, permission, nextSwathiStart,
    lastNotified]: the state it leaves and the notifications it shows. *)
Definition notifyEffect (props : Props) (s : State)
  : State * list Notification :=
  match nextSwathiStart props with
  | Some nextSwathiStart_ =>
      if isSwathiActive props && is_granted (permission s)
         && differs nextSwathiStart_ (lastNotified s)
      then
        ({| permission := permission s;
            lastNotified := Some nextSwathiStart_ |},
         SWATHI_IS_ACTIVE :: nil)
      else (s, nil)
  | None => (s, nil)
  end.

(** What happens to a mounted component: a render with the props of the
    moment, after which the effect runs, or [setPermission(status)], from
    the effect of the first render or from the button. *)
Inductive Event : Set :=
| Render (props : Props)
| SetPermission (status : NotificationPermission).

Definition step (e : Event) (s : State) : State * list Notification :=
  match e with
  | Render props => notifyEffect props s
  | SetPermission status =>
      ({| permission := status; lastNotified := lastNotified s |}, nil)
  end.

Fixpoint run (events : list Event) (s : State) : State * list Notification :=
  match events with
  | nil => (s, nil)
  | e :: events =>
      let (s', shown) := step e s in
      let (s'', shown') := run events s' in
      (s'', shown ++ shown')
  end.

End Notifier.

(** ** part_000: the App component *)

Module App.

(** The five [useState]s. *)
Record State : Set :=
  { activePeriod : option NakshatraPeriod;
    isSwathiActive : bool;
    countdown : CountdownState;
    isLoading : bool;
    error : option string }.

Definition initial : State :=
  {| activePeriod := None; isSwathiActive := false;
     countdown := NO_COUNTDOWN; isLoading := true; error := None |}.

Section Host.

Variable Math_sin : Q -> Q.
Variable Math_PI : Q.
Variable fuel : nat.

(** calculatePeriod: the state once the promise of the locator has
    settled, or with the call still pending. *)
Definition calculatePeriod (date : Instant) (s : State) : State :=
  let s :=
    {| activePeriod := activePeriod s; isSwathiActive := isSwathiActive s;
       countdown := countdown s; isLoading := true; error := None |} in
  match Inline.findCurrentOrNextSwathiPeriod Math_sin Math_PI fuel date with
  | Ok period =>
      {| activePeriod := Some period; isSwathiActive := isSwathiActive s;
         countdown := countdown s; isLoading := false; error := error s |}
  | Throw err =>
      {| activePeriod := activePeriod s; isSwathiActive := isSwathiActive s;
         countdown := countdown s; isLoading := false;
         error := Some (message err) |}
  | Pending => s
  end.

(** The callback of [setInterval]: [now] is its [new Date()], [now'] the
    one that calculateCountdown reads after it. *)
Definition tick (now now' : Instant) (s : State) : State :=
  match activePeriod s with
  | Some activePeriod_ =>
      let isActive :=
        (start activePeriod_ <=? now) && (now <=? end_ activePeriod_) in
      let s :=
        {| activePeriod := activePeriod s; isSwathiActive := isActive;
           countdown := countdown s; isLoading := isLoading s;
           error := error s |} in
      if isActive then
        {| activePeriod := activePeriod s; isSwathiActive := isSwathiActive s;
           countdown := calculateCountdown now' (Some (end_ activePeriod_));
           isLoading := isLoading s; error := error s |}
      else if end_ activePeriod_ <? now then calculatePeriod now s
      else
        {| activePeriod := activePeriod s; isSwathiActive := isSwathiActive s;
           countdown :=
             calculateCountdown now' (Some (start activePeriod_));
           isLoading := isLoading s; error := error s |}
  | None => s
  end.

(** const targetDate = isSwathiActive ? activePeriod?.end
                                      : activePeriod?.start *)
Definition targetDate (s : State) : option Instant :=
  if isSwathiActive s then option_map end_ (activePeriod s)
  else option_map start (activePeriod s).

End Host.

End App.

(** ** hooks/useNakshatra.ts: the hook over the calculator service *)

Module Hook.

(** The four [useState]s. *)
Record State : Set :=
  { activePeriod : option NakshatraPeriod;
    isSwathiActive : bool;
    countdown : CountdownState;
    isLoading : bool }.

Definition initial : State :=
  {| activePeriod := None; isSwathiActive := false;
     countdown := NO_COUNTDOWN; isLoading := true |}.

Section Host.

Variable Math_PI : Q.
Variable window : Calculator.Window.
Variable fuel : nat.

(** calculateAndSetPeriod: a rejection is logged and nothing else. *)
Definition calculateAndSetPeriod (currentDate : Instant) (s : State)
  : State :=
  let s :=
    {| activePeriod := activePeriod s; isSwathiActive := isSwathiActive s;
       countdown := countdown s; isLoading := true |} in
  match
    Calculator.findCurrentOrNextSwathiPeriod Math_PI window fuel currentDate
  with
  | Ok period =>
      {| activePeriod := Some period; isSwathiActive := isSwathiActive s;
         countdown := countdown s; isLoading := false |}
  | Throw _ =>
      {| activePeriod := activePeriod s; isSwathiActive := isSwathiActive s;
         countdown := countdown s; isLoading := false |}
  | Pending => s
  end.

Definition tick (now now' : Instant) (s : State) : State :=
  match activePeriod s with
  | Some activePeriod_ =>
      let isActive :=
        (start activePeriod_ <=? now) && (now <=? end_ activePeriod_) in
      let s :=
        {| activePeriod := activePeriod s; isSwathiActive := isActive;
           countdown := countdown s; isLoading := isLoading s |} in
      if isActive then
        {| activePeriod := activePeriod s; isSwathiActive := isSwathiActive s;
           countdown := calculateCountdown now' (Some (end_ activePeriod_));
           isLoading := isLoading s |}
      else if end_ activePeriod_ <? now then calculateAndSetPeriod now s
      else
        {| activePeriod := activePeriod s; isSwathiActive := isSwathiActive s;
           countdown :=
             calculateCountdown now' (Some (start activePeriod_));
           isLoading := isLoading s |}
  | None => s
  end.

(** The ticks of the timer, one after the other: each with its two
    readings of the clock. *)
Fixpoint ticks (clock : list (Instant * Instant)) (s : State) : State :=
  match clock with
  | nil => s
  | (now, now') :: clock => ticks clock (tick now now' s)
  end.

End Host.

End Hook.

(** ** src/App.tsx: the application with its own locator *)

Module Legacy.

(** const SWATHI_START_DEGREES = (15 - 1) * NAKSHATRA_SPAN_DEGREES
    const SWATHI_END_DEGREES = 15 * NAKSHATRA_SPAN_DEGREES *)
Definition SWATHI_START_DEGREES : Q := (15 - 1) * NAKSHATRA_SPAN_DEGREES.
Definition SWATHI_END_DEGREES : Q := 15 * NAKSHATRA_SPAN_DEGREES.

Definition isSwathi (longitude : Q) : bool :=
  Qge_bool longitude SWATHI_START_DEGREES
  && Qlt_bool longitude SWATHI_END_DEGREES.

(** Simplified moon position calculation: the Moon completes an orbit in
    LUNAR_MONTH days.  EPOCH is the date of J2000. *)
Definition LUNAR_MONTH : Q := 27.321661.
Definition EPOCH : Instant := J2000.

Definition getMoonSiderealLongitude (date : Instant) : Q :=
  (let daysSinceEpoch :=
     (inject_Z date - inject_Z EPOCH) / (1000 * 60 * 60 * 24) in
   let cycles := daysSinceEpoch / LUNAR_MONTH in
   (* Starting position + motion *)
   let tropicalLongitude := Qrem (218.316 + 360 * Qrem cycles 1) 360 in
   let ayanamsha := getLahiriAyanamsha date in
   let siderealLongitude := tropicalLongitude - ayanamsha in
   let siderealLongitude :=
     if Qlt_bool siderealLongitude 0 then siderealLongitude + 360
     else siderealLongitude in
   let siderealLongitude :=
     if Qge_bool siderealLongitude 360 then siderealLongitude - 360
     else siderealLongitude in
   siderealLongitude)%Q.

Definition coarseStep : Z := 60 * 60 * 1000. (* 1 hour *)
Definition fineStep : Z := 60 * 1000.        (* 1 minute *)

Definition findCurrentOrNextSwathiPeriod (fuel : nat) (startDate : Instant)
  : result NakshatraPeriod :=
  let currentDate := startDate in
  let longitude := getMoonSiderealLongitude currentDate in
  (* If currently in Swathi, find start and end *)
  if isSwathi longitude then
    let startFinder := currentDate in
    (* Find start by going backwards *)
    startFinder <- while fuel
                     (fun d => Ok (isSwathi (getMoonSiderealLongitude d)))
                     (fun d => Ok (d - coarseStep)) startFinder ;;
    startFinder <- while fuel
                     (fun d =>
                        Ok (negb (isSwathi (getMoonSiderealLongitude d))))
                     (fun d => Ok (d + fineStep)) startFinder ;;
    let periodStart := startFinder in
    (* Find end by going forwards *)
    let endFinder := currentDate in
    endFinder <- while fuel
                   (fun d => Ok (isSwathi (getMoonSiderealLongitude d)))
                   (fun d => Ok (d + coarseStep)) endFinder ;;
    endFinder <- while fuel
                   (fun d =>
                      Ok (isSwathi (getMoonSiderealLongitude (d - fineStep))))
                   (fun d => Ok (d - fineStep)) endFinder ;;
    let periodEnd := endFinder in
    Ok {| start := periodStart; end_ := periodEnd |}
  else
    (* Find next Swathi period *)
    let searchDate := currentDate in
    searchDate <- while fuel
                    (fun d =>
                       Ok (negb (isSwathi (getMoonSiderealLongitude d))))
                    (fun d => Ok (d + coarseStep)) searchDate ;;
    searchDate <- while fuel
                    (fun d =>
                       Ok (negb (isSwathi
                                   (getMoonSiderealLongitude (d - fineStep)))))
                    (fun d => Ok (d - fineStep)) searchDate ;;
    let periodStart := searchDate in
    (* Find end *)
    let endFinder := periodStart in
    endFinder <- while fuel
                   (fun d => Ok (isSwathi (getMoonSiderealLongitude d)))
                   (fun d => Ok (d + coarseStep)) endFinder ;;
    endFinder <- while fuel
                   (fun d =>
                      Ok (isSwathi (getMoonSiderealLongitude (d - fineStep))))
                   (fun d => Ok (d - fineStep)) endFinder ;;
    let periodEnd := endFinder in
    Ok {| start := periodStart; end_ := periodEnd |}.

(** The App component: the state is that of the App of part_000. *)
Definition FAILED : string := "Failed to calculate Swathi period".

Section Host.

Variable fuel : nat.

Definition calculatePeriod (date : Instant) (s : App.State) : App.State :=
  let s :=
    {| App.activePeriod := App.activePeriod s;
       App.isSwathiActive := App.isSwathiActive s;
       App.countdown := App.countdown s;
       App.isLoading := true; App.error := None |} in
  match findCurrentOrNextSwathiPeriod fuel date with
  | Ok period =>
      {| App.activePeriod := Some period;
         App.isSwathiActive := App.isSwathiActive s;
         App.countdown := App.countdown s;
         App.isLoading := false; App.error := App.error s |}
  | Throw _ =>
      {| App.activePeriod := App.activePeriod s;
         App.isSwathiActive := App.isSwathiActive s;
         App.countdown := App.countdown s;
         App.isLoading := false; App.error := Some FAILED |}
  | Pending => s
  end.

(** The callback of [setInterval]. *)
Definition tick (now now' : Instant) (s : App.State) : App.State :=
  match App.activePeriod s with
  | Some activePeriod_ =>
      let isActive :=
        (start activePeriod_ <=? now) && (now <=? end_ activePeriod_) in
      let s :=
        {| App.activePeriod := App.activePeriod s;
           App.isSwathiActive := isActive;
           App.countdown := App.countdown s;
           App.isLoading := App.isLoading s;
           App.error := App.error s |} in
      if isActive then
        {| App.activePeriod := App.activePeriod s;
           App.isSwathiActive := App.isSwathiActive s;
           App.countdown :=
             calculateCountdown now' (Some (end_ activePeriod_));
           App.isLoading := App.isLoading s; App.error := App.error s |}
      else if end_ activePeriod_ <? now then calculatePeriod now s
      else
        {| App.activePeriod := App.activePeriod s;
           App.isSwathiActive := App.isSwathiActive s;
           App.countdown :=
             calculateCountdown now' (Some (start activePeriod_));
           App.isLoading := App.isLoading s; App.error := App.error s |}
  | None => s
  end.

End Host.

End Legacy.
(** * Vocabulary of the statements *)

(** ** Scans *)

(** The first failure of a test along [d, d + step, d + 2 step, ...]. *)
Definition exits_at (P : Instant -> bool) (d step : Z) (k : nat) : Prop :=
  P (d + Z.of_nat k * step) = false
  /\ forall j, (j < k)%nat -> P (d + Z.of_nat j * step) = true.

(** Mode A, start: coarse scan backward out of the band, fine scan forward
    into it. *)
Definition start_inside (P : Instant -> bool) (coarse fine : Z)
    (ref s : Instant) : Prop :=
  exists kb jf : nat,
    exits_at P ref (- coarse) kb
    /\ exits_at (fun d => negb (P d)) (ref + Z.of_nat kb * - coarse) fine jf
    /\ s = ref + Z.of_nat kb * - coarse + Z.of_nat jf * fine.

(** Mode B, start: coarse scan forward into the band, fine scan backward
    while the instant one fine step earlier is still in the band. *)
Definition start_outside (P : Instant -> bool) (coarse fine : Z)
    (ref s : Instant) : Prop :=
  exists ks js : nat,
    exits_at (fun d => negb (P d)) ref coarse ks
    /\ exits_at (fun d => P (d - fine)) (ref + Z.of_nat ks * coarse)
         (- fine) js
    /\ s = ref + Z.of_nat ks * coarse + Z.of_nat js * - fine.

(** End, refined: coarse scan forward out of the band, fine scan backward
    into it, plus one fine step. *)
Definition end_refined (P : Instant -> bool) (coarse fine : Z)
    (from e : Instant) : Prop :=
  exists kf jb : nat,
    exits_at P from coarse kf
    /\ exits_at (fun d => negb (P d)) (from + Z.of_nat kf * coarse)
         (- fine) jb
    /\ e = from + Z.of_nat kf * coarse + Z.of_nat jb * - fine + fine.

(** End, coarse only: the first coarse probe out of the band. *)
Definition end_coarse (P : Instant -> bool) (coarse : Z)
    (from e : Instant) : Prop :=
  exists kf : nat,
    exits_at P from coarse kf /\ e = from + Z.of_nat kf * coarse.

(** The body of the forward scan of Mode B with its guard: one step on,
    unless that leaves [cur] more than [limit] behind. *)
Definition guarded (step limit : Z) (cur d : Instant) : result Instant :=
  let d' := d + step in
  if d' - cur >? limit then Throw SearchExhausted else Ok d'.

(** A computation on fuel that keeps its result when given more. *)
Definition fuel_mono {A : Type} (f : nat -> result A) : Prop :=
  forall n m r, f n = r -> r <> Pending -> (n <= m)%nat -> f m = r.

(** ** The inline locator, scan by scan *)

(** The runs of the inline locator that return a period. *)
Definition inline_run (P : Instant -> bool) (ref : Instant)
    (p : NakshatraPeriod) : Prop :=
  if P ref then
    start_inside P Inline.coarseStep Inline.fineStep ref (start p)
    /\ end_refined P Inline.coarseStep Inline.fineStep ref (end_ p)
  else
    (exists ks : nat,
        exits_at (fun d => negb (P d)) ref Inline.coarseStep ks
        /\ Z.of_nat ks * Inline.coarseStep <= Inline.horizon)
    /\ start_outside P Inline.coarseStep Inline.fineStep ref (start p)
    /\ end_refined P Inline.coarseStep Inline.fineStep (start p) (end_ p).

(** The runs that reject with SearchExhausted: the reference and every
    coarse probe up to the horizon are outside the band. *)
Definition inline_exhausted (P : Instant -> bool) (ref : Instant) : Prop :=
  forall k : nat, (k <= 1440)%nat ->
    P (ref + Z.of_nat k * Inline.coarseStep) = false.

(** The control flow of the inline locator over an arbitrary band test. *)
Definition inline_locator (P : Instant -> bool) (fuel : nat) (ref : Instant)
  : result NakshatraPeriod :=
  if P ref then
    startFinder <- while fuel (fun d => Ok (P d))
                     (fun d => Ok (d - Inline.coarseStep)) ref ;;
    startFinder <- while fuel (fun d => Ok (negb (P d)))
                     (fun d => Ok (d + Inline.fineStep)) startFinder ;;
    endFinder <- while fuel (fun d => Ok (P d))
                   (fun d => Ok (d + Inline.coarseStep)) ref ;;
    endFinder <- while fuel (fun d => Ok (negb (P d)))
                   (fun d => Ok (d - Inline.fineStep)) endFinder ;;
    Ok {| start := startFinder; end_ := endFinder + Inline.fineStep |}
  else
    searchDate <- while fuel (fun d => Ok (negb (P d)))
                    (guarded Inline.coarseStep Inline.horizon ref) ref ;;
    searchDate <- while fuel (fun d => Ok (P (d - Inline.fineStep)))
                    (fun d => Ok (d - Inline.fineStep)) searchDate ;;
    endFinder <- while fuel (fun d => Ok (P d))
                   (fun d => Ok (d + Inline.coarseStep)) searchDate ;;
    endFinder <- while fuel (fun d => Ok (negb (P d)))
                   (fun d => Ok (d - Inline.fineStep)) endFinder ;;
    Ok {| start := searchDate; end_ := endFinder + Inline.fineStep |}.

(** The band test of the inline locator at an instant. *)
Notation "'inline_band' s pi" :=
  (fun d : Instant => Inline.isSwathi (Inline.getMoonSiderealLongitude s pi d))
  (at level 10, s at level 9, pi at level 9, only parsing).

(** ** The calculator service, scan by scan *)

(** The sidereal longitude the service computes once [SunCalc] is there. *)
Definition calculator_longitude (Math_PI : Q)
    (lib : Calculator.SunCalcLibrary) (date : Instant) : Q :=
  let moonPosition := Calculator.getMoonPosition lib date in
  let tropicalLongitude :=
    (Calculator.eclipticLon moonPosition * (180 / Math_PI))%Q in
  let ayanamsha := getLahiriAyanamsha date in
  let siderealLongitude := (tropicalLongitude - ayanamsha)%Q in
  if Qlt_bool siderealLongitude 0 then (siderealLongitude + 360)%Q
  else siderealLongitude.

Definition calculator_band (Math_PI : Q) (lib : Calculator.SunCalcLibrary)
    (d : Instant) : bool :=
  Calculator.isSwathi (calculator_longitude Math_PI lib d).

(** The control flow of the service over an arbitrary band test. *)
Definition calculator_locator (P : Instant -> bool) (fuel : nat)
    (ref : Instant) : result NakshatraPeriod :=
  if P ref then
    startFinder <- while fuel (fun d => Ok (P d))
                     (fun d => Ok (d - Calculator.coarseStep)) ref ;;
    startFinder <- while fuel (fun d => Ok (negb (P d)))
                     (fun d => Ok (d + Calculator.fineStep)) startFinder ;;
    endFinder <- while fuel (fun d => Ok (P d))
                   (fun d => Ok (d + Calculator.coarseStep)) ref ;;
    endFinder <- while fuel (fun d => Ok (P d))
                   (fun d => Ok (d + Calculator.fineStep)) endFinder ;;
    Ok {| start := startFinder; end_ := endFinder |}
  else
    searchDate <- while fuel (fun d => Ok (negb (P d)))
                    (fun d => Ok (d + Calculator.coarseStep)) ref ;;
    searchDate <- while fuel (fun d => Ok (P (d - Calculator.fineStep)))
                    (fun d => Ok (d - Calculator.fineStep)) searchDate ;;
    endFinder <- while fuel (fun d => Ok (P d))
                   (fun d => Ok (d + Calculator.coarseStep)) searchDate ;;
    endFinder <- while fuel (fun d => Ok (P d))
                   (fun d => Ok (d + Calculator.fineStep)) endFinder ;;
    Ok {| start := searchDate; end_ := endFinder |}.

(** The runs of the service that return a period. *)
Definition calculator_run (P : Instant -> bool) (ref : Instant)
    (p : NakshatraPeriod) : Prop :=
  if P ref then
    start_inside P Calculator.coarseStep Calculator.fineStep ref (start p)
    /\ end_coarse P Calculator.coarseStep ref (end_ p)
  else
    start_outside P Calculator.coarseStep Calculator.fineStep ref (start p)
    /\ end_coarse P Calculator.coarseStep (start p) (end_ p).

(** ** The signal of the inline series *)

Definition quartic (a0 a1 a2 a3 a4 T : Q) : Q :=
  (a0 + a1 * T + a2 * (T * T) + a3 * (T * T * T) + a4 * (T * T * T * T))%Q.

(** The periodic terms at an instant, and the sidereal longitude before
    any normalisation. *)
Definition inline_sigma (Math_sin : Q -> Q) (Math_PI : Q) (t : Instant) : Q :=
  let T := Inline.julianCenturies t in
  Inline.sigmaL Math_sin
    (Inline.toRad Math_PI (Inline.D T)) (Inline.toRad Math_PI (Inline.M T))
    (Inline.toRad Math_PI (Inline.Mp T)) (Inline.toRad Math_PI (Inline.F T)).

Definition inline_unnormalised (Math_sin : Q -> Q) (Math_PI : Q)
    (t : Instant) : Q :=
  (Inline.eclipticLongitude Math_sin Math_PI t - getLahiriAyanamsha t)%Q.

(** What is asked of the host's sine: values in [-1, 1], and no steeper
    than the identity. *)
Definition sine_like (f : Q -> Q) : Prop :=
  (forall x, - 1 <= f x /\ f x <= 1)%Q
  /\ (forall x y, Qabs (f x - f y) <= Qabs (x - y))%Q.

Definition pi_like (pi : Q) : Prop := (3.14 <= pi /\ pi <= 3.15)%Q.

(** ** Ranges of instants *)

(** Valid dates with room to spare: no probe of a search from such a
    reference, a little over a month away at most, leaves the range of
    valid dates. *)
Definition searchable (t : Instant) : Prop :=
  - 8636000000000000 <= t <= 8636000000000000.

(** From the year -25283 to the year 25736 the ayanamsha stays within
    one turn. *)
Definition civil (t : Instant) : Prop :=
  - 860000000000000 <= t <= 750000000000000.

(** The instant, in the year 38471, from which the ayanamsha is past 533
    degrees and a third. *)
Definition BAND_GONE : Instant := 1151879383034401.

(** ** The inline locator on Date objects *)

(** The period of valid dates with the time values of [p]. *)
Definition dated (p : NakshatraPeriod) : Dated.Period :=
  {| Dated.start := Some (start p); Dated.end_ := Some (end_ p) |}.

(** The runs on Date objects that never settle: the forward scan of Mode B
    walks out of the range of valid dates before the band is met and
    before the 30 days are over. *)
Definition dated_stuck (P : Instant -> bool) (ref : Instant) : Prop :=
  MAX_TIME < ref + 1441 * Inline.coarseStep
  /\ forall k : nat,
       ref + Z.of_nat k * Inline.coarseStep <= MAX_TIME ->
       P (ref + Z.of_nat k * Inline.coarseStep) = false.

(** The body of the forward scan of Mode B on Date objects. *)
Definition dated_guarded (cur d : Dated.Date) : result Dated.Date :=
  let d' := Dated.shifted d Inline.coarseStep in
  if Dated.pastHorizon d' cur then Throw SearchExhausted else Ok d'.

(** The control flow of the locator on Date objects over an arbitrary
    band test. *)
Definition dated_locator (B : Dated.Date -> bool) (fuel : nat)
    (ref : Dated.Date) : result Dated.Period :=
  if B ref then
    startFinder <- Dated.while fuel (fun d => Ok (B d))
                     (fun d => Ok (Dated.shifted d (- Inline.coarseStep)))
                     ref ;;
    startFinder <- Dated.while fuel (fun d => Ok (negb (B d)))
                     (fun d => Ok (Dated.shifted d Inline.fineStep))
                     startFinder ;;
    endFinder <- Dated.while fuel (fun d => Ok (B d))
                   (fun d => Ok (Dated.shifted d Inline.coarseStep)) ref ;;
    endFinder <- Dated.while fuel (fun d => Ok (negb (B d)))
                   (fun d => Ok (Dated.shifted d (- Inline.fineStep)))
                   endFinder ;;
    Ok {| Dated.start := startFinder;
          Dated.end_ := Dated.shifted endFinder Inline.fineStep |}
  else
    searchDate <- Dated.while fuel (fun d => Ok (negb (B d)))
                    (dated_guarded ref) ref ;;
    searchDate <- Dated.while fuel
                    (fun d => Ok (B (Dated.shifted d (- Inline.fineStep))))
                    (fun d => Ok (Dated.shifted d (- Inline.fineStep)))
                    searchDate ;;
    endFinder <- Dated.while fuel (fun d => Ok (B d))
                   (fun d => Ok (Dated.shifted d Inline.coarseStep))
                   searchDate ;;
    endFinder <- Dated.while fuel (fun d => Ok (negb (B d)))
                   (fun d => Ok (Dated.shifted d (- Inline.fineStep)))
                   endFinder ;;
    Ok {| Dated.start := searchDate;
          Dated.end_ := Dated.shifted endFinder Inline.fineStep |}.

(** ** The signal of the library *)

(** The tropical longitude the service reads off [SunCalc], in degrees. *)
Definition calculator_tropical (Math_PI : Q)
    (lib : Calculator.SunCalcLibrary) (date : Instant) : Q :=
  (Calculator.eclipticLon (Calculator.getMoonPosition lib date)
   * (180 / Math_PI))%Q.

(** A library that reports the longitude of a body moving like the Moon:
    a number of degrees in [0, 360) that grows, whole turns apart, by
    between 11 and 16 degrees a day. *)
Definition lunar_like (Math_PI : Q) (lib : Calculator.SunCalcLibrary)
  : Prop :=
  (forall t : Instant,
      (0 <= calculator_tropical Math_PI lib t
       /\ calculator_tropical Math_PI lib t < 360)%Q)
  /\ forall (t : Instant) (d : Z), 0 <= d ->
       exists (n : Z) (g : Q),
         (calculator_tropical Math_PI lib (t + d)%Z
          == calculator_tropical Math_PI lib t + g - 360 * inject_Z n
          /\ 11 * (inject_Z d / 86400000) <= g
          /\ g <= 16 * (inject_Z d / 86400000))%Q.

(** ** The global object between two calls *)

(** Two states of the global object in which the service is told the same
    about the Moon: [SunCalc] is undefined in both, or it is a library in
    both and the two report equal ecliptic longitudes at every date. *)
Definition same_reports (w1 w2 : Calculator.Window) : Prop :=
  match Calculator.SunCalc w1, Calculator.SunCalc w2 with
  | None, None => True
  | Some lib1, Some lib2 =>
      forall date : Instant,
        (Calculator.eclipticLon (Calculator.getMoonPosition lib1 date)
         == Calculator.eclipticLon (Calculator.getMoonPosition lib2 date))%Q
  | _, _ => False
  end.

(** ** The inline locator over binary64 *)

(** The band test of the inline locator over binary64, with the sine of
    [Module Binary64], at a time value. *)
Definition binary64_band (t : Instant) : bool :=
  Binary64.isSwathi
    (Binary64.getMoonSiderealLongitude Binary64.sin (Binary64.number t)).

(** ** The locator of src/App.tsx, scan by scan *)




(** The control flow of the locator over an arbitrary band test. *)
Definition legacy_locator (P : Instant -> bool) (fuel : nat) (ref : Instant)
  : result NakshatraPeriod :=
  if P ref then
    startFinder <- while fuel (fun d => Ok (P d))
                     (fun d => Ok (d - Legacy.coarseStep)) ref ;;
    startFinder <- while fuel (fun d => Ok (negb (P d)))
                     (fun d => Ok (d + Legacy.fineStep)) startFinder ;;
    endFinder <- while fuel (fun d => Ok (P d))
                   (fun d => Ok (d + Legacy.coarseStep)) ref ;;
    endFinder <- while fuel (fun d => Ok (P (d - Legacy.fineStep)))
                   (fun d => Ok (d - Legacy.fineStep)) endFinder ;;
    Ok {| start := startFinder; end_ := endFinder |}
  else
    searchDate <- while fuel (fun d => Ok (negb (P d)))
                    (fun d => Ok (d + Legacy.coarseStep)) ref ;;
    searchDate <- while fuel (fun d => Ok (negb (P (d - Legacy.fineStep))))
                    (fun d => Ok (d - Legacy.fineStep)) searchDate ;;
    endFinder <- while fuel (fun d => Ok (P d))
                   (fun d => Ok (d + Legacy.coarseStep)) searchDate ;;
    endFinder <- while fuel (fun d => Ok (P (d - Legacy.fineStep)))
                   (fun d => Ok (d - Legacy.fineStep)) endFinder ;;
    Ok {| start := searchDate; end_ := endFinder |}.

Notation "'legacy_band'" :=
  (fun d : Instant => Legacy.isSwathi (Legacy.getMoonSiderealLongitude d)).

(** The longitude before the normalisations: linear in the instant. *)
Definition legacy_unnormalised (t : Instant) : Q :=
  (218.316
   + 360 * ((inject_Z t - inject_Z J2000) / (1000 * 60 * 60 * 24)
            / Legacy.LUNAR_MONTH)
   - getLahiriAyanamsha t)%Q.

(** What happens to a mounted App of src/App.tsx: [calculatePeriod(date)],
    from the first effect or from the button, and the ticks of the
    timer. *)
Inductive LegacyEvent : Set :=
| LegacyCalculate (date : Instant)
| LegacyTick (now now' : Instant).

Definition legacy_app_step (fuel : nat) (e : LegacyEvent) (s : App.State)
  : App.State :=
  match e with
  | LegacyCalculate date => Legacy.calculatePeriod fuel date s
  | LegacyTick now now' => Legacy.tick fuel now now' s
  end.

Fixpoint legacy_app_run (fuel : nat) (events : list LegacyEvent)
    (s : App.State) : App.State :=
  match events with
  | nil => s
  | e :: events => legacy_app_run fuel events (legacy_app_step fuel e s)
  end.

(** ** The text of the countdown *)

(** A value shown as two characters that read back as the value. *)
Definition two_digits (n : nat) : bool :=
  (String.length (CountdownUnit_text (Z.of_nat n)) =? 2)%nat
  && match number_of_String (CountdownUnit_text (Z.of_nat n)) with
     | Some v => v =? Z.of_nat n
     | None => false
     end.

(** * Facts *)

(** ** Dates *)

(** The probes of a search from a searchable reference are valid dates. *)
Lemma searchable_valid (t d : Z) :
  searchable t -> - 4000000000000 <= d <= 4000000000000 ->
  - MAX_TIME <= t + d <= MAX_TIME.
Proof. unfold searchable, MAX_TIME. lia. Qed.

(** ** The boundaries in binary64 *)

(** On doubles the lower end of the band rounds to 186.66666666666669 and
    the upper end to 200; isSwathi(186.667) is true, isSwathi(200.0) is
    false, and the ayanamsha at the epoch is 23.85575. *)
Lemma binary64_boundaries :
  Binary64.SWATHI_START_DEGREES = 186.66666666666669%float
  /\ Binary64.SWATHI_END_DEGREES = 200%float
  /\ Binary64.isSwathi 186.667 = true
  /\ Binary64.isSwathi 200.0 = false
  /\ Binary64.getLahiriAyanamsha 946728000000 = 23.85575%float.
Proof. repeat split. Qed.

(** ** Comparisons and the remainder *)

Lemma Qge_bool_true (x y : Q) : Qge_bool x y = true <-> (y <= x)%Q.
Proof. unfold Qge_bool. apply Qle_bool_iff. Qed.

Lemma Qlt_bool_true (x y : Q) : Qlt_bool x y = true <-> (x < y)%Q.
Proof.
  unfold Qlt_bool. rewrite negb_true_iff. split; intro H.
  - apply Qnot_le_lt. intro Hle. apply Qle_bool_iff in Hle. congruence.
  - destruct (Qle_bool y x) eqn:E; [|reflexivity].
    apply Qle_bool_iff in E. exfalso. apply (Qlt_not_le _ _ H E).
Qed.

Lemma Qlt_bool_false (x y : Q) : Qlt_bool x y = false <-> (y <= x)%Q.
Proof.
  unfold Qlt_bool. rewrite negb_false_iff. apply Qle_bool_iff.
Qed.

Lemma Qge_bool_false (x y : Q) : Qge_bool x y = false <-> (x < y)%Q.
Proof.
  unfold Qge_bool. split; intro H.
  - apply Qnot_le_lt. intro Hle. apply Qle_bool_iff in Hle. congruence.
  - destruct (Qle_bool y x) eqn:E; [|reflexivity].
    apply Qle_bool_iff in E. exfalso. apply (Qlt_not_le _ _ H E).
Qed.

(** The truncation is within one unit of its argument, on the side of 0. *)
Lemma Qtrunc_nonneg (q : Q) :
  (0 <= q)%Q -> (inject_Z (Qtrunc q) <= q /\ q < inject_Z (Qtrunc q) + 1)%Q.
Proof.
  intro H. unfold Qtrunc. apply Qle_bool_iff in H. rewrite H. split.
  - apply Qfloor_le.
  - pose proof (Qlt_floor q) as Hlt. rewrite inject_Z_plus in Hlt. exact Hlt.
Qed.

Lemma Qtrunc_neg (q : Q) :
  (q < 0)%Q -> (q <= inject_Z (Qtrunc q) /\ inject_Z (Qtrunc q) - 1 < q)%Q.
Proof.
  intro H. unfold Qtrunc.
  destruct (Qle_bool 0 q) eqn:E.
  - apply Qle_bool_iff in E. exfalso. apply (Qlt_not_le _ _ H E).
  - split.
    + apply Qle_ceiling.
    + pose proof (Qceiling_lt q) as Hlt.
      unfold Z.sub in Hlt. rewrite inject_Z_plus in Hlt. exact Hlt.
Qed.

(** [x % m] for a positive [m]: strictly between [-m] and [m], and of the
    sign of [x]. *)
Lemma Qrem_bounds (x m : Q) :
  (0 < m)%Q ->
  ((0 <= x -> 0 <= Qrem x m /\ Qrem x m < m)
   /\ (x < 0 -> - m < Qrem x m /\ Qrem x m <= 0))%Q.
Proof.
  intro Hm. unfold Qrem.
  assert (Hx : (x == m * (x / m))%Q).
  { field. intro E. rewrite E in Hm. apply (Qlt_irrefl 0 Hm). }
  split; intro H.
  - assert (Hq : (0 <= x / m)%Q).
    { apply Qle_shift_div_l; [exact Hm|]. rewrite Qmult_0_l. exact H. }
    destruct (Qtrunc_nonneg _ Hq) as [H1 H2].
    set (z := inject_Z (Qtrunc (x / m))) in *.
    set (q := (x / m)%Q) in *.
    split; nra.
  - assert (Hq : (x / m < 0)%Q).
    { apply Qlt_shift_div_r; [exact Hm|]. rewrite Qmult_0_l. exact H. }
    destruct (Qtrunc_neg _ Hq) as [H1 H2].
    set (z := inject_Z (Qtrunc (x / m))) in *.
    set (q := (x / m)%Q) in *.
    split; nra.
Qed.

(** ** The loop combinator *)

Lemma bind_Ok_inv {A B : Type} (r : result A) (k : A -> result B) (b : B) :
  bind r k = Ok b -> exists a, r = Ok a /\ k a = Ok b.
Proof. destruct r; simpl; intro H; try discriminate. eauto. Qed.

Lemma bind_Throw_inv {A B : Type} (r : result A) (k : A -> result B) e :
  bind r k = Throw e ->
  r = Throw e \/ exists a, r = Ok a /\ k a = Throw e.
Proof.
  destruct r; simpl; intro H; try discriminate.
  - right. eauto.
  - left. congruence.
Qed.

(** More fuel never changes a loop that has finished. *)
Lemma while_fuel_mono cond body (n : nat) :
  forall d r m, while n cond body d = r -> r <> Pending -> (n <= m)%nat ->
                while m cond body d = r.
Proof.
  induction n as [|n IH]; intros d r m H Hr Hm; simpl in H.
  - congruence.
  - destruct m as [|m]; [lia|]. simpl.
    destruct (cond d) as [b|e|]; simpl in *; try exact H.
    destruct b; [|exact H].
    destruct (body d) as [d'|e|]; simpl in *; try exact H.
    apply IH; [exact H|exact Hr|lia].
Qed.

Lemma result_fuel_agree {A : Type} (f : nat -> result A) :
  (forall n m r, f n = r -> r <> Pending -> (n <= m)%nat -> f m = r) ->
  forall n m, f n <> Pending -> f m <> Pending -> f n = f m.
Proof.
  intros Hmono n m Hn Hm.
  destruct (Nat.le_ge_cases n m) as [H|H].
  - symmetry. apply (Hmono n m); auto.
  - apply (Hmono m n); auto.
Qed.

Lemma exits_at_unique P d step k1 k2 :
  exits_at P d step k1 -> exits_at P d step k2 -> k1 = k2.
Proof.
  intros [H1 G1] [H2 G2].
  destruct (Nat.lt_trichotomy k1 k2) as [L|[E|L]]; [|exact E|].
  - rewrite (G2 _ L) in H1. discriminate.
  - rewrite (G1 _ L) in H2. discriminate.
Qed.

Lemma exits_at_first P d step (k : nat) :
  P (d + Z.of_nat k * step) = false ->
  exists k0, (k0 <= k)%nat /\ exits_at P d step k0.
Proof.
  induction k as [k IH] using lt_wf_ind. intro Hk.
  destruct (Bool.bool_dec
              (forallb (fun j => P (d + Z.of_nat j * step)) (List.seq 0 k))
              true) as [Hall|Hsome].
  - exists k. split; [lia|]. split; [exact Hk|].
    intros j Hj. rewrite forallb_forall in Hall. apply Hall.
    apply List.in_seq. lia.
  - apply not_true_is_false in Hsome.
    assert (Hex : exists j, (j < k)%nat /\ P (d + Z.of_nat j * step) = false).
    { clear IH Hk. induction k as [|k IHk]; [discriminate|].
      rewrite List.seq_S, forallb_app in Hsome. simpl in Hsome.
      apply andb_false_iff in Hsome. destruct Hsome as [Hs|Hs].
      - destruct (IHk Hs) as [j [Hj Hp]]. exists j. split; [lia|exact Hp].
      - rewrite andb_true_r in Hs. exists k. split; [lia|exact Hs]. }
    destruct Hex as [j [Hj Hp]].
    destruct (IH j Hj Hp) as [k0 [Hk0 He]].
    exists k0. split; [lia|exact He].
Qed.

Section WhileFacts.

Variable cond : Instant -> result bool.
Variable body : Instant -> result Instant.
Variable P : Instant -> bool.
Variable step : Z.

Hypothesis cond_pure : forall d, cond d = Ok (P d).
Hypothesis body_step : forall d d', body d = Ok d' -> d' = d + step.

Lemma while_Ok_inv (fuel : nat) :
  forall d d', while fuel cond body d = Ok d' ->
  exists k, (k < fuel)%nat /\ exits_at P d step k
            /\ d' = d + Z.of_nat k * step
            /\ forall j, (j < k)%nat ->
                 body (d + Z.of_nat j * step)
                 = Ok (d + Z.of_nat (S j) * step).
Proof.
  induction fuel as [|fuel IH]; intros d d' H; simpl in H; [discriminate|].
  rewrite cond_pure in H. simpl in H.
  destruct (P d) eqn:Pd.
  - destruct (body d) as [d1| |] eqn:Bd; simpl in H; try discriminate.
    pose proof (body_step _ _ Bd) as ->.
    destruct (IH _ _ H) as [k [Hk [[Hex Hbefore] [Hd' Hbody]]]].
    exists (S k). split; [lia|]. split; [split|split].
    + replace (d + Z.of_nat (S k) * step) with (d + step + Z.of_nat k * step)
        by lia. exact Hex.
    + intros [|j] Hj.
      * replace (d + Z.of_nat 0 * step) with d by lia. exact Pd.
      * replace (d + Z.of_nat (S j) * step)
          with (d + step + Z.of_nat j * step) by lia.
        apply Hbefore. lia.
    + lia.
    + intros [|j] Hj.
      * replace (d + Z.of_nat 0 * step) with d by lia.
        replace (d + Z.of_nat 1 * step) with (d + step) by lia. exact Bd.
      * replace (d + Z.of_nat (S j) * step)
          with (d + step + Z.of_nat j * step) by lia.
        replace (d + Z.of_nat (S (S j)) * step)
          with (d + step + Z.of_nat (S j) * step) by lia.
        apply Hbody. lia.
  - inversion H; subst d'. exists O. split; [lia|]. split; [split|split].
    + replace (d + Z.of_nat 0 * step) with d by lia. exact Pd.
    + intros j Hj. lia.
    + lia.
    + intros j Hj. lia.
Qed.

Lemma while_Throw_inv (fuel : nat) :
  forall d e, while fuel cond body d = Throw e ->
  exists k, (k < fuel)%nat
            /\ (forall j, (j <= k)%nat -> P (d + Z.of_nat j * step) = true)
            /\ body (d + Z.of_nat k * step) = Throw e
            /\ forall j, (j < k)%nat ->
                 body (d + Z.of_nat j * step)
                 = Ok (d + Z.of_nat (S j) * step).
Proof.
  induction fuel as [|fuel IH]; intros d e H; simpl in H; [discriminate|].
  rewrite cond_pure in H. simpl in H.
  destruct (P d) eqn:Pd; [|discriminate].
  destruct (body d) as [d1|e1|] eqn:Bd; simpl in H; try discriminate.
  - pose proof (body_step _ _ Bd) as ->.
    destruct (IH _ _ H) as [k [Hk [Hall [Hthrow Hbody]]]].
    exists (S k). split; [lia|]. split; [|split].
    + intros [|j] Hj.
      * replace (d + Z.of_nat 0 * step) with d by lia. exact Pd.
      * replace (d + Z.of_nat (S j) * step)
          with (d + step + Z.of_nat j * step) by lia.
        apply Hall. lia.
    + replace (d + Z.of_nat (S k) * step)
        with (d + step + Z.of_nat k * step) by lia. exact Hthrow.
    + intros [|j] Hj.
      * replace (d + Z.of_nat 0 * step) with d by lia.
        replace (d + Z.of_nat 1 * step) with (d + step) by lia. exact Bd.
      * replace (d + Z.of_nat (S j) * step)
          with (d + step + Z.of_nat j * step) by lia.
        replace (d + Z.of_nat (S (S j)) * step)
          with (d + step + Z.of_nat (S j) * step) by lia.
        apply Hbody. lia.
  - inversion H; subst e1. exists O. split; [lia|]. split; [|split].
    + intros j Hj. replace j with O by lia.
      replace (d + Z.of_nat 0 * step) with d by lia. exact Pd.
    + replace (d + Z.of_nat 0 * step) with d by lia. exact Bd.
    + intros j Hj. lia.
Qed.

(** [k] iterations whose test holds and whose body steps use up [k] units
    of fuel. *)
Lemma while_unroll (k : nat) :
  forall d fuel,
  (forall j, (j < k)%nat ->
     P (d + Z.of_nat j * step) = true
     /\ body (d + Z.of_nat j * step) = Ok (d + Z.of_nat (S j) * step)) ->
  while (k + fuel) cond body d
  = while fuel cond body (d + Z.of_nat k * step).
Proof.
  induction k as [|k IH]; intros d fuel H.
  - simpl. f_equal. lia.
  - change (S k + fuel)%nat with (S (k + fuel)). cbn [while].
    destruct (H O ltac:(lia)) as [P0 B0].
    replace (d + Z.of_nat 0 * step) with d in * by lia.
    rewrite cond_pure, P0. cbn [bind]. rewrite B0. cbn [bind].
    rewrite IH.
    + f_equal. lia.
    + intros j Hj. destruct (H (S j) ltac:(lia)) as [Pj Bj].
      replace (d + Z.of_nat 1 * step + Z.of_nat j * step)
        with (d + Z.of_nat (S j) * step) by lia.
      replace (d + Z.of_nat 1 * step + Z.of_nat (S j) * step)
        with (d + Z.of_nat (S (S j)) * step) by lia.
      split; assumption.
Qed.

Lemma while_exit (k fuel : nat) (d : Instant) :
  exits_at P d step k ->
  (forall j, (j < k)%nat ->
     body (d + Z.of_nat j * step) = Ok (d + Z.of_nat (S j) * step)) ->
  (k < fuel)%nat ->
  while fuel cond body d = Ok (d + Z.of_nat k * step).
Proof.
  intros [Hex Hbefore] Hbody Hk.
  replace fuel with (k + S (fuel - S k))%nat by lia.
  rewrite while_unroll by (intros j Hj; split; auto).
  cbn [while]. rewrite cond_pure, Hex. reflexivity.
Qed.

Lemma while_raise (k fuel : nat) (d : Instant) e :
  (forall j, (j <= k)%nat -> P (d + Z.of_nat j * step) = true) ->
  (forall j, (j < k)%nat ->
     body (d + Z.of_nat j * step) = Ok (d + Z.of_nat (S j) * step)) ->
  body (d + Z.of_nat k * step) = Throw e ->
  (k < fuel)%nat ->
  while fuel cond body d = Throw e.
Proof.
  intros Hall Hbody Hthrow Hk.
  replace fuel with (k + S (fuel - S k))%nat by lia.
  rewrite while_unroll
    by (intros j Hj; split; [apply Hall; lia | apply Hbody; exact Hj]).
  cbn [while]. rewrite cond_pure, Hall by lia. cbn [bind].
  rewrite Hthrow. reflexivity.
Qed.

End WhileFacts.

(** ** What the four scans of a locator find

    [P] is the band test at an instant, [coarse] is [m] fine steps. *)

Section Scans.

Variable P : Instant -> bool.
Variables coarse fine : Z.
Variable m : nat.

Hypothesis fine_pos : 0 < fine.
Hypothesis m_pos : (0 < m)%nat.
Hypothesis coarse_fine : coarse = Z.of_nat m * fine.

Let notP (d : Instant) : bool := negb (P d).

Lemma exits_at_pos (Q : Instant -> bool) d step k :
  Q d = true -> exits_at Q d step k -> (0 < k)%nat.
Proof.
  intros Hd [Hk _]. destruct k; [|lia].
  replace (d + Z.of_nat 0 * step) with d in Hk by lia. congruence.
Qed.

Lemma start_inside_spec ref s :
  P ref = true -> start_inside P coarse fine ref s ->
  P s = true /\ P (s - fine) = false /\ s <= ref.
Proof.
  intros Href (kb & jf & [Hb _] & [Hf Hfb] & ->).
  set (s0 := ref + Z.of_nat kb * - coarse) in *.
  unfold notP in Hf, Hfb. apply negb_false_iff in Hf.
  destruct jf as [|jf].
  { exfalso. replace (s0 + Z.of_nat 0 * fine) with s0 in Hf by lia.
    congruence. }
  split; [exact Hf|]. split.
  - specialize (Hfb jf ltac:(lia)). apply negb_true_iff in Hfb.
    replace (s0 + Z.of_nat (S jf) * fine - fine)
      with (s0 + Z.of_nat jf * fine) by lia.
    exact Hfb.
  - destruct (Nat.le_gt_cases (S jf) (kb * m)) as [Hle|Hgt].
    + assert (H : Z.of_nat (S jf) <= Z.of_nat (kb * m)) by lia.
      rewrite Nat2Z.inj_mul in H. subst s0 coarse. nia.
    + exfalso. specialize (Hfb (kb * m)%nat Hgt). apply negb_true_iff in Hfb.
      replace (s0 + Z.of_nat (kb * m) * fine) with ref in Hfb
        by (subst s0 coarse; rewrite Nat2Z.inj_mul; lia).
      congruence.
Qed.

Lemma start_outside_spec ref s :
  P ref = false -> start_outside P coarse fine ref s ->
  P s = true /\ P (s - fine) = false /\ ref < s.
Proof.
  intros Href (ks & js & [Hs Hsb] & [Hj Hjb] & ->).
  unfold notP in Hs, Hsb. apply negb_false_iff in Hs.
  set (s0 := ref + Z.of_nat ks * coarse) in *.
  destruct ks as [|ks].
  { exfalso. subst s0.
    replace (ref + Z.of_nat 0 * coarse) with ref in Hs by lia. congruence. }
  assert (Hprev : P (s0 - coarse) = false).
  { specialize (Hsb ks ltac:(lia)). apply negb_true_iff in Hsb.
    replace (s0 - coarse) with (ref + Z.of_nat ks * coarse)
      by (subst s0; lia).
    exact Hsb. }
  split; [|split].
  - destruct js as [|js].
    + replace (s0 + Z.of_nat 0 * - fine) with s0 by lia. exact Hs.
    + specialize (Hjb js ltac:(lia)).
      replace (s0 + Z.of_nat (S js) * - fine)
        with (s0 + Z.of_nat js * - fine - fine) by lia.
      exact Hjb.
  - exact Hj.
  - destruct m as [|m']; [lia|].
    destruct (Nat.le_gt_cases (S m') js) as [Hle|Hgt].
    + exfalso. specialize (Hjb m' ltac:(lia)).
      replace (s0 + Z.of_nat m' * - fine - fine) with (s0 - coarse)
        in Hjb by (subst coarse; lia).
      congruence.
    + assert (H : ref <= s0 - coarse) by (subst s0; nia).
      assert (H' : Z.of_nat js <= Z.of_nat m') by lia.
      subst coarse. nia.
Qed.

Lemma end_refined_spec from e :
  P from = true -> end_refined P coarse fine from e ->
  P (e - fine) = true /\ P e = false /\ from < e.
Proof.
  intros Hfrom (kf & jb & [Hk Hkb] & [Hj Hjb] & ->).
  set (e0 := from + Z.of_nat kf * coarse) in *.
  unfold notP in Hj, Hjb. apply negb_false_iff in Hj.
  destruct jb as [|jb].
  { exfalso. replace (e0 + Z.of_nat 0 * - fine) with e0 in Hj by lia.
    congruence. }
  split; [|split].
  - replace (e0 + Z.of_nat (S jb) * - fine + fine - fine)
      with (e0 + Z.of_nat (S jb) * - fine) by lia.
    exact Hj.
  - specialize (Hjb jb ltac:(lia)). apply negb_true_iff in Hjb.
    replace (e0 + Z.of_nat (S jb) * - fine + fine)
      with (e0 + Z.of_nat jb * - fine) by lia.
    exact Hjb.
  - destruct (Nat.le_gt_cases (S jb) (kf * m)) as [Hle|Hgt].
    + assert (H : Z.of_nat (S jb) <= Z.of_nat (kf * m)) by lia.
      rewrite Nat2Z.inj_mul in H. subst e0 coarse. nia.
    + exfalso. specialize (Hjb (kf * m)%nat Hgt). apply negb_true_iff in Hjb.
      replace (e0 + Z.of_nat (kf * m) * - fine) with from in Hjb
        by (subst e0 coarse; rewrite Nat2Z.inj_mul; lia).
      congruence.
Qed.

Lemma end_coarse_spec from e :
  P from = true -> end_coarse P coarse from e ->
  P e = false /\ from < e
  /\ exists kf : nat, e = from + Z.of_nat kf * coarse
       /\ forall j, (j < kf)%nat -> P (from + Z.of_nat j * coarse) = true.
Proof.
  intros Hfrom (kf & [Hk Hkb] & ->).
  assert (Hkf : (0 < kf)%nat)
    by (eapply exits_at_pos; [exact Hfrom|split; eauto]).
  split; [exact Hk|]. split; [subst coarse; nia|].
  exists kf. split; [reflexivity|exact Hkb].
Qed.

(** The scans are functions of the reference instant. *)
Lemma start_inside_unique ref s1 s2 :
  start_inside P coarse fine ref s1 -> start_inside P coarse fine ref s2 -> s1 = s2.
Proof.
  intros (kb & jf & Hb & Hf & ->) (kb' & jf' & Hb' & Hf' & ->).
  pose proof (exits_at_unique _ _ _ _ _ Hb Hb'); subst kb'.
  pose proof (exits_at_unique _ _ _ _ _ Hf Hf'); subst jf'.
  reflexivity.
Qed.

Lemma start_outside_unique ref s1 s2 :
  start_outside P coarse fine ref s1 -> start_outside P coarse fine ref s2 -> s1 = s2.
Proof.
  intros (ks & js & Hs & Hj & ->) (ks' & js' & Hs' & Hj' & ->).
  pose proof (exits_at_unique _ _ _ _ _ Hs Hs'); subst ks'.
  pose proof (exits_at_unique _ _ _ _ _ Hj Hj'); subst js'.
  reflexivity.
Qed.

Lemma end_refined_unique from e1 e2 :
  end_refined P coarse fine from e1 -> end_refined P coarse fine from e2 -> e1 = e2.
Proof.
  intros (kf & jb & Hk & Hj & ->) (kf' & jb' & Hk' & Hj' & ->).
  pose proof (exits_at_unique _ _ _ _ _ Hk Hk'); subst kf'.
  pose proof (exits_at_unique _ _ _ _ _ Hj Hj'); subst jb'.
  reflexivity.
Qed.

End Scans.

(** Loops whose test is a pure band test and whose body steps the date. *)
Lemma scan_Ok_inv (P : Instant -> bool) (step : Z) fuel d d' :
  while fuel (fun d => Ok (P d)) (fun d => Ok (d + step)) d = Ok d' ->
  exists k, (k < fuel)%nat /\ exits_at P d step k
            /\ d' = d + Z.of_nat k * step.
Proof.
  intro H.
  assert (Hb : forall x y : Instant, Ok (x + step) = Ok y -> y = x + step)
    by (intros x y E; inversion E; reflexivity).
  destruct (while_Ok_inv (fun d => Ok (P d)) (fun d => Ok (d + step)) P step
              (fun _ => eq_refl) Hb _ _ _ H)
    as (k & Hk & He & Hd & _).
  eauto.
Qed.

Lemma scan_no_Throw (P : Instant -> bool) (step : Z) fuel d e :
  while fuel (fun d => Ok (P d)) (fun d => Ok (d + step)) d <> Throw e.
Proof.
  intro H.
  assert (Hb : forall x y : Instant, Ok (x + step) = Ok y -> y = x + step)
    by (intros x y E; inversion E; reflexivity).
  destruct (while_Throw_inv (fun d => Ok (P d)) (fun d => Ok (d + step))
              P step (fun _ => eq_refl) Hb _ _ _ H)
    as (k & _ & _ & Hthrow & _).
  discriminate.
Qed.

Lemma scan_exit (P : Instant -> bool) (step : Z) k fuel d :
  exits_at P d step k -> (k < fuel)%nat ->
  while fuel (fun d => Ok (P d)) (fun d => Ok (d + step)) d
  = Ok (d + Z.of_nat k * step).
Proof.
  intros He Hk.
  apply (while_exit (fun d => Ok (P d)) (fun d => Ok (d + step)) P step
           (fun _ => eq_refl)); auto.
  intros j Hj. f_equal. lia.
Qed.

(** The forward scan of Mode B with its 30 day guard. *)
Section GuardedScan.

Variable P : Instant -> bool.
Variables step limit : Z.
Variable cur : Instant.

Lemma guarded_Ok d d' :
  (guarded step limit cur) d = Ok d' <-> d' = d + step /\ d + step - cur <= limit.
Proof.
  unfold guarded. cbv zeta.
  destruct (Z.gtb_spec (d + step - cur) limit) as [G|G]; split.
  - discriminate.
  - intros [_ H]. lia.
  - intro H. inversion H. split; [reflexivity|lia].
  - intros [-> _]. reflexivity.
Qed.

Lemma guarded_Throw d e :
  (guarded step limit cur) d = Throw e <-> e = SearchExhausted /\ limit < d + step - cur.
Proof.
  unfold guarded. cbv zeta.
  destruct (Z.gtb_spec (d + step - cur) limit) as [G|G]; split.
  - intro H. inversion H. split; [reflexivity|lia].
  - intros [-> _]. reflexivity.
  - discriminate.
  - intros [_ H]. lia.
Qed.

Hypothesis step_pos : 0 < step.
Hypothesis limit_nonneg : 0 <= limit.

Lemma guarded_step x y : guarded step limit cur x = Ok y -> y = x + step.
Proof. intro E. apply guarded_Ok in E. tauto. Qed.

Lemma guarded_scan_Ok_inv fuel d' :
  while fuel (fun d => Ok (P d)) (guarded step limit cur) cur = Ok d' ->
  exists k, (k < fuel)%nat /\ exits_at P cur step k
            /\ Z.of_nat k * step <= limit
            /\ d' = cur + Z.of_nat k * step.
Proof.
  intro H.
  destruct (while_Ok_inv (fun d => Ok (P d)) (guarded step limit cur) P step
              (fun _ => eq_refl) guarded_step _ _ _ H)
    as (k & Hk & He & Hd & Hb).
  exists k. split; [exact Hk|]. split; [exact He|]. split; [|exact Hd].
  destruct k as [|k]; [lia|].
  specialize (Hb k ltac:(lia)). apply guarded_Ok in Hb. lia.
Qed.

Lemma guarded_scan_exit k fuel :
  exits_at P cur step k -> Z.of_nat k * step <= limit -> (k < fuel)%nat ->
  while fuel (fun d => Ok (P d)) (guarded step limit cur) cur = Ok (cur + Z.of_nat k * step).
Proof.
  intros He Hl Hk.
  apply (while_exit (fun d => Ok (P d)) (guarded step limit cur) P step (fun _ => eq_refl));
    auto.
  intros j Hj. apply guarded_Ok. split; nia.
Qed.

(** The guard fires at the first probe beyond the limit, and only if every
    probe up to the limit failed to leave the loop. *)
Lemma guarded_scan_Throw_inv fuel e :
  while fuel (fun d => Ok (P d)) (guarded step limit cur) cur = Throw e ->
  e = SearchExhausted
  /\ exists k, (k < fuel)%nat
       /\ Z.of_nat k * step <= limit < Z.of_nat (S k) * step
       /\ forall j, (j <= k)%nat -> P (cur + Z.of_nat j * step) = true.
Proof.
  intro H.
  destruct (while_Throw_inv (fun d => Ok (P d)) (guarded step limit cur) P step
              (fun _ => eq_refl) guarded_step _ _ _ H)
    as (k & Hk & Hall & Hthrow & Hb).
  apply guarded_Throw in Hthrow. destruct Hthrow as [-> Hgt].
  split; [reflexivity|]. exists k. split; [exact Hk|]. split; [|exact Hall].
  split; [|lia].
  destruct k as [|k]; [lia|].
  specialize (Hb k ltac:(lia)). apply guarded_Ok in Hb. lia.
Qed.

Lemma guarded_scan_raise k fuel :
  Z.of_nat k * step <= limit < Z.of_nat (S k) * step ->
  (forall j, (j <= k)%nat -> P (cur + Z.of_nat j * step) = true) ->
  (k < fuel)%nat ->
  while fuel (fun d => Ok (P d)) (guarded step limit cur) cur = Throw SearchExhausted.
Proof.
  intros Hl Hall Hk.
  apply (while_raise (fun d => Ok (P d)) (guarded step limit cur) P step (fun _ => eq_refl)
           k); auto.
  - intros j Hj. apply guarded_Ok. split; nia.
  - apply guarded_Throw. split; [reflexivity|lia].
Qed.

End GuardedScan.

(** ** Fuel *)

Lemma fuel_mono_while cond body d :
  fuel_mono (fun n => while n cond body d).
Proof. intros n m r H Hr Hm. eapply while_fuel_mono; eauto. Qed.

Lemma fuel_mono_const {A : Type} (r : result A) : fuel_mono (fun _ => r).
Proof. intros n m r' H _ _. exact H. Qed.

Lemma fuel_mono_bind {A B : Type} (g : nat -> result A)
    (h : nat -> A -> result B) :
  fuel_mono g -> (forall a, fuel_mono (fun n => h n a)) ->
  fuel_mono (fun n => bind (g n) (h n)).
Proof.
  intros Hg Hh n m r H Hr Hm.
  destruct (g n) as [a|e|] eqn:G; simpl in H.
  - rewrite (Hg n m (Ok a) G ltac:(discriminate) Hm). simpl.
    apply (Hh a n m r H Hr Hm).
  - rewrite (Hg n m (Throw e) G ltac:(discriminate) Hm). exact H.
  - congruence.
Qed.

(** ** The inline locator, scan by scan *)

Lemma inline_steps :
  Inline.coarseStep = 1800000 /\ Inline.fineStep = 60000
  /\ Inline.horizon = 2592000000
  /\ Inline.coarseStep = Z.of_nat 30 * Inline.fineStep
  /\ Inline.horizon = 1440 * Inline.coarseStep.
Proof. repeat split. Qed.

Lemma inline_locate_eq Math_sin Math_PI fuel ref :
  Inline.findCurrentOrNextSwathiPeriod Math_sin Math_PI fuel ref
  = inline_locator (inline_band Math_sin Math_PI) fuel ref.
Proof.
  unfold Inline.findCurrentOrNextSwathiPeriod, inline_locator, guarded.
  reflexivity.
Qed.

Section InlineLocator.

Variable P : Instant -> bool.

Lemma inline_locator_fuel_mono ref :
  fuel_mono (fun n => inline_locator P n ref).
Proof.
  unfold inline_locator.
  destruct (P ref).
  - repeat (apply fuel_mono_bind; [apply fuel_mono_while|intro]).
    apply fuel_mono_const.
  - repeat (apply fuel_mono_bind; [apply fuel_mono_while|intro]).
    apply fuel_mono_const.
Qed.

Lemma inline_locator_sound fuel ref p :
  inline_locator P fuel ref = Ok p -> inline_run P ref p.
Proof.
  unfold inline_locator, inline_run.
  destruct (P ref) eqn:Href; intro H.
  - apply bind_Ok_inv in H. destruct H as (s0 & H0 & H).
    apply bind_Ok_inv in H. destruct H as (s1 & H1 & H).
    apply bind_Ok_inv in H. destruct H as (e0 & H2 & H).
    apply bind_Ok_inv in H. destruct H as (e1 & H3 & H).
    inversion H; subst p; clear H. cbn [start end_].
    apply (scan_Ok_inv P (- Inline.coarseStep)) in H0.
    destruct H0 as (kb & _ & Hkb & ->).
    apply (scan_Ok_inv (fun d => negb (P d)) Inline.fineStep) in H1.
    destruct H1 as (jf & _ & Hjf & ->).
    apply (scan_Ok_inv P Inline.coarseStep) in H2.
    destruct H2 as (kf & _ & Hkf & ->).
    apply (scan_Ok_inv (fun d => negb (P d)) (- Inline.fineStep)) in H3.
    destruct H3 as (jb & _ & Hjb & ->).
    split.
    + exists kb, jf. auto.
    + exists kf, jb. auto.
  - apply bind_Ok_inv in H. destruct H as (s0 & H0 & H).
    apply bind_Ok_inv in H. destruct H as (s1 & H1 & H).
    apply bind_Ok_inv in H. destruct H as (e0 & H2 & H).
    apply bind_Ok_inv in H. destruct H as (e1 & H3 & H).
    inversion H; subst p; clear H. cbn [start end_].
    apply (guarded_scan_Ok_inv (fun d => negb (P d))
             Inline.coarseStep Inline.horizon ref) in H0;
      [|first [reflexivity|discriminate] ..].
    destruct H0 as (ks & _ & Hks & Hlim & ->).
    apply (scan_Ok_inv (fun d => P (d - Inline.fineStep))
             (- Inline.fineStep)) in H1.
    destruct H1 as (js & _ & Hjs & ->).
    apply (scan_Ok_inv P Inline.coarseStep) in H2.
    destruct H2 as (kf & _ & Hkf & ->).
    apply (scan_Ok_inv (fun d => negb (P d)) (- Inline.fineStep)) in H3.
    destruct H3 as (jb & _ & Hjb & ->).
    split; [|split].
    + exists ks. auto.
    + exists ks, js. auto.
    + exists kf, jb. auto.
Qed.

Lemma inline_locator_complete ref p :
  inline_run P ref p ->
  exists fuel0, forall fuel, (fuel0 <= fuel)%nat ->
                             inline_locator P fuel ref = Ok p.
Proof.
  unfold inline_locator, inline_run.
  change (fun d : Instant => Ok (d - Inline.coarseStep))
    with (fun d : Instant => Ok (d + - Inline.coarseStep)).
  change (fun d : Instant => Ok (d - Inline.fineStep))
    with (fun d : Instant => Ok (d + - Inline.fineStep)).
  destruct p as [s e]. cbn [start end_].
  destruct (P ref) eqn:Href.
  - intros [(kb & jf & Hkb & Hjf & ->) (kf & jb & Hkf & Hjb & ->)].
    exists (S (kb + jf + kf + jb)). intros fuel Hfuel.
    rewrite (scan_exit P (- Inline.coarseStep) kb fuel ref Hkb) by lia.
    cbn [bind].
    rewrite (scan_exit (fun d => negb (P d)) Inline.fineStep jf fuel _ Hjf)
      by lia.
    cbn [bind].
    rewrite (scan_exit P Inline.coarseStep kf fuel ref Hkf) by lia.
    cbn [bind].
    rewrite (scan_exit (fun d => negb (P d)) (- Inline.fineStep) jb fuel _
               Hjb) by lia.
    reflexivity.
  - intros [(ks0 & Hks0 & Hlim) [(ks & js & Hks & Hjs & ->)
                                   (kf & jb & Hkf & Hjb & ->)]].
    pose proof (exits_at_unique _ _ _ _ _ Hks0 Hks); subst ks0.
    exists (S (ks + js + kf + jb)). intros fuel Hfuel.
    rewrite (guarded_scan_exit (fun d => negb (P d)) Inline.coarseStep
               Inline.horizon ref eq_refl ks fuel Hks Hlim) by lia.
    cbn [bind].
    rewrite (scan_exit (fun d => P (d - Inline.fineStep))
               (- Inline.fineStep) js fuel _ Hjs) by lia.
    cbn [bind].
    rewrite (scan_exit P Inline.coarseStep kf fuel _ Hkf) by lia.
    cbn [bind].
    rewrite (scan_exit (fun d => negb (P d)) (- Inline.fineStep) jb fuel _
               Hjb) by lia.
    reflexivity.
Qed.

(** Rejections: only SearchExhausted, and only from the guarded scan. *)
Lemma inline_locator_Throw_inv fuel ref e :
  inline_locator P fuel ref = Throw e ->
  e = SearchExhausted /\ inline_exhausted P ref.
Proof.
  unfold inline_locator, inline_exhausted.
  destruct (P ref) eqn:Href; intro H.
  - exfalso.
    repeat (apply bind_Throw_inv in H;
            destruct H as [H|(? & _ & H)];
            [exact (scan_no_Throw _ _ _ _ _ H)|]).
    discriminate.
  - apply bind_Throw_inv in H. destruct H as [H|(? & _ & H)].
    + apply (guarded_scan_Throw_inv (fun d => negb (P d))
               Inline.coarseStep Inline.horizon ref) in H; [|discriminate].
      destruct H as [-> (k & _ & Hk & Hall)].
      split; [reflexivity|]. intros j Hj.
      assert (k = 1440%nat).
      { destruct inline_steps as (Hc & _ & Hh & _).
        rewrite Hc, Hh in Hk. lia. }
      subst k. specialize (Hall j Hj). apply negb_true_iff in Hall.
      exact Hall.
    + exfalso.
      repeat (apply bind_Throw_inv in H;
              destruct H as [H|(? & _ & H)];
              [exact (scan_no_Throw _ _ _ _ _ H)|]).
      discriminate.
Qed.

Lemma inline_locator_raise fuel ref :
  inline_exhausted P ref -> (1440 < fuel)%nat ->
  inline_locator P fuel ref = Throw SearchExhausted.
Proof.
  unfold inline_locator, inline_exhausted. intros Hall Hfuel.
  pose proof (Hall O ltac:(lia)) as H0.
  replace (ref + Z.of_nat 0 * Inline.coarseStep) with ref in H0 by lia.
  rewrite H0.
  rewrite (guarded_scan_raise (fun d => negb (P d)) Inline.coarseStep
             Inline.horizon ref eq_refl 1440 fuel);
    [reflexivity| | |exact Hfuel].
  - destruct inline_steps as (Hc & _ & Hh & _). rewrite Hc, Hh. lia.
  - intros j Hj. rewrite (Hall j Hj). reflexivity.
Qed.

End InlineLocator.

(** ** The calculator service, scan by scan *)

Lemma calculator_steps :
  Calculator.coarseStep = 3600000 /\ Calculator.fineStep = 60000
  /\ Calculator.coarseStep = Z.of_nat 60 * Calculator.fineStep.
Proof. repeat split. Qed.

Lemma while_ext cond cond' body body' :
  (forall d, cond d = cond' d) -> (forall d, body d = body' d) ->
  forall fuel d, while fuel cond body d = while fuel cond' body' d.
Proof.
  intros Hc Hb. induction fuel as [|fuel IH]; intro d; simpl.
  - reflexivity.
  - rewrite Hc, Hb. destruct (cond' d) as [[|]| |]; simpl; try reflexivity.
    destruct (body' d); simpl; auto.
Qed.

Section CalculatorHost.

Variable Math_PI : Q.
Variable window : Calculator.Window.

Lemma calculator_longitude_bare d :
  Calculator.SunCalc window = None ->
  Calculator.getLunarSiderealLongitude Math_PI window d
  = Throw SunCalcNotLoaded.
Proof.
  intro Hw. unfold Calculator.getLunarSiderealLongitude.
  rewrite Hw. reflexivity.
Qed.

Lemma calculator_longitude_loaded lib d :
  Calculator.SunCalc window = Some lib ->
  Calculator.getLunarSiderealLongitude Math_PI window d
  = Ok (calculator_longitude Math_PI lib d).
Proof.
  intro Hw. unfold Calculator.getLunarSiderealLongitude.
  rewrite Hw. reflexivity.
Qed.

Lemma calculator_longitude_settles d :
  Calculator.getLunarSiderealLongitude Math_PI window d <> Pending.
Proof.
  unfold Calculator.getLunarSiderealLongitude.
  destruct (Calculator.SunCalc window); discriminate.
Qed.

Lemma calculator_locate_bare fuel ref :
  Calculator.SunCalc window = None ->
  Calculator.findCurrentOrNextSwathiPeriod Math_PI window fuel ref
  = Throw SunCalcNotLoaded.
Proof.
  intro Hw. unfold Calculator.findCurrentOrNextSwathiPeriod. cbv zeta.
  rewrite (calculator_longitude_bare _ Hw). reflexivity.
Qed.

Lemma calculator_locate_eq lib fuel ref :
  Calculator.SunCalc window = Some lib ->
  Calculator.findCurrentOrNextSwathiPeriod Math_PI window fuel ref
  = calculator_locator (calculator_band Math_PI lib) fuel ref.
Proof.
  intro Hw.
  assert (Hin : forall d, Calculator.inSwathi Math_PI window d
                          = Ok (calculator_band Math_PI lib d)).
  { intro d. unfold Calculator.inSwathi.
    rewrite (calculator_longitude_loaded lib d Hw). reflexivity. }
  assert (Hout : forall d, Calculator.notInSwathi Math_PI window d
                           = Ok (negb (calculator_band Math_PI lib d))).
  { intro d. unfold Calculator.notInSwathi.
    rewrite (calculator_longitude_loaded lib d Hw). reflexivity. }
  unfold Calculator.findCurrentOrNextSwathiPeriod, calculator_locator.
  cbv zeta. rewrite (calculator_longitude_loaded lib ref Hw). cbn [bind].
  change (Calculator.isSwathi (calculator_longitude Math_PI lib ref))
    with (calculator_band Math_PI lib ref).
  destruct (calculator_band Math_PI lib ref).
  - rewrite (while_ext _ (fun d => Ok (calculator_band Math_PI lib d))
               _ _ Hin (fun _ => eq_refl) fuel ref).
    destruct (while fuel _ (fun d => Ok (d - Calculator.coarseStep)) ref)
      as [s0| |]; cbn [bind]; try reflexivity.
    rewrite (while_ext _ (fun d => Ok (negb (calculator_band Math_PI lib d)))
               _ _ Hout (fun _ => eq_refl) fuel s0).
    destruct (while fuel _ (fun d => Ok (d + Calculator.fineStep)) s0)
      as [s1| |]; cbn [bind]; try reflexivity.
    rewrite (while_ext _ (fun d => Ok (calculator_band Math_PI lib d))
               _ _ Hin (fun _ => eq_refl) fuel ref).
    destruct (while fuel _ (fun d => Ok (d + Calculator.coarseStep)) ref)
      as [e0| |]; cbn [bind]; try reflexivity.
    rewrite (while_ext _ (fun d => Ok (calculator_band Math_PI lib d))
               _ _ Hin (fun _ => eq_refl) fuel e0).
    reflexivity.
  - rewrite (while_ext _ (fun d => Ok (negb (calculator_band Math_PI lib d)))
               _ _ Hout (fun _ => eq_refl) fuel ref).
    destruct (while fuel _ (fun d => Ok (d + Calculator.coarseStep)) ref)
      as [s0| |]; cbn [bind]; try reflexivity.
    rewrite (while_ext
               (fun d => Calculator.inSwathi Math_PI window
                           (d - Calculator.fineStep))
               (fun d => Ok (calculator_band Math_PI lib
                               (d - Calculator.fineStep)))
               _ _ (fun d => Hin (d - Calculator.fineStep))
               (fun _ => eq_refl) fuel s0).
    destruct (while fuel _ (fun d => Ok (d - Calculator.fineStep)) s0)
      as [s1| |]; cbn [bind]; try reflexivity.
    rewrite (while_ext _ (fun d => Ok (calculator_band Math_PI lib d))
               _ _ Hin (fun _ => eq_refl) fuel s1).
    destruct (while fuel _ (fun d => Ok (d + Calculator.coarseStep)) s1)
      as [e0| |]; cbn [bind]; try reflexivity.
    rewrite (while_ext _ (fun d => Ok (calculator_band Math_PI lib d))
               _ _ Hin (fun _ => eq_refl) fuel e0).
    reflexivity.
Qed.

End CalculatorHost.

Section CalculatorLocator.

Variable P : Instant -> bool.

Lemma calculator_locator_fuel_mono ref :
  fuel_mono (fun n => calculator_locator P n ref).
Proof.
  unfold calculator_locator.
  destruct (P ref).
  - repeat (apply fuel_mono_bind; [apply fuel_mono_while|intro]).
    apply fuel_mono_const.
  - repeat (apply fuel_mono_bind; [apply fuel_mono_while|intro]).
    apply fuel_mono_const.
Qed.

(** The loop under the second "Refine to the minute" starts where its own
    test already fails: it never runs its body. *)
Lemma calculator_refine_end_idle fuel e0 e1 :
  P e0 = false ->
  while fuel (fun d => Ok (P d)) (fun d => Ok (d + Calculator.fineStep)) e0
  = Ok e1 ->
  e1 = e0.
Proof.
  intros He H. destruct fuel; simpl in H; [discriminate|].
  rewrite He in H. simpl in H. congruence.
Qed.

Lemma calculator_locator_sound fuel ref p :
  calculator_locator P fuel ref = Ok p -> calculator_run P ref p.
Proof.
  unfold calculator_locator, calculator_run.
  destruct (P ref) eqn:Href; intro H.
  - apply bind_Ok_inv in H. destruct H as (s0 & H0 & H).
    apply bind_Ok_inv in H. destruct H as (s1 & H1 & H).
    apply bind_Ok_inv in H. destruct H as (e0 & H2 & H).
    apply bind_Ok_inv in H. destruct H as (e1 & H3 & H).
    inversion H; subst p; clear H. cbn [start end_].
    apply (scan_Ok_inv P (- Calculator.coarseStep)) in H0.
    destruct H0 as (kb & _ & Hkb & ->).
    apply (scan_Ok_inv (fun d => negb (P d)) Calculator.fineStep) in H1.
    destruct H1 as (jf & _ & Hjf & ->).
    apply (scan_Ok_inv P Calculator.coarseStep) in H2.
    destruct H2 as (kf & _ & Hkf & ->).
    apply calculator_refine_end_idle in H3; [|apply Hkf]. subst e1.
    split.
    + exists kb, jf. auto.
    + exists kf. auto.
  - apply bind_Ok_inv in H. destruct H as (s0 & H0 & H).
    apply bind_Ok_inv in H. destruct H as (s1 & H1 & H).
    apply bind_Ok_inv in H. destruct H as (e0 & H2 & H).
    apply bind_Ok_inv in H. destruct H as (e1 & H3 & H).
    inversion H; subst p; clear H. cbn [start end_].
    apply (scan_Ok_inv (fun d => negb (P d)) Calculator.coarseStep) in H0.
    destruct H0 as (ks & _ & Hks & ->).
    apply (scan_Ok_inv (fun d => P (d - Calculator.fineStep))
             (- Calculator.fineStep)) in H1.
    destruct H1 as (js & _ & Hjs & ->).
    apply (scan_Ok_inv P Calculator.coarseStep) in H2.
    destruct H2 as (kf & _ & Hkf & ->).
    apply calculator_refine_end_idle in H3; [|apply Hkf]. subst e1.
    split.
    + exists ks, js. auto.
    + exists kf. auto.
Qed.

Lemma calculator_locator_complete ref p :
  calculator_run P ref p ->
  exists fuel0, forall fuel, (fuel0 <= fuel)%nat ->
                             calculator_locator P fuel ref = Ok p.
Proof.
  unfold calculator_locator, calculator_run.
  change (fun d : Instant => Ok (d - Calculator.coarseStep))
    with (fun d : Instant => Ok (d + - Calculator.coarseStep)).
  change (fun d : Instant => Ok (d - Calculator.fineStep))
    with (fun d : Instant => Ok (d + - Calculator.fineStep)).
  destruct p as [s e]. cbn [start end_].
  assert (Hidle : forall e0 fuel, P e0 = false -> (0 < fuel)%nat ->
            while fuel (fun d => Ok (P d))
              (fun d => Ok (d + Calculator.fineStep)) e0 = Ok e0).
  { intros e0 [|fuel] He Hf; [lia|]. simpl. rewrite He. reflexivity. }
  destruct (P ref) eqn:Href.
  - intros [(kb & jf & Hkb & Hjf & ->) (kf & Hkf & ->)].
    exists (S (kb + jf + kf)). intros fuel Hfuel.
    rewrite (scan_exit P (- Calculator.coarseStep) kb fuel ref Hkb) by lia.
    cbn [bind].
    rewrite (scan_exit (fun d => negb (P d)) Calculator.fineStep jf fuel _
               Hjf) by lia.
    cbn [bind].
    rewrite (scan_exit P Calculator.coarseStep kf fuel ref Hkf) by lia.
    cbn [bind].
    rewrite Hidle; [reflexivity|apply Hkf|lia].
  - intros [(ks & js & Hks & Hjs & ->) (kf & Hkf & ->)].
    exists (S (ks + js + kf)). intros fuel Hfuel.
    rewrite (scan_exit (fun d => negb (P d)) Calculator.coarseStep ks fuel
               ref Hks) by lia.
    cbn [bind].
    rewrite (scan_exit (fun d => P (d - Calculator.fineStep))
               (- Calculator.fineStep) js fuel _ Hjs) by lia.
    cbn [bind].
    rewrite (scan_exit P Calculator.coarseStep kf fuel _ Hkf) by lia.
    cbn [bind].
    rewrite Hidle; [reflexivity|apply Hkf|lia].
Qed.

Lemma calculator_locator_no_Throw fuel ref e :
  calculator_locator P fuel ref <> Throw e.
Proof.
  unfold calculator_locator. intro H.
  destruct (P ref).
  - repeat (apply bind_Throw_inv in H;
            destruct H as [H|(? & _ & H)];
            [exact (scan_no_Throw _ _ _ _ _ H)|]).
    discriminate.
  - repeat (apply bind_Throw_inv in H;
            destruct H as [H|(? & _ & H)];
            [exact (scan_no_Throw _ _ _ _ _ H)|]).
    discriminate.
Qed.

End CalculatorLocator.

(** The scan lemmas at the step sizes of the two files. *)
Lemma thirty_pos : (0 < 30)%nat. Proof. lia. Qed.
Lemma sixty_pos : (0 < 60)%nat. Proof. lia. Qed.

Lemma inline_start_inside P ref s :
  P ref = true ->
  start_inside P Inline.coarseStep Inline.fineStep ref s ->
  P s = true /\ P (s - Inline.fineStep) = false /\ s <= ref.
Proof.
  exact (start_inside_spec P Inline.coarseStep Inline.fineStep 30
           eq_refl thirty_pos eq_refl ref s).
Qed.

Lemma inline_start_outside P ref s :
  P ref = false ->
  start_outside P Inline.coarseStep Inline.fineStep ref s ->
  P s = true /\ P (s - Inline.fineStep) = false /\ ref < s.
Proof.
  exact (start_outside_spec P Inline.coarseStep Inline.fineStep 30
           eq_refl thirty_pos eq_refl ref s).
Qed.

Lemma inline_end_refined P from e :
  P from = true ->
  end_refined P Inline.coarseStep Inline.fineStep from e ->
  P (e - Inline.fineStep) = true /\ P e = false /\ from < e.
Proof.
  exact (end_refined_spec P Inline.coarseStep Inline.fineStep 30
           eq_refl thirty_pos eq_refl from e).
Qed.

Lemma calculator_start_inside P ref s :
  P ref = true ->
  start_inside P Calculator.coarseStep Calculator.fineStep ref s ->
  P s = true /\ P (s - Calculator.fineStep) = false /\ s <= ref.
Proof.
  exact (start_inside_spec P Calculator.coarseStep Calculator.fineStep 60
           eq_refl sixty_pos eq_refl ref s).
Qed.

Lemma calculator_start_outside P ref s :
  P ref = false ->
  start_outside P Calculator.coarseStep Calculator.fineStep ref s ->
  P s = true /\ P (s - Calculator.fineStep) = false /\ ref < s.
Proof.
  exact (start_outside_spec P Calculator.coarseStep Calculator.fineStep 60
           eq_refl sixty_pos eq_refl ref s).
Qed.

Lemma calculator_end_coarse P from e :
  P from = true ->
  end_coarse P Calculator.coarseStep from e ->
  P e = false /\ from < e
  /\ exists kf : nat,
       e = from + Z.of_nat kf * Calculator.coarseStep
       /\ forall j, (j < kf)%nat ->
            P (from + Z.of_nat j * Calculator.coarseStep) = true.
Proof.
  exact (end_coarse_spec P Calculator.coarseStep Calculator.fineStep 60
           eq_refl sixty_pos eq_refl from e).
Qed.

(** ** Returned periods *)

(** What a run of the inline locator returns, over any band test. *)
Lemma inline_run_spec P ref p :
  inline_run P ref p ->
  P (start p) = true /\ P (start p - 60000) = false
  /\ P (end_ p - 60000) = true /\ P (end_ p) = false
  /\ start p < end_ p
  /\ (if P ref then start p <= ref < end_ p else ref < start p).
Proof.
  unfold inline_run. destruct (P ref) eqn:Href.
  - intros [Hs He].
    destruct (inline_start_inside _ _ _ Href Hs) as (S1 & S2 & S3).
    destruct (inline_end_refined _ _ _ Href He) as (E1 & E2 & E3).
    change Inline.fineStep with 60000 in *.
    repeat split; auto; lia.
  - intros (_ & Hs & He).
    destruct (inline_start_outside _ _ _ Href Hs) as (S1 & S2 & S3).
    destruct (inline_end_refined _ _ _ S1 He) as (E1 & E2 & E3).
    change Inline.fineStep with 60000 in *.
    repeat split; auto; lia.
Qed.

(** What a run of the service returns, over any band test. *)
Lemma calculator_run_spec P ref p :
  calculator_run P ref p ->
  P (start p) = true /\ P (start p - 60000) = false
  /\ P (end_ p) = false
  /\ start p < end_ p
  /\ (if P ref then start p <= ref < end_ p else ref < start p)
  /\ exists kf : nat,
       end_ p = (if P ref then ref else start p)
                + Z.of_nat kf * Calculator.coarseStep
       /\ forall j, (j < kf)%nat ->
            P ((if P ref then ref else start p)
               + Z.of_nat j * Calculator.coarseStep) = true.
Proof.
  unfold calculator_run. destruct (P ref) eqn:Href.
  - intros [Hs He].
    destruct (calculator_start_inside _ _ _ Href Hs) as (S1 & S2 & S3).
    destruct (calculator_end_coarse _ _ _ Href He) as (E1 & E2 & E3).
    change Calculator.fineStep with 60000 in *.
    repeat split; auto; lia.
  - intros (Hs & He).
    destruct (calculator_start_outside _ _ _ Href Hs) as (S1 & S2 & S3).
    destruct (calculator_end_coarse _ _ _ S1 He) as (E1 & E2 & E3).
    change Calculator.fineStep with 60000 in *.
    repeat split; auto; lia.
Qed.

Lemma inline_run_unique P ref p1 p2 :
  inline_run P ref p1 -> inline_run P ref p2 -> p1 = p2.
Proof.
  unfold inline_run. destruct p1 as [s1 e1], p2 as [s2 e2]. cbn [start end_].
  destruct (P ref).
  - intros [Hs1 He1] [Hs2 He2].
    rewrite (start_inside_unique _ _ _ _ _ _ Hs1 Hs2).
    rewrite (end_refined_unique _ _ _ _ _ _ He1 He2). reflexivity.
  - intros (_ & Hs1 & He1) (_ & Hs2 & He2).
    pose proof (start_outside_unique _ _ _ _ _ _ Hs1 Hs2). subst s2.
    rewrite (end_refined_unique _ _ _ _ _ _ He1 He2). reflexivity.
Qed.

Section InlinePeriods.

Variable Math_sin : Q -> Q.
Variable Math_PI : Q.

Lemma inline_locate_run fuel ref p :
  Inline.findCurrentOrNextSwathiPeriod Math_sin Math_PI fuel ref = Ok p ->
  inline_run (inline_band Math_sin Math_PI) ref p.
Proof.
  rewrite inline_locate_eq. apply inline_locator_sound.
Qed.

Lemma inline_locate_spec fuel ref p :
  Inline.findCurrentOrNextSwathiPeriod Math_sin Math_PI fuel ref = Ok p ->
  let lon := Inline.getMoonSiderealLongitude Math_sin Math_PI in
  Inline.isSwathi (lon (start p)) = true
  /\ Inline.isSwathi (lon (start p - 60000)) = false
  /\ Inline.isSwathi (lon (end_ p - 60000)) = true
  /\ Inline.isSwathi (lon (end_ p)) = false
  /\ start p < end_ p
  /\ (if Inline.isSwathi (lon ref) then start p <= ref < end_ p
      else ref < start p).
Proof.
  intro H. apply inline_locate_run in H.
  exact (inline_run_spec _ _ _ H).
Qed.

Lemma inline_locate_fuel_mono ref :
  fuel_mono
    (fun n => Inline.findCurrentOrNextSwathiPeriod Math_sin Math_PI n ref).
Proof.
  intros n m r H Hr Hm.
  rewrite inline_locate_eq in H. rewrite inline_locate_eq.
  exact (inline_locator_fuel_mono _ ref n m r H Hr Hm).
Qed.

End InlinePeriods.

Section CalculatorPeriods.

Variable Math_PI : Q.
Variable window : Calculator.Window.

Lemma calculator_locate_run fuel ref p :
  Calculator.findCurrentOrNextSwathiPeriod Math_PI window fuel ref = Ok p ->
  exists lib, Calculator.SunCalc window = Some lib
              /\ calculator_run (calculator_band Math_PI lib) ref p.
Proof.
  intro H. destruct (Calculator.SunCalc window) as [lib|] eqn:Hw.
  - exists lib. split; [reflexivity|].
    rewrite (calculator_locate_eq _ _ lib _ _ Hw) in H.
    eapply calculator_locator_sound; eauto.
  - rewrite (calculator_locate_bare _ _ _ _ Hw) in H. discriminate.
Qed.

Lemma calculator_locate_fuel_mono ref :
  fuel_mono
    (fun n => Calculator.findCurrentOrNextSwathiPeriod Math_PI window n ref).
Proof.
  intros n m r H Hr Hm.
  destruct (Calculator.SunCalc window) as [lib|] eqn:Hw.
  - rewrite (calculator_locate_eq _ _ lib n _ Hw) in H.
    rewrite (calculator_locate_eq _ _ lib m _ Hw).
    exact (calculator_locator_fuel_mono _ ref n m r H Hr Hm).
  - rewrite (calculator_locate_bare _ _ n _ Hw) in H.
    rewrite (calculator_locate_bare _ _ m _ Hw). exact H.
Qed.

(** The band test of the service at an instant, as the code computes it. *)
Lemma calculator_band_test lib d :
  Calculator.SunCalc window = Some lib ->
  exists l, Calculator.getLunarSiderealLongitude Math_PI window d = Ok l
            /\ Calculator.isSwathi l = calculator_band Math_PI lib d.
Proof.
  intro Hw. exists (calculator_longitude Math_PI lib d).
  split; [apply calculator_longitude_loaded; exact Hw|reflexivity].
Qed.

End CalculatorPeriods.

(** ** Normalisation of the sidereal longitude *)

Lemma inline_longitude_eq Math_sin Math_PI t :
  Inline.getMoonSiderealLongitude Math_sin Math_PI t
  = inline_normalise (Inline.eclipticLongitude Math_sin Math_PI t)
      (getLahiriAyanamsha t).
Proof.
  unfold Inline.getMoonSiderealLongitude, inline_normalise. reflexivity.
Qed.

(** After [% 360] and the first correction the tropical longitude is in
    [0, 360), and differs from [x] by a multiple of 360. *)
Lemma tropical_normalised (x : Q) :
  let y := if Qlt_bool (Qrem x 360) 0 then (Qrem x 360 + 360)%Q
           else Qrem x 360 in
  (0 <= y /\ y < 360)%Q /\ exists n : Z, (y == x + 360 * inject_Z n)%Q.
Proof.
  cbv zeta.
  destruct (Qrem_bounds x 360 ltac:(reflexivity)) as [Hpos Hneg].
  destruct (Qlt_bool (Qrem x 360) 0) eqn:E.
  - apply Qlt_bool_true in E.
    assert (Hx : (x < 0)%Q).
    { apply Qnot_le_lt. intro Hx. destruct (Hpos Hx) as [H0 _].
      apply (Qlt_not_le _ _ E H0). }
    destruct (Hneg Hx) as [H1 H2]. split; [split; lra|].
    exists (1 - Qtrunc (x / 360))%Z. unfold Qrem.
    unfold Z.sub. rewrite inject_Z_plus, inject_Z_opp. ring.
  - apply Qlt_bool_false in E.
    assert (Hr : (Qrem x 360 < 360)%Q).
    { destruct (Qlt_le_dec x 0) as [Hx|Hx].
      - destruct (Hneg Hx) as [_ H0]. lra.
      - destruct (Hpos Hx) as [_ H0]. exact H0. }
    split; [split; lra|].
    exists (- Qtrunc (x / 360))%Z. unfold Qrem.
    rewrite inject_Z_opp. ring.
Qed.

Lemma inline_normalise_cong (x ay : Q) :
  exists n : Z, (inline_normalise x ay == x - ay + 360 * inject_Z n)%Q.
Proof.
  unfold inline_normalise. cbv zeta.
  destruct (tropical_normalised x) as [_ [n Hn]]. cbv zeta in Hn.
  set (y := if Qlt_bool (Qrem x 360) 0 then (Qrem x 360 + 360)%Q
            else Qrem x 360) in *.
  destruct (Qlt_bool (y - ay) 0);
    [destruct (Qge_bool (y - ay + 360) 360)|destruct (Qge_bool (y - ay) 360)].
  - exists n. rewrite Hn. ring.
  - exists (n + 1)%Z. rewrite Hn, inject_Z_plus. ring.
  - exists (n - 1)%Z. rewrite Hn. unfold Z.sub.
    rewrite inject_Z_plus, inject_Z_opp. ring.
  - exists n. rewrite Hn. ring.
Qed.

(** Two conditional corrections are enough while the ayanamsha stays
    within a turn. *)
Lemma inline_normalise_range (x ay : Q) :
  (- 360 < ay)%Q -> (ay <= 360)%Q ->
  (0 <= inline_normalise x ay /\ inline_normalise x ay < 360)%Q.
Proof.
  intros Hlo Hhi. unfold inline_normalise. cbv zeta.
  destruct (tropical_normalised x) as [[Y0 Y1] _]. cbv zeta in Y0, Y1.
  set (y := if Qlt_bool (Qrem x 360) 0 then (Qrem x 360 + 360)%Q
            else Qrem x 360) in *.
  destruct (Qlt_bool (y - ay) 0) eqn:E1.
  - apply Qlt_bool_true in E1.
    destruct (Qge_bool (y - ay + 360) 360) eqn:E2.
    + apply Qge_bool_true in E2. lra.
    + apply Qge_bool_false in E2. lra.
  - apply Qlt_bool_false in E1.
    destruct (Qge_bool (y - ay) 360) eqn:E2.
    + apply Qge_bool_true in E2. lra.
    + apply Qge_bool_false in E2. lra.
Qed.

(** Beyond two turns of ayanamsha the result is negative. *)
Lemma inline_normalise_far (x ay : Q) :
  (720 <= ay)%Q -> (inline_normalise x ay < 0)%Q.
Proof.
  intros Hay. unfold inline_normalise. cbv zeta.
  destruct (tropical_normalised x) as [[Y0 Y1] _]. cbv zeta in Y0, Y1.
  set (y := if Qlt_bool (Qrem x 360) 0 then (Qrem x 360 + 360)%Q
            else Qrem x 360) in *.
  destruct (Qlt_bool (y - ay) 0) eqn:E1.
  - apply Qlt_bool_true in E1.
    destruct (Qge_bool (y - ay + 360) 360) eqn:E2.
    + apply Qge_bool_true in E2. lra.
    + lra.
  - apply Qlt_bool_false in E1. lra.
Qed.

(** The three cases of the two conditional corrections. *)
Lemma inline_normalise_cases (x ay : Q) :
  exists n c : Z,
    (0 <= x + 360 * inject_Z n /\ x + 360 * inject_Z n < 360
     /\ inline_normalise x ay == x + 360 * inject_Z n - ay + 360 * inject_Z c
     /\ ((c = 1%Z /\ x + 360 * inject_Z n - ay < 0)
         \/ (c = 0%Z /\ 0 <= x + 360 * inject_Z n - ay
             /\ x + 360 * inject_Z n - ay < 360)
         \/ (c = (-1)%Z /\ 360 <= x + 360 * inject_Z n - ay)))%Q.
Proof.
  unfold inline_normalise. cbv zeta.
  destruct (tropical_normalised x) as [[Y0 Y1] [n Hn]]. cbv zeta in Y0, Y1, Hn.
  set (y := if Qlt_bool (Qrem x 360) 0 then (Qrem x 360 + 360)%Q
            else Qrem x 360) in *.
  clearbody y.
  exists n.
  destruct (Qlt_bool (y - ay) 0) eqn:E1.
  - apply Qlt_bool_true in E1.
    destruct (Qge_bool (y - ay + 360) 360) eqn:E2.
    + apply Qge_bool_true in E2. exfalso. lra.
    + exists 1. rewrite <- Hn.
      split; [lra|]. split; [lra|]. split; [ring|].
      left. split; [reflexivity|lra].
  - apply Qlt_bool_false in E1.
    destruct (Qge_bool (y - ay) 360) eqn:E2.
    + apply Qge_bool_true in E2. exists (-1). rewrite <- Hn.
      split; [lra|]. split; [lra|]. split; [ring|].
      right. right. split; [reflexivity|lra].
    + apply Qge_bool_false in E2. exists 0. rewrite <- Hn.
      split; [lra|]. split; [lra|]. split; [ring|].
      right. left. split; [reflexivity|lra].
Qed.

(** The number of whole turns taken off by [% 360] changes by at most one
    over an increase of less than a degree. *)
Lemma wrap_count (x1 x2 d : Q) (n1 n2 : Z) :
  (0 <= x1 -> x1 < 360 -> 0 <= x2 -> x2 < 360 -> 0 <= d -> d < 1 ->
   x2 - x1 == d + 360 * (inject_Z n2 - inject_Z n1) ->
   n2 = n1 \/ n2 = (n1 - 1)%Z)%Q.
Proof.
  intros A0 A1 B0 B1 D0 D1 E.
  destruct (Z_lt_le_dec n1 n2) as [C|C].
  - exfalso.
    assert (Hc : (inject_Z n1 + 1 <= inject_Z n2)%Q).
    { change 1%Q with (inject_Z 1). rewrite <- inject_Z_plus, <- Zle_Qle.
      lia. }
    lra.
  - destruct (Z_lt_le_dec n2 (n1 - 1)) as [C'|C'].
    + exfalso.
      assert (Hc : (inject_Z n2 + 2 <= inject_Z n1)%Q).
      { change 2%Q with (inject_Z 2). rewrite <- inject_Z_plus, <- Zle_Qle.
        lia. }
      lra.
    + lia.
Qed.

Lemma calculator_longitude_range Math_PI lib t :
  (0 <= getLahiriAyanamsha t)%Q -> (getLahiriAyanamsha t <= 360)%Q ->
  (0 <= Calculator.eclipticLon (Calculator.getMoonPosition lib t)
        * (180 / Math_PI))%Q ->
  (Calculator.eclipticLon (Calculator.getMoonPosition lib t)
   * (180 / Math_PI) < 360)%Q ->
  (0 <= calculator_longitude Math_PI lib t
   /\ calculator_longitude Math_PI lib t < 360)%Q.
Proof.
  intros A0 A1 T0 T1. unfold calculator_longitude. cbv zeta.
  set (y := (Calculator.eclipticLon (Calculator.getMoonPosition lib t)
             * (180 / Math_PI))%Q) in *.
  set (ay := getLahiriAyanamsha t) in *.
  destruct (Qlt_bool (y - ay) 0) eqn:E.
  - apply Qlt_bool_true in E. lra.
  - apply Qlt_bool_false in E. lra.
Qed.

(** ** The band test *)

Lemma isSwathi_bounds :
  (Inline.SWATHI_START_DEGREES == 14 * (360 / 27)
   /\ Inline.SWATHI_END_DEGREES == 15 * (360 / 27)
   /\ Calculator.SWATHI_START_DEGREES_TROPICAL == 14 * (360 / 27)
   /\ Calculator.SWATHI_END_DEGREES_TROPICAL == 15 * (360 / 27))%Q.
Proof. repeat split. Qed.

Lemma band_bounds :
  (Inline.SWATHI_START_DEGREES == 560 # 3
   /\ Inline.SWATHI_END_DEGREES == 200)%Q.
Proof. split; reflexivity. Qed.

Lemma inline_isSwathi_true (l : Q) :
  Inline.isSwathi l = true <-> ((560 # 3) <= l /\ l < 200)%Q.
Proof.
  unfold Inline.isSwathi. rewrite andb_true_iff, Qge_bool_true, Qlt_bool_true.
  destruct band_bounds as (Hs & He). rewrite Hs, He. reflexivity.
Qed.

Lemma inline_isSwathi_false (l : Q) :
  Inline.isSwathi l = false <-> (l < (560 # 3) \/ 200 <= l)%Q.
Proof.
  unfold Inline.isSwathi.
  rewrite andb_false_iff, Qge_bool_false, Qlt_bool_false.
  destruct band_bounds as (Hs & He). rewrite Hs, He. reflexivity.
Qed.

Lemma calculator_isSwathi_eq (l : Q) :
  Calculator.isSwathi l = Inline.isSwathi l.
Proof. reflexivity. Qed.

(** Past 533 degrees and a third of ayanamsha no longitude is in the band:
    the single correction that applies leaves it below the lower end. *)
Lemma inline_band_vanishes Math_sin Math_PI (t : Instant) :
  ((1600 # 3) <= getLahiriAyanamsha t)%Q ->
  Inline.isSwathi (Inline.getMoonSiderealLongitude Math_sin Math_PI t)
  = false.
Proof.
  intro Hay. apply inline_isSwathi_false. left.
  rewrite inline_longitude_eq.
  destruct (inline_normalise_cases
              (Inline.eclipticLongitude Math_sin Math_PI t)
              (getLahiriAyanamsha t)) as (n & c & X0 & X1 & E & C).
  rewrite E.
  destruct C as [[-> C]|[[-> C]|[-> C]]].
  - change (inject_Z 1) with 1%Q. lra.
  - exfalso. lra.
  - exfalso. lra.
Qed.

(** ** Equal numbers, equal results *)

Lemma Qlt_bool_comp (x x' y : Q) : (x == x')%Q -> Qlt_bool x y = Qlt_bool x' y.
Proof. intro E. unfold Qlt_bool. rewrite E. reflexivity. Qed.

Lemma Qge_bool_comp (x x' y : Q) : (x == x')%Q -> Qge_bool x y = Qge_bool x' y.
Proof. intro E. unfold Qge_bool. rewrite E. reflexivity. Qed.

Lemma Qtrunc_comp (x x' : Q) : (x == x')%Q -> Qtrunc x = Qtrunc x'.
Proof.
  intro E. unfold Qtrunc.
  rewrite (Qfloor_comp _ _ E), (Qceiling_comp _ _ E), E. reflexivity.
Qed.

Lemma Qrem_comp (x x' m : Q) : (x == x')%Q -> (Qrem x m == Qrem x' m)%Q.
Proof.
  intro E. unfold Qrem.
  rewrite (Qtrunc_comp (x / m) (x' / m)) by (rewrite E; reflexivity).
  rewrite E. reflexivity.
Qed.

Lemma isSwathi_comp (l l' : Q) :
  (l == l')%Q -> Inline.isSwathi l = Inline.isSwathi l'.
Proof.
  intro E. unfold Inline.isSwathi.
  rewrite (Qge_bool_comp l l' _ E), (Qlt_bool_comp l l' _ E). reflexivity.
Qed.

Lemma inline_normalise_comp (x x' ay ay' : Q) :
  (x == x')%Q -> (ay == ay')%Q ->
  (inline_normalise x ay == inline_normalise x' ay')%Q.
Proof.
  intros Ex Ea. unfold inline_normalise. cbv zeta.
  pose proof (Qrem_comp x x' 360 Ex) as Er.
  set (r := Qrem x 360) in *. set (r' := Qrem x' 360) in *.
  clearbody r r'.
  rewrite (Qlt_bool_comp r r' 0 Er).
  set (y := if Qlt_bool r' 0 then (r + 360)%Q else r).
  set (y' := if Qlt_bool r' 0 then (r' + 360)%Q else r').
  assert (Ey : (y == y')%Q).
  { unfold y, y'. destruct (Qlt_bool r' 0); rewrite Er; reflexivity. }
  clearbody y y'.
  assert (Es : (y - ay == y' - ay')%Q) by (rewrite Ey, Ea; reflexivity).
  set (s := (y - ay)%Q) in *. set (s' := (y' - ay')%Q) in *.
  clearbody s s'.
  rewrite (Qlt_bool_comp s s' 0 Es).
  set (u := if Qlt_bool s' 0 then (s + 360)%Q else s).
  set (u' := if Qlt_bool s' 0 then (s' + 360)%Q else s').
  assert (Eu : (u == u')%Q).
  { unfold u, u'. destruct (Qlt_bool s' 0); rewrite Es; reflexivity. }
  clearbody u u'.
  rewrite (Qge_bool_comp u u' 360 Eu).
  destruct (Qge_bool u' 360); rewrite Eu; reflexivity.
Qed.

Lemma Lp_comp (T T' : Q) : (T == T')%Q -> (Inline.Lp T == Inline.Lp T')%Q.
Proof. intro E. unfold Inline.Lp. rewrite E. reflexivity. Qed.

(** With the sine switched off the series is its mean longitude. *)
Lemma meanLongitude_eq (Math_PI : Q) (t : Instant) :
  (Inline.getMoonSiderealLongitude noSine Math_PI t == meanLongitude t)%Q.
Proof.
  rewrite inline_longitude_eq. unfold meanLongitude.
  apply inline_normalise_comp.
  - rewrite Qred_correct.
    rewrite (Lp_comp _ _ (Qred_correct (Inline.julianCenturies t))).
    unfold Inline.eclipticLongitude, Inline.sigmaL, noSine. cbv zeta.
    field.
  - rewrite Qred_correct. reflexivity.
Qed.

Lemma meanBand_eq (Math_PI : Q) (t : Instant) :
  Inline.isSwathi (Inline.getMoonSiderealLongitude noSine Math_PI t)
  = meanBand t.
Proof. apply isSwathi_comp. apply meanLongitude_eq. Qed.

Lemma inline_locator_ext (P P' : Instant -> bool) :
  (forall d, P d = P' d) ->
  forall fuel ref, inline_locator P fuel ref = inline_locator P' fuel ref.
Proof.
  intros E fuel ref. unfold inline_locator. rewrite (E ref).
  destruct (P' ref).
  - rewrite (while_ext (fun d => Ok (P d)) (fun d => Ok (P' d))
               (fun d => Ok (d - Inline.coarseStep))
               (fun d => Ok (d - Inline.coarseStep)))
      by (intro d; rewrite ?E; reflexivity).
    destruct (while fuel _ _ ref) as [s0| |]; cbn [bind]; try reflexivity.
    rewrite (while_ext (fun d => Ok (negb (P d))) (fun d => Ok (negb (P' d)))
               (fun d => Ok (d + Inline.fineStep))
               (fun d => Ok (d + Inline.fineStep)))
      by (intro d; rewrite ?E; reflexivity).
    destruct (while fuel _ _ s0) as [s| |]; cbn [bind]; try reflexivity.
    rewrite (while_ext (fun d => Ok (P d)) (fun d => Ok (P' d))
               (fun d => Ok (d + Inline.coarseStep))
               (fun d => Ok (d + Inline.coarseStep)))
      by (intro d; rewrite ?E; reflexivity).
    destruct (while fuel _ _ ref) as [e0| |]; cbn [bind]; try reflexivity.
    rewrite (while_ext (fun d => Ok (negb (P d))) (fun d => Ok (negb (P' d)))
               (fun d => Ok (d - Inline.fineStep))
               (fun d => Ok (d - Inline.fineStep)))
      by (intro d; rewrite ?E; reflexivity).
    reflexivity.
  - rewrite (while_ext (fun d => Ok (negb (P d))) (fun d => Ok (negb (P' d)))
               (guarded Inline.coarseStep Inline.horizon ref)
               (guarded Inline.coarseStep Inline.horizon ref))
      by (intro d; rewrite ?E; reflexivity).
    destruct (while fuel _ _ ref) as [s0| |]; cbn [bind]; try reflexivity.
    rewrite (while_ext (fun d => Ok (P (d - Inline.fineStep)))
               (fun d => Ok (P' (d - Inline.fineStep)))
               (fun d => Ok (d - Inline.fineStep))
               (fun d => Ok (d - Inline.fineStep)))
      by (intro d; rewrite ?E; reflexivity).
    destruct (while fuel _ _ s0) as [s| |]; cbn [bind]; try reflexivity.
    rewrite (while_ext (fun d => Ok (P d)) (fun d => Ok (P' d))
               (fun d => Ok (d + Inline.coarseStep))
               (fun d => Ok (d + Inline.coarseStep)))
      by (intro d; rewrite ?E; reflexivity).
    destruct (while fuel _ _ s) as [e0| |]; cbn [bind]; try reflexivity.
    rewrite (while_ext (fun d => Ok (negb (P d))) (fun d => Ok (negb (P' d)))
               (fun d => Ok (d - Inline.fineStep))
               (fun d => Ok (d - Inline.fineStep)))
      by (intro d; rewrite ?E; reflexivity).
    reflexivity.
Qed.

(** The inline locator with the sine switched off runs on the mean band. *)
Lemma inline_locate_mean (Math_PI : Q) fuel ref :
  Inline.findCurrentOrNextSwathiPeriod noSine Math_PI fuel ref
  = inline_locator meanBand fuel ref.
Proof.
  rewrite inline_locate_eq. apply inline_locator_ext.
  intro d. apply meanBand_eq.
Qed.

(** ** Increments of the polynomials of the lunar theory *)

Section Increments.

Local Open Scope Q_scope.

Lemma Qmult_abs_le (a b x y : Q) :
  - a <= x -> x <= a -> - b <= y -> y <= b ->
  - (a * b) <= x * y /\ x * y <= a * b.
Proof. intros. split; nra. Qed.

(** Between two arguments of absolute value at most [B] a quartic grows at
    its linear rate, up to the contribution [S] of the higher terms. *)
Lemma quartic_increment (a0 a1 a2 a3 a4 A2 A3 A4 B u v : Q) :
  - B <= u -> u <= v -> v <= B ->
  - A2 <= a2 -> a2 <= A2 -> - A3 <= a3 -> a3 <= A3 ->
  - A4 <= a4 -> a4 <= A4 ->
  let S := A2 * (2 * B) + A3 * (3 * (B * B)) + A4 * (4 * (B * B * B)) in
  (a1 - S) * (v - u) <= quartic a0 a1 a2 a3 a4 v - quartic a0 a1 a2 a3 a4 u
  /\ quartic a0 a1 a2 a3 a4 v - quartic a0 a1 a2 a3 a4 u
     <= (a1 + S) * (v - u).
Proof.
  intros Hu Huv Hv L2 U2 L3 U3 L4 U4 S.
  assert (HB : 0 <= B) by lra.
  assert (Hu' : u <= B) by lra. assert (Hv' : - B <= v) by lra.
  destruct (Qmult_abs_le B B u u Hu Hu' Hu Hu') as [uu0 uu1].
  destruct (Qmult_abs_le B B u v Hu Hu' Hv' Hv) as [uv0 uv1].
  destruct (Qmult_abs_le B B v v Hv' Hv Hv' Hv) as [vv0 vv1].
  destruct (Qmult_abs_le (B * B) B (u * u) u uu0 uu1 Hu Hu') as [uuu0 uuu1].
  destruct (Qmult_abs_le (B * B) B (u * u) v uu0 uu1 Hv' Hv) as [uuv0 uuv1].
  destruct (Qmult_abs_le (B * B) B (v * v) u vv0 vv1 Hu Hu') as [vvu0 vvu1].
  destruct (Qmult_abs_le (B * B) B (v * v) v vv0 vv1 Hv' Hv) as [vvv0 vvv1].
  set (s1 := u + v).
  set (s2 := u * u + u * v + v * v).
  set (s3 := u * u * u + u * u * v + v * v * u + v * v * v).
  assert (H1 : - (2 * B) <= s1 /\ s1 <= 2 * B) by (unfold s1; lra).
  assert (H2 : - (3 * (B * B)) <= s2 /\ s2 <= 3 * (B * B))
    by (unfold s2; lra).
  assert (H3 : - (4 * (B * B * B)) <= s3 /\ s3 <= 4 * (B * B * B))
    by (unfold s3; lra).
  destruct H1 as [H1l H1u], H2 as [H2l H2u], H3 as [H3l H3u].
  destruct (Qmult_abs_le A2 (2 * B) a2 s1 L2 U2 H1l H1u) as [P1 Q1].
  destruct (Qmult_abs_le A3 (3 * (B * B)) a3 s2 L3 U3 H2l H2u) as [P2 Q2].
  destruct (Qmult_abs_le A4 (4 * (B * B * B)) a4 s3 L4 U4 H3l H3u)
    as [P3 Q3].
  set (E := a2 * s1 + a3 * s2 + a4 * s3).
  assert (HE : - S <= E /\ E <= S) by (unfold E, S; lra).
  assert (Hid : quartic a0 a1 a2 a3 a4 v - quartic a0 a1 a2 a3 a4 u
                == (v - u) * (a1 + E)).
  { unfold quartic, E, s1, s2, s3. ring. }
  rewrite Hid. destruct HE as [HEl HEu].
  assert (Hd : 0 <= v - u) by lra.
  pose proof (Qmult_le_0_compat _ _ Hd (proj1 (Qle_minus_iff _ _) HEl)).
  pose proof (Qmult_le_0_compat _ _ Hd (proj1 (Qle_minus_iff _ _) HEu)).
  split; lra.
Qed.

(** The five polynomials as quartics. *)
Lemma Lp_quartic T :
  Inline.Lp T
  == quartic 218.3164477 481267.88123421 (- 0.0015786)
       (1 # 538841) (- (1 # 65194000)) T.
Proof. unfold Inline.Lp, quartic. field. Qed.

Lemma D_quartic T :
  Inline.D T
  == quartic 297.8501921 445267.1114034 (- 0.0018819)
       (1 # 545868) (- (1 # 113065000)) T.
Proof. unfold Inline.D, quartic. field. Qed.

Lemma M_quartic T :
  Inline.M T
  == quartic 357.5291092 35999.0502909 (- 0.0001536) (1 # 24490000) 0 T.
Proof. unfold Inline.M, quartic. field. Qed.

Lemma Mp_quartic T :
  Inline.Mp T
  == quartic 134.9633964 477198.8675055 0.0087414
       (1 # 69699) (- (1 # 14712000)) T.
Proof. unfold Inline.Mp, quartic. field. Qed.

Lemma F_quartic T :
  Inline.F T
  == quartic 93.2720950 483202.0175233 (- 0.0036539)
       (- (1 # 3526000)) (1 # 863310000) T.
Proof. unfold Inline.F, quartic. field. Qed.

(** Julian centuries are affine in the instant:
    3155760000000 ms to the century. *)
Lemma julianCenturies_affine (t : Instant) :
  Inline.julianCenturies t
  == (inject_Z t - 946728000000) * (1 # 3155760000000).
Proof. unfold Inline.julianCenturies, Inline.julianDate. field. Qed.

Lemma julianCenturies_step (t d : Z) :
  Inline.julianCenturies (t + d)%Z
  == Inline.julianCenturies t + inject_Z d * (1 # 3155760000000).
Proof. rewrite !julianCenturies_affine, inject_Z_plus. ring. Qed.

Lemma julianCenturies_bound (t : Instant) :
  (- 8645000000000000 <= t <= 8645000000000000)%Z ->
  - 2740 <= Inline.julianCenturies t /\ Inline.julianCenturies t <= 2740.
Proof.
  intros [Hlo Hhi]. rewrite julianCenturies_affine.
  assert (L : inject_Z (- 8645000000000000) <= inject_Z t)
    by (rewrite <- Zle_Qle; exact Hlo).
  assert (U : inject_Z t <= inject_Z 8645000000000000)
    by (rewrite <- Zle_Qle; exact Hhi).
  change (inject_Z (- 8645000000000000)) with (- 8645000000000000) in L.
  change (inject_Z 8645000000000000) with 8645000000000000 in U.
  split; lra.
Qed.

(** The ayanamsha is affine in the instant. *)
Lemma ayanamsha_affine (t : Instant) :
  getLahiriAyanamsha t
  == 23.85575 + (inject_Z t - 946728000000) * (5029 # 11360736000000000).
Proof. unfold getLahiriAyanamsha, J2000. cbv zeta. field. Qed.

Lemma ayanamsha_step (t d : Z) :
  getLahiriAyanamsha (t + d)%Z
  == getLahiriAyanamsha t + inject_Z d * (5029 # 11360736000000000).
Proof. rewrite !ayanamsha_affine, inject_Z_plus. ring. Qed.

End Increments.

(** ** The signal of the inline series *)

Section InlineSignal.

Local Open Scope Q_scope.

Variable Math_sin : Q -> Q.
Variable Math_PI : Q.

Hypothesis sin_bound : forall x, - 1 <= Math_sin x /\ Math_sin x <= 1.

Let lon := Inline.getMoonSiderealLongitude Math_sin Math_PI.
Let raw := inline_unnormalised Math_sin Math_PI.
Let sigma := inline_sigma Math_sin Math_PI.

Lemma eclipticLongitude_eq (t : Instant) :
  Inline.eclipticLongitude Math_sin Math_PI t
  == Inline.Lp (Inline.julianCenturies t) + sigma t * (1 # 1000000).
Proof.
  unfold sigma, Inline.eclipticLongitude, inline_sigma. cbv zeta. field.
Qed.

Lemma sigmaL_bound (Dr Mr Mpr Fr : Q) :
  - 9143055 <= Inline.sigmaL Math_sin Dr Mr Mpr Fr
  /\ Inline.sigmaL Math_sin Dr Mr Mpr Fr <= 9143055.
Proof.
  unfold Inline.sigmaL. cbv zeta.
  pose proof (sin_bound Mpr). pose proof (sin_bound (2 * Dr - Mpr)).
  pose proof (sin_bound (2 * Dr)). pose proof (sin_bound (2 * Mpr)).
  pose proof (sin_bound Mr). pose proof (sin_bound (2 * Fr)).
  pose proof (sin_bound (2 * Dr - 2 * Mpr)).
  pose proof (sin_bound (2 * Dr - Mr - Mpr)).
  pose proof (sin_bound (2 * Dr + Mpr)). pose proof (sin_bound (2 * Dr - Mr)).
  pose proof (sin_bound (Mr - Mpr)). pose proof (sin_bound Dr).
  pose proof (sin_bound (Mr + Mpr)). pose proof (sin_bound (2 * Dr - 2 * Fr)).
  pose proof (sin_bound (Mpr + 2 * Fr)). pose proof (sin_bound (Mpr - 2 * Fr)).
  pose proof (sin_bound (4 * Dr - Mpr)). pose proof (sin_bound (3 * Mpr)).
  pose proof (sin_bound (4 * Dr - 2 * Mpr)).
  pose proof (sin_bound (2 * Dr + Mr - Mpr)).
  pose proof (sin_bound (2 * Dr + Mr)). pose proof (sin_bound (Dr - Mpr)).
  split; lra.
Qed.

Lemma sigma_bound (t : Instant) : - 9143055 <= sigma t /\ sigma t <= 9143055.
Proof. unfold sigma, inline_sigma. cbv zeta. apply sigmaL_bound. Qed.

(** The mean longitude over [d] milliseconds, in degrees: between 479955
    and 482581 degrees per century. *)
Lemma Lp_increment (t d : Z) :
  (0 <= d)%Z ->
  (- 8645000000000000 <= t)%Z -> (t + d <= 8645000000000000)%Z ->
  479955 * (inject_Z d * (1 # 3155760000000))
  <= Inline.Lp (Inline.julianCenturies (t + d)%Z)
     - Inline.Lp (Inline.julianCenturies t)
  /\ Inline.Lp (Inline.julianCenturies (t + d)%Z)
     - Inline.Lp (Inline.julianCenturies t)
     <= 482581 * (inject_Z d * (1 # 3155760000000)).
Proof.
  intros Hd Hlo Hhi.
  destruct (julianCenturies_bound t ltac:(lia)) as [B0 B1].
  destruct (julianCenturies_bound (t + d)%Z ltac:(lia)) as [B2 B3].
  pose proof (julianCenturies_step t d) as Hstep.
  assert (Hd' : 0 <= inject_Z d)
    by (change 0 with (inject_Z 0); rewrite <- Zle_Qle; exact Hd).
  set (u := Inline.julianCenturies t) in *.
  set (v := Inline.julianCenturies (t + d)%Z) in *.
  assert (Huv : u <= v) by lra.
  rewrite !Lp_quartic.
  destruct (quartic_increment 218.3164477 481267.88123421 (- 0.0015786)
              (1 # 538841) (- (1 # 65194000))
              0.0015786 (1 # 538841) (1 # 65194000) 2740 u v)
    as [L U]; lra.
Qed.

(** The unnormalised longitude over [d] milliseconds. *)
Lemma raw_increment (t d : Z) :
  (0 <= d)%Z ->
  (- 8645000000000000 <= t)%Z -> (t + d <= 8645000000000000)%Z ->
  479953 * (inject_Z d * (1 # 3155760000000)) - 18.28611
  <= raw (t + d)%Z - raw t
  /\ raw (t + d)%Z - raw t
     <= 482581 * (inject_Z d * (1 # 3155760000000)) + 18.28611.
Proof.
  intros Hd Hlo Hhi. unfold raw, inline_unnormalised.
  rewrite !eclipticLongitude_eq, ayanamsha_step.
  destruct (Lp_increment t d Hd Hlo Hhi) as [L U].
  destruct (sigma_bound t) as [S0 S1].
  destruct (sigma_bound (t + d)%Z) as [S2 S3].
  assert (Hd' : 0 <= inject_Z d)
    by (change 0 with (inject_Z 0); rewrite <- Zle_Qle; exact Hd).
  split; lra.
Qed.

(** The normalised longitude differs from the unnormalised one by whole
    turns. *)
Lemma lon_turns (t : Instant) :
  exists n : Z, lon t == raw t + 360 * inject_Z n.
Proof.
  unfold lon, raw, inline_unnormalised. rewrite inline_longitude_eq.
  apply inline_normalise_cong.
Qed.

(** Three days (144 coarse steps) take the Moon out of the band. *)
Lemma inline_leaves_band (t : Instant) :
  (- 8645000000000000 <= t)%Z -> (t + 259200000 <= 8645000000000000)%Z ->
  Inline.isSwathi (lon t) = true ->
  Inline.isSwathi (lon (t + 259200000)%Z) = false.
Proof.
  intros Hlo Hhi Hin.
  destruct (Inline.isSwathi (lon (t + 259200000)%Z)) eqn:Hin'; [|reflexivity].
  exfalso.
  apply inline_isSwathi_true in Hin, Hin'.
  destruct (lon_turns t) as [n Hn].
  destruct (lon_turns (t + 259200000)%Z) as [n' Hn'].
  destruct (raw_increment t 259200000 ltac:(lia) Hlo Hhi) as [L U].
  change (inject_Z 259200000) with 259200000 in L, U.
  rewrite Hn in Hin. rewrite Hn' in Hin'.
  destruct (Z_lt_le_dec n' n) as [C|C].
  - assert (Hc : inject_Z n' + 1 <= inject_Z n).
    { change 1 with (inject_Z 1). rewrite <- inject_Z_plus, <- Zle_Qle. lia. }
    lra.
  - destruct (Z_lt_le_dec n n') as [C'|C'].
    + assert (Hc : inject_Z n + 1 <= inject_Z n').
      { change 1 with (inject_Z 1). rewrite <- inject_Z_plus, <- Zle_Qle.
        lia. }
      lra.
    + assert (n' = n) by lia. subst n'. lra.
Qed.

End InlineSignal.

(** ** Scans that reach their exit *)

Lemma bounded_search (Q : nat -> bool) (N : nat) :
  (exists k, (k <= N)%nat /\ Q k = true)
  \/ (forall k, (k <= N)%nat -> Q k = false).
Proof.
  induction N as [|N IH].
  - destruct (Q O) eqn:E.
    + left. exists O. split; [lia|exact E].
    + right. intros k Hk. replace k with O by lia. exact E.
  - destruct IH as [(k & Hk & E)|Hall].
    + left. exists k. split; [lia|exact E].
    + destruct (Q (S N)) eqn:E.
      * left. exists (S N). split; [lia|exact E].
      * right. intros k Hk.
        destruct (Nat.eq_dec k (S N)) as [->|Hne]; [exact E|].
        apply Hall. lia.
Qed.

Section ScansExist.

Variable P : Instant -> bool.
Variables coarse fine : Z.
Variable m : nat.

Hypothesis fine_pos : 0 < fine.
Hypothesis m_pos : (0 < m)%nat.
Hypothesis coarse_fine : coarse = Z.of_nat m * fine.

Lemma start_inside_exists ref :
  P ref = true ->
  (exists k : nat, P (ref + Z.of_nat k * - coarse) = false) ->
  exists s, start_inside P coarse fine ref s.
Proof.
  intros Href [k Hk].
  destruct (exits_at_first P ref (- coarse) k Hk) as (kb & _ & Hkb).
  set (s0 := ref + Z.of_nat kb * - coarse).
  assert (Hback : negb (P (s0 + Z.of_nat (kb * m) * fine)) = false).
  { replace (s0 + Z.of_nat (kb * m) * fine) with ref
      by (subst s0 coarse; rewrite Nat2Z.inj_mul; lia).
    rewrite Href. reflexivity. }
  destruct (exits_at_first (fun d => negb (P d)) s0 fine (kb * m) Hback)
    as (jf & _ & Hjf).
  exists (s0 + Z.of_nat jf * fine), kb, jf. auto.
Qed.

Lemma end_refined_exists from :
  P from = true ->
  (exists k : nat, P (from + Z.of_nat k * coarse) = false) ->
  exists e, end_refined P coarse fine from e.
Proof.
  intros Hfrom [k Hk].
  destruct (exits_at_first P from coarse k Hk) as (kf & _ & Hkf).
  set (e0 := from + Z.of_nat kf * coarse).
  assert (Hback : negb (P (e0 + Z.of_nat (kf * m) * - fine)) = false).
  { replace (e0 + Z.of_nat (kf * m) * - fine) with from
      by (subst e0 coarse; rewrite Nat2Z.inj_mul; lia).
    rewrite Hfrom. reflexivity. }
  destruct (exits_at_first (fun d => negb (P d)) e0 (- fine) (kf * m) Hback)
    as (jb & _ & Hjb).
  exists (e0 + Z.of_nat jb * - fine + fine), kf, jb. auto.
Qed.

Lemma end_coarse_exists from :
  (exists k : nat, P (from + Z.of_nat k * coarse) = false) ->
  exists e, end_coarse P coarse from e.
Proof.
  intros [k Hk].
  destruct (exits_at_first P from coarse k Hk) as (kf & _ & Hkf).
  exists (from + Z.of_nat kf * coarse), kf. auto.
Qed.

Lemma start_outside_exists ref (k : nat) :
  P ref = false -> P (ref + Z.of_nat k * coarse) = true ->
  exists ks js : nat,
    exits_at (fun d => negb (P d)) ref coarse ks
    /\ exits_at (fun d => P (d - fine)) (ref + Z.of_nat ks * coarse)
         (- fine) js
    /\ (ks <= k)%nat.
Proof.
  intros Href Hk.
  assert (Hk' : negb (P (ref + Z.of_nat k * coarse)) = false)
    by (rewrite Hk; reflexivity).
  destruct (exits_at_first (fun d => negb (P d)) ref coarse k Hk')
    as (ks & Hle & Hks).
  set (s0 := ref + Z.of_nat ks * coarse).
  destruct ks as [|ks'].
  { exfalso. destruct Hks as [H0 _].
    replace (ref + Z.of_nat 0 * coarse) with ref in H0 by lia.
    rewrite Href in H0. discriminate. }
  destruct m as [|m']; [lia|].
  assert (Hprev : P (s0 + Z.of_nat m' * - fine - fine) = false).
  { destruct Hks as [_ Hb]. specialize (Hb ks' ltac:(lia)).
    apply negb_true_iff in Hb.
    replace (s0 + Z.of_nat m' * - fine - fine)
      with (ref + Z.of_nat ks' * coarse) by (subst s0 coarse; lia).
    exact Hb. }
  destruct (exits_at_first (fun d => P (d - fine)) s0 (- fine) m' Hprev)
    as (js & _ & Hjs).
  exists (S ks'), js. auto.
Qed.

End ScansExist.

(** The inline locator over a band test that is left within reach in both
    directions: every run returns a period or exhausts the horizon. *)
Lemma inline_run_exists (P : Instant -> bool) (ref : Instant) :
  (P ref = true ->
   exists k : nat, P (ref + Z.of_nat k * - Inline.coarseStep) = false) ->
  (forall t, ref <= t <= ref + Inline.horizon -> P t = true ->
     exists k : nat, P (t + Z.of_nat k * Inline.coarseStep) = false) ->
  (exists p, inline_run P ref p) \/ inline_exhausted P ref.
Proof.
  intros Hback Hfwd. unfold inline_run.
  destruct (P ref) eqn:Href.
  - left.
    destruct (start_inside_exists P Inline.coarseStep Inline.fineStep 30
                thirty_pos eq_refl ref Href (Hback eq_refl)) as [s Hs].
    destruct (end_refined_exists P Inline.coarseStep Inline.fineStep 30
                thirty_pos eq_refl ref Href
                (Hfwd ref ltac:(change Inline.horizon with 2592000000; lia)
                   Href)) as [e He].
    exists {| start := s; end_ := e |}. cbn [start end_]. auto.
  - destruct (bounded_search
                (fun k => P (ref + Z.of_nat k * Inline.coarseStep)) 1440)
      as [(k & Hk & Hin)|Hall].
    + left.
      destruct (start_outside_exists P Inline.coarseStep Inline.fineStep 30
                  thirty_pos eq_refl ref k Href Hin)
        as (ks & js & Hks & Hjs & Hle).
      set (s := ref + Z.of_nat ks * Inline.coarseStep
                + Z.of_nat js * - Inline.fineStep).
      assert (Hs : start_outside P Inline.coarseStep Inline.fineStep ref s)
        by (exists ks, js; auto).
      destruct (inline_start_outside _ _ _ Href Hs) as (S1 & _ & S3).
      assert (Hrange : ref <= s <= ref + Inline.horizon).
      { subst s. destruct inline_steps as (Hc & Hf & Hh & _).
        rewrite Hc, Hf, Hh in *. lia. }
      destruct (end_refined_exists P Inline.coarseStep Inline.fineStep 30
                  thirty_pos eq_refl s S1 (Hfwd s Hrange S1)) as [e He].
      exists {| start := s; end_ := e |}. cbn [start end_].
      split; [|auto].
      exists ks. split; [exact Hks|].
      destruct inline_steps as (Hc & _ & Hh & _). rewrite Hc, Hh. lia.
    + right. exact Hall.
Qed.

(** The service over a band test that is left in both directions and
    reached going forward: every run returns a period. *)
Lemma calculator_run_exists (P : Instant -> bool) (ref : Instant) :
  (forall t, P t = true ->
     (exists k : nat, P (t + Z.of_nat k * - Calculator.coarseStep) = false)
     /\ exists k : nat, P (t + Z.of_nat k * Calculator.coarseStep) = false) ->
  (exists k : nat, P (ref + Z.of_nat k * Calculator.coarseStep) = true) ->
  exists p, calculator_run P ref p.
Proof.
  intros Hleave [k Hk]. unfold calculator_run.
  destruct (P ref) eqn:Href.
  - destruct (Hleave ref Href) as [Hb Hf].
    destruct (start_inside_exists P Calculator.coarseStep
                Calculator.fineStep 60 sixty_pos eq_refl ref Href Hb) as [s Hs].
    destruct (end_coarse_exists P Calculator.coarseStep ref Hf) as [e He].
    exists {| start := s; end_ := e |}. cbn [start end_]. auto.
  - destruct (start_outside_exists P Calculator.coarseStep
                Calculator.fineStep 60 sixty_pos eq_refl ref k
                Href Hk) as (ks & js & Hks & Hjs & _).
    set (s := ref + Z.of_nat ks * Calculator.coarseStep
              + Z.of_nat js * - Calculator.fineStep).
    assert (Hs : start_outside P Calculator.coarseStep Calculator.fineStep
                   ref s) by (exists ks, js; auto).
    destruct (calculator_start_outside _ _ _ Href Hs) as (S1 & _ & _).
    destruct (Hleave s S1) as [_ Hf].
    destruct (end_coarse_exists P Calculator.coarseStep s Hf) as [e He].
    exists {| start := s; end_ := e |}. cbn [start end_]. auto.
Qed.

(** ** The signal at the scale of a fine step *)

Section InlineSignalFine.

Local Open Scope Q_scope.

Variable Math_sin : Q -> Q.
Variable Math_PI : Q.

Hypothesis sin_like : sine_like Math_sin.
Hypothesis PI_like : pi_like Math_PI.

Let lon := Inline.getMoonSiderealLongitude Math_sin Math_PI.
Let raw := inline_unnormalised Math_sin Math_PI.
Let sigma := inline_sigma Math_sin Math_PI.

Lemma sin_diff (x y b : Q) :
  x - y <= b -> y - x <= b ->
  - b <= Math_sin x - Math_sin y /\ Math_sin x - Math_sin y <= b.
Proof.
  intros H1 H2. destruct sin_like as [_ Hlip].
  apply Qabs_Qle_condition.
  eapply Qle_trans; [apply Hlip|].
  apply Qabs_Qle_condition. split; lra.
Qed.

Ltac lipschitz x y b :=
  let H := fresh "L" in
  assert (H := sin_diff x y b ltac:(lra) ltac:(lra)).

(** The periodic terms move no faster than their arguments, weighted by
    the coefficients. *)
Lemma sigmaL_lipschitz (Dr Mr Mpr Fr Dr' Mr' Mpr' Fr' dD dM dMp dF : Q) :
  - dD <= Dr' - Dr -> Dr' - Dr <= dD ->
  - dM <= Mr' - Mr -> Mr' - Mr <= dM ->
  - dMp <= Mpr' - Mpr -> Mpr' - Mpr <= dMp ->
  - dF <= Fr' - Fr -> Fr' - Fr <= dF ->
  let bound := 4471297 * dD + 373900 * dM + 8383749 * dMp + 306334 * dF in
  - bound <= Inline.sigmaL Math_sin Dr' Mr' Mpr' Fr'
             - Inline.sigmaL Math_sin Dr Mr Mpr Fr
  /\ Inline.sigmaL Math_sin Dr' Mr' Mpr' Fr'
     - Inline.sigmaL Math_sin Dr Mr Mpr Fr <= bound.
Proof.
  intros D0 D1 M0 M1 P0 P1 F0 F1. cbv zeta.
  unfold Inline.sigmaL. cbv zeta.
  lipschitz Mpr' Mpr dMp.
  lipschitz (2 * Dr' - Mpr') (2 * Dr - Mpr) (2 * dD + dMp).
  lipschitz (2 * Dr') (2 * Dr) (2 * dD).
  lipschitz (2 * Mpr') (2 * Mpr) (2 * dMp).
  lipschitz Mr' Mr dM.
  lipschitz (2 * Fr') (2 * Fr) (2 * dF).
  lipschitz (2 * Dr' - 2 * Mpr') (2 * Dr - 2 * Mpr) (2 * dD + 2 * dMp).
  lipschitz (2 * Dr' - Mr' - Mpr') (2 * Dr - Mr - Mpr) (2 * dD + dM + dMp).
  lipschitz (2 * Dr' + Mpr') (2 * Dr + Mpr) (2 * dD + dMp).
  lipschitz (2 * Dr' - Mr') (2 * Dr - Mr) (2 * dD + dM).
  lipschitz (Mr' - Mpr') (Mr - Mpr) (dM + dMp).
  lipschitz Dr' Dr dD.
  lipschitz (Mr' + Mpr') (Mr + Mpr) (dM + dMp).
  lipschitz (2 * Dr' - 2 * Fr') (2 * Dr - 2 * Fr) (2 * dD + 2 * dF).
  lipschitz (Mpr' + 2 * Fr') (Mpr + 2 * Fr) (dMp + 2 * dF).
  lipschitz (Mpr' - 2 * Fr') (Mpr - 2 * Fr) (dMp + 2 * dF).
  lipschitz (4 * Dr' - Mpr') (4 * Dr - Mpr) (4 * dD + dMp).
  lipschitz (3 * Mpr') (3 * Mpr) (3 * dMp).
  lipschitz (4 * Dr' - 2 * Mpr') (4 * Dr - 2 * Mpr) (4 * dD + 2 * dMp).
  lipschitz (2 * Dr' + Mr' - Mpr') (2 * Dr + Mr - Mpr) (2 * dD + dM + dMp).
  lipschitz (2 * Dr' + Mr') (2 * Dr + Mr) (2 * dD + dM).
  lipschitz (Dr' - Mpr') (Dr - Mpr) (dD + dMp).
  split; lra.
Qed.

Lemma toRad_increment (x x' r h : Q) :
  0 <= h -> 0 <= x' - x -> x' - x <= r * h -> 0 <= r ->
  - (r * (7 # 400) * h)
  <= Inline.toRad Math_PI x' - Inline.toRad Math_PI x
  /\ Inline.toRad Math_PI x' - Inline.toRad Math_PI x
     <= r * (7 # 400) * h.
Proof.
  intros Hh H0 H1 Hr. destruct PI_like as [P0 P1].
  assert (E : Inline.toRad Math_PI x' - Inline.toRad Math_PI x
              == (x' - x) * Math_PI * (1 # 180))
    by (unfold Inline.toRad; field).
  rewrite E.
  set (dx := x' - x) in *.
  assert (0 <= dx * Math_PI) by nra.
  assert (dx * Math_PI <= r * h * 3.15) by nra.
  split; lra.
Qed.

Ltac increment_of quartic_eq a0 a1 a2 a3 a4 A2 A3 A4 :=
  intros Hd Hlo Hhi;
  match goal with
  | |- context [Inline.julianCenturies (?t + ?d)%Z] =>
      let B0 := fresh in let B1 := fresh in
      let B2 := fresh in let B3 := fresh in
      destruct (julianCenturies_bound t ltac:(lia)) as [B0 B1];
      destruct (julianCenturies_bound (t + d)%Z ltac:(lia)) as [B2 B3];
      pose proof (julianCenturies_step t d);
      assert (0 <= inject_Z d)
        by (change 0 with (inject_Z 0); rewrite <- Zle_Qle; exact Hd);
      set (u := Inline.julianCenturies t) in *;
      set (v := Inline.julianCenturies (t + d)%Z) in *;
      assert (u <= v) by lra;
      rewrite !quartic_eq;
      destruct (quartic_increment a0 a1 a2 a3 a4 A2 A3 A4 2740 u v);
      lra
  end.

Lemma D_increment (t d : Z) :
  (0 <= d)%Z ->
  (- 8645000000000000 <= t)%Z -> (t + d <= 8645000000000000)%Z ->
  0 <= Inline.D (Inline.julianCenturies (t + d)%Z)
       - Inline.D (Inline.julianCenturies t)
  /\ Inline.D (Inline.julianCenturies (t + d)%Z)
     - Inline.D (Inline.julianCenturies t)
     <= 446047 * (inject_Z d * (1 # 3155760000000)).
Proof.
  increment_of D_quartic 297.8501921 445267.1114034 (- 0.0018819)
    (1 # 545868) (- (1 # 113065000))
    0.0018819 (1 # 545868) (1 # 113065000).
Qed.

Lemma M_increment (t d : Z) :
  (0 <= d)%Z ->
  (- 8645000000000000 <= t)%Z -> (t + d <= 8645000000000000)%Z ->
  0 <= Inline.M (Inline.julianCenturies (t + d)%Z)
       - Inline.M (Inline.julianCenturies t)
  /\ Inline.M (Inline.julianCenturies (t + d)%Z)
     - Inline.M (Inline.julianCenturies t)
     <= 36001 * (inject_Z d * (1 # 3155760000000)).
Proof.
  increment_of M_quartic 357.5291092 35999.0502909 (- 0.0001536)
    (1 # 24490000) 0 0.0001536 (1 # 24490000) 0.
Qed.

Lemma Mp_increment (t d : Z) :
  (0 <= d)%Z ->
  (- 8645000000000000 <= t)%Z -> (t + d <= 8645000000000000)%Z ->
  0 <= Inline.Mp (Inline.julianCenturies (t + d)%Z)
       - Inline.Mp (Inline.julianCenturies t)
  /\ Inline.Mp (Inline.julianCenturies (t + d)%Z)
     - Inline.Mp (Inline.julianCenturies t)
     <= 483163 * (inject_Z d * (1 # 3155760000000)).
Proof.
  increment_of Mp_quartic 134.9633964 477198.8675055 0.0087414
    (1 # 69699) (- (1 # 14712000))
    0.0087414 (1 # 69699) (1 # 14712000).
Qed.

Lemma F_increment (t d : Z) :
  (0 <= d)%Z ->
  (- 8645000000000000 <= t)%Z -> (t + d <= 8645000000000000)%Z ->
  0 <= Inline.F (Inline.julianCenturies (t + d)%Z)
       - Inline.F (Inline.julianCenturies t)
  /\ Inline.F (Inline.julianCenturies (t + d)%Z)
     - Inline.F (Inline.julianCenturies t)
     <= 483324 * (inject_Z d * (1 # 3155760000000)).
Proof.
  increment_of F_quartic 93.2720950 483202.0175233 (- 0.0036539)
    (- (1 # 3526000)) (1 # 863310000)
    0.0036539 (1 # 3526000) (1 # 863310000).
Qed.

(** The periodic terms over [d] milliseconds, in degrees. *)
Lemma sigma_increment (t d : Z) :
  (0 <= d)%Z ->
  (- 8645000000000000 <= t)%Z -> (t + d <= 8645000000000000)%Z ->
  - (108700 * (inject_Z d * (1 # 3155760000000)))
  <= (sigma (t + d)%Z - sigma t) * (1 # 1000000)
  /\ (sigma (t + d)%Z - sigma t) * (1 # 1000000)
     <= 108700 * (inject_Z d * (1 # 3155760000000)).
Proof.
  intros Hd Hlo Hhi. unfold sigma, inline_sigma. cbv zeta.
  assert (Hh : 0 <= inject_Z d * (1 # 3155760000000)).
  { assert (0 <= inject_Z d)
      by (change 0 with (inject_Z 0); rewrite <- Zle_Qle; exact Hd).
    lra. }
  set (h := inject_Z d * (1 # 3155760000000)) in *.
  destruct (D_increment t d Hd Hlo Hhi) as [D0 D1].
  destruct (M_increment t d Hd Hlo Hhi) as [M0 M1].
  destruct (Mp_increment t d Hd Hlo Hhi) as [P0 P1].
  destruct (F_increment t d Hd Hlo Hhi) as [F0 F1].
  fold h in D1, M1, P1, F1.
  destruct (toRad_increment _ _ 446047 h Hh D0 D1 ltac:(lra)) as [RD0 RD1].
  destruct (toRad_increment _ _ 36001 h Hh M0 M1 ltac:(lra)) as [RM0 RM1].
  destruct (toRad_increment _ _ 483163 h Hh P0 P1 ltac:(lra)) as [RP0 RP1].
  destruct (toRad_increment _ _ 483324 h Hh F0 F1 ltac:(lra)) as [RF0 RF1].
  destruct (sigmaL_lipschitz _ _ _ _ _ _ _ _ _ _ _ _
              RD0 RD1 RM0 RM1 RP0 RP1 RF0 RF1) as [S0 S1].
  cbv zeta in S0, S1.
  split; lra.
Qed.

(** At the scale of the steps of the search the unnormalised longitude
    increases, between 371000 and 592000 degrees per century. *)
Lemma raw_increment_fine (t d : Z) :
  (0 <= d)%Z ->
  (- 8645000000000000 <= t)%Z -> (t + d <= 8645000000000000)%Z ->
  371000 * (inject_Z d * (1 # 3155760000000)) <= raw (t + d)%Z - raw t
  /\ raw (t + d)%Z - raw t <= 592000 * (inject_Z d * (1 # 3155760000000)).
Proof.
  intros Hd Hlo Hhi. unfold raw, inline_unnormalised.
  pose proof (eclipticLongitude_eq Math_sin Math_PI (t + d)%Z) as E1.
  pose proof (eclipticLongitude_eq Math_sin Math_PI t) as E2.
  pose proof (ayanamsha_step t d) as E3.
  destruct (Lp_increment t d Hd Hlo Hhi) as [L U].
  destruct (sigma_increment t d Hd Hlo Hhi) as [S0 S1].
  unfold sigma in S0, S1.
  assert (Hd' : 0 <= inject_Z d)
    by (change 0 with (inject_Z 0); rewrite <- Zle_Qle; exact Hd).
  split; lra.
Qed.

End InlineSignalFine.

(** ** Leaving the band *)

Section InlineExit.

Local Open Scope Q_scope.

Variable Math_sin : Q -> Q.
Variable Math_PI : Q.

Hypothesis sin_like : sine_like Math_sin.
Hypothesis PI_like : pi_like Math_PI.

Let lon := Inline.getMoonSiderealLongitude Math_sin Math_PI.

(** Having left the band between two fine probes, the Moon is not back in
    it a millisecond later, whatever the ayanamsha. *)
Lemma inline_no_reentry (e : Instant) :
  (- 8645000000000000 <= e - 60000)%Z -> (e + 1 <= 8645000000000000)%Z ->
  Inline.isSwathi (lon (e - 60000)%Z) = true ->
  Inline.isSwathi (lon e) = false ->
  Inline.isSwathi (lon (e + 1)%Z) = false.
Proof.
  intros Hlo Hhi Hin Hout.
  destruct (Inline.isSwathi (lon (e + 1)%Z)) eqn:Hin'; [exfalso|reflexivity].
  apply inline_isSwathi_true in Hin, Hin'.
  apply inline_isSwathi_false in Hout.
  destruct (raw_increment_fine Math_sin Math_PI sin_like PI_like
              (e - 60000)%Z 60000 ltac:(lia) ltac:(lia) ltac:(lia))
    as [L1 U1].
  destruct (raw_increment_fine Math_sin Math_PI sin_like PI_like
              e 1 ltac:(lia) ltac:(lia) ltac:(lia)) as [L2 U2].
  change (inject_Z 60000) with 60000 in L1, U1.
  change (inject_Z 1) with 1 in L2, U2.
  pose proof (ayanamsha_step (e - 60000) 60000) as A1.
  pose proof (ayanamsha_step e 1) as A2.
  change (inject_Z 60000) with 60000 in A1.
  change (inject_Z 1) with 1 in A2.
  replace (e - 60000 + 60000)%Z with e in * by lia.
  unfold inline_unnormalised in L1, U1, L2, U2.
  unfold lon in Hin, Hout, Hin'.
  rewrite inline_longitude_eq in Hin, Hout, Hin'.
  destruct (inline_normalise_cases
              (Inline.eclipticLongitude Math_sin Math_PI (e - 60000)%Z)
              (getLahiriAyanamsha (e - 60000)%Z))
    as (n1 & c1 & X10 & X11 & E1 & C1).
  destruct (inline_normalise_cases
              (Inline.eclipticLongitude Math_sin Math_PI e)
              (getLahiriAyanamsha e))
    as (n2 & c2 & X20 & X21 & E2 & C2).
  destruct (inline_normalise_cases
              (Inline.eclipticLongitude Math_sin Math_PI (e + 1)%Z)
              (getLahiriAyanamsha (e + 1)%Z))
    as (n3 & c3 & X30 & X31 & E3 & C3).
  rewrite E1 in Hin. rewrite E2 in Hout. rewrite E3 in Hin'.
  clear E1 E2 E3.
  set (x1 := Inline.eclipticLongitude Math_sin Math_PI (e - 60000)%Z) in *.
  set (x2 := Inline.eclipticLongitude Math_sin Math_PI e) in *.
  set (x3 := Inline.eclipticLongitude Math_sin Math_PI (e + 1)%Z) in *.
  set (a1 := getLahiriAyanamsha (e - 60000)%Z) in *.
  set (a2 := getLahiriAyanamsha e) in *.
  set (a3 := getLahiriAyanamsha (e + 1)%Z) in *.
  clearbody x1 x2 x3 a1 a2 a3.
  assert (W1 : n2 = n1 \/ n2 = (n1 - 1)%Z).
  { apply (wrap_count (x1 + 360 * inject_Z n1) (x2 + 360 * inject_Z n2)
             (x2 - x1)); try lra. }
  assert (W2 : n3 = n2 \/ n3 = (n2 - 1)%Z).
  { apply (wrap_count (x2 + 360 * inject_Z n2) (x3 + 360 * inject_Z n3)
             (x3 - x2)); try lra. }
  assert (I1 : inject_Z (n1 - 1) == inject_Z n1 - 1).
  { unfold Z.sub. rewrite inject_Z_plus. reflexivity. }
  assert (I2 : inject_Z (n1 - 1 - 1) == inject_Z n1 - 2).
  { replace (n1 - 1 - 1)%Z with (n1 + -2)%Z by lia.
    rewrite inject_Z_plus. reflexivity. }
  destruct W1 as [-> | ->]; destruct W2 as [-> | ->];
    destruct C1 as [[-> C1]|[[-> C1]|[-> C1]]];
    destruct C2 as [[-> C2]|[[-> C2]|[-> C2]]];
    destruct C3 as [[-> C3]|[[-> C3]|[-> C3]]];
    change (inject_Z 1) with 1 in *; change (inject_Z 0) with 0 in *;
    change (inject_Z (-1)) with (-1) in *;
    try rewrite I2 in *; try rewrite I1 in *;
    set (k := inject_Z n1) in *; clearbody k; clear I1 I2;
    destruct Hout; lra.
Qed.

End InlineExit.

(** ** Instants at which the normalisation is complete *)

Lemma ayanamsha_within_a_turn (t : Instant) :
  - 861000000000000 <= t <= 760000000000000 ->
  (- 360 < getLahiriAyanamsha t /\ getLahiriAyanamsha t <= 360)%Q.
Proof.
  intros [Hlo Hhi]. rewrite ayanamsha_affine.
  assert (L : (inject_Z (- 861000000000000) <= inject_Z t)%Q)
    by (rewrite <- Zle_Qle; exact Hlo).
  assert (U : (inject_Z t <= inject_Z 760000000000000)%Q)
    by (rewrite <- Zle_Qle; exact Hhi).
  change (inject_Z (- 861000000000000)) with (- 861000000000000)%Q in L.
  change (inject_Z 760000000000000) with 760000000000000%Q in U.
  split; lra.
Qed.

Lemma ayanamsha_positive_era (t : Instant) :
  0 <= t <= 760000000000000 ->
  (0 <= getLahiriAyanamsha t /\ getLahiriAyanamsha t <= 360)%Q.
Proof.
  intros [Hlo Hhi]. rewrite ayanamsha_affine.
  assert (L : (inject_Z 0 <= inject_Z t)%Q)
    by (rewrite <- Zle_Qle; exact Hlo).
  assert (U : (inject_Z t <= inject_Z 760000000000000)%Q)
    by (rewrite <- Zle_Qle; exact Hhi).
  change (inject_Z 0) with 0%Q in L.
  change (inject_Z 760000000000000) with 760000000000000%Q in U.
  split; lra.
Qed.

(** From [BAND_GONE] on the ayanamsha is past 533 degrees and a third. *)
Lemma ayanamsha_band_gone (t : Instant) :
  BAND_GONE <= t -> ((1600 # 3) <= getLahiriAyanamsha t)%Q.
Proof.
  unfold BAND_GONE. intro H. rewrite ayanamsha_affine.
  assert (H' : (inject_Z 1151879383034401 <= inject_Z t)%Q)
    by (rewrite <- Zle_Qle; exact H).
  change (inject_Z 1151879383034401) with 1151879383034401%Q in H'.
  lra.
Qed.

Section InlineCivil.

Local Open Scope Q_scope.

Variable Math_sin : Q -> Q.
Variable Math_PI : Q.

Hypothesis sin_like : sine_like Math_sin.
Hypothesis PI_like : pi_like Math_PI.

Let lon := Inline.getMoonSiderealLongitude Math_sin Math_PI.
Let raw := inline_unnormalised Math_sin Math_PI.

Lemma lon_range (t : Instant) :
  (- 861000000000000 <= t <= 760000000000000)%Z ->
  0 <= lon t /\ lon t < 360.
Proof.
  intro Ht. unfold lon. rewrite inline_longitude_eq.
  destruct (ayanamsha_within_a_turn t Ht) as [A0 A1].
  apply inline_normalise_range; assumption.
Qed.

End InlineCivil.

Section InlineReach.

Local Open Scope Q_scope.

Variable Math_sin : Q -> Q.
Variable Math_PI : Q.

Hypothesis sin_like : sine_like Math_sin.
Hypothesis PI_like : pi_like Math_PI.

Let lon := Inline.getMoonSiderealLongitude Math_sin Math_PI.
Let raw := inline_unnormalised Math_sin Math_PI.

(** A longitude one whole number of turns away from a value of the band,
    and itself within [0, 360), is in the band. *)
Lemma band_modulo_turns (l x : Q) (n : Z) :
  0 <= l -> l < 360 -> l == x + 360 * inject_Z n ->
  (560 # 3) <= x -> x < 200 ->
  Inline.isSwathi l = true.
Proof.
  intros L0 L1 E X0 X1. apply inline_isSwathi_true.
  destruct (Z_lt_le_dec n 0) as [C|C].
  - assert (Hc : inject_Z n + 1 <= 0).
    { change 1 with (inject_Z 1). change 0 with (inject_Z 0).
      rewrite <- inject_Z_plus, <- Zle_Qle. lia. }
    lra.
  - destruct (Z_lt_le_dec 0 n) as [C'|C'].
    + assert (Hc : 1 <= inject_Z n).
      { change 1 with (inject_Z 1). rewrite <- Zle_Qle. lia. }
      lra.
    + assert (n = 0%Z) by lia. subst n. change (inject_Z 0) with 0 in E.
      split; lra.
Qed.

(** Outside the band, one of the coarse probes of the next 30 days is in
    the band: the Moon goes round in less than that, and a coarse step
    moves it by less than the width of the band. *)
Lemma inline_reaches_band (ref : Instant) :
  (- 861000000000000 <= ref <= 759000000000000)%Z ->
  Inline.isSwathi (lon ref) = false ->
  exists k : nat,
    (k <= 1440)%nat
    /\ Inline.isSwathi (lon (ref + Z.of_nat k * Inline.coarseStep)%Z) = true.
Proof.
  intros [Hlo Hhi] Hout.
  apply inline_isSwathi_false in Hout.
  destruct (lon_range Math_sin Math_PI ref ltac:(lia)) as [A0 A1].
  fold lon in A0, A1.
  (* the distance to the lower end of the band, going forward *)
  assert (Hgap : exists gap turn : Q,
             0 < gap /\ gap <= 347
             /\ lon ref + gap == (560 # 3) + 360 * turn
             /\ (turn == 0 \/ turn == 1)).
  { destruct Hout as [H|H].
    - exists ((560 # 3) - lon ref), 0.
      split; [lra|]. split; [lra|]. split; [lra|]. left. reflexivity.
    - exists ((560 # 3) + 360 - lon ref), 1.
      split; [lra|]. split; [lra|]. split; [lra|]. right. reflexivity. }
  destruct Hgap as (gap & turn & G0 & G1 & G2 & G3).
  set (target := raw ref + gap).
  set (below := fun d : Instant => Qlt_bool (raw d) target).
  destruct sin_like as [Hbound _].
  assert (Hfar : below (ref + Z.of_nat 1440 * Inline.coarseStep)%Z = false).
  { unfold below. apply Qlt_bool_false.
    destruct (raw_increment Math_sin Math_PI Hbound ref
                (Z.of_nat 1440 * Inline.coarseStep)
                ltac:(change Inline.coarseStep with 1800000%Z; lia)
                ltac:(lia)
                ltac:(change Inline.coarseStep with 1800000%Z; lia))
      as [L _].
    fold raw in L.
    change (inject_Z (Z.of_nat 1440 * Inline.coarseStep)) with 2592000000
      in L.
    unfold target. lra. }
  destruct (exits_at_first below ref Inline.coarseStep 1440 Hfar)
    as (k & Hk & [Hreach Hbefore]).
  exists k. split; [exact Hk|].
  unfold below in Hreach, Hbefore. apply Qlt_bool_false in Hreach.
  destruct k as [|k'].
  { exfalso. replace (ref + Z.of_nat 0 * Inline.coarseStep)%Z with ref
      in Hreach by lia.
    unfold target in Hreach. lra. }
  specialize (Hbefore k' ltac:(lia)). apply Qlt_bool_true in Hbefore.
  set (t1 := (ref + Z.of_nat k' * Inline.coarseStep)%Z) in *.
  assert (Ht1 : (ref <= t1 <= ref + 2592000000)%Z).
  { subst t1. change Inline.coarseStep with 1800000%Z. lia. }
  replace (ref + Z.of_nat (S k') * Inline.coarseStep)%Z
    with (t1 + 1800000)%Z in *
    by (subst t1; change Inline.coarseStep with 1800000%Z; lia).
  destruct (raw_increment_fine Math_sin Math_PI
              (conj Hbound (proj2 sin_like)) PI_like t1 1800000
              ltac:(lia) ltac:(lia) ltac:(lia)) as [L1 U1].
  fold raw in L1, U1. change (inject_Z 1800000) with 1800000 in L1, U1.
  destruct (lon_range Math_sin Math_PI (t1 + 1800000)%Z ltac:(lia))
    as [B0 B1].
  fold lon in B0, B1.
  destruct (lon_turns Math_sin Math_PI ref) as [n Hn].
  destruct (lon_turns Math_sin Math_PI (t1 + 1800000)%Z) as [n' Hn'].
  fold lon in Hn, Hn'. fold raw in Hn, Hn'.
  unfold target in *.
  set (x := raw (t1 + 1800000)%Z - raw ref - gap + (560 # 3)).
  assert (X0 : (560 # 3) <= x) by (unfold x; lra).
  assert (X1 : x < 200) by (unfold x; lra).
  destruct G3 as [G3|G3].
  - apply (band_modulo_turns _ x (n' - n)); try assumption.
    unfold x, Z.sub. rewrite inject_Z_plus, inject_Z_opp. lra.
  - apply (band_modulo_turns _ x (n' - n + 1)); try assumption.
    unfold x, Z.sub. rewrite !inject_Z_plus, inject_Z_opp.
    change (inject_Z 1) with 1. lra.
Qed.

End InlineReach.

(** ** Runs of the inline locator on the lunar signal *)

Section InlineRuns.

Variable Math_sin : Q -> Q.
Variable Math_PI : Q.

Hypothesis sin_bound : forall x, (- 1 <= Math_sin x /\ Math_sin x <= 1)%Q.

Let lon := Inline.getMoonSiderealLongitude Math_sin Math_PI.

Lemma inline_leaves_forward (t : Instant) :
  - 8645000000000000 <= t -> t + 259200000 <= 8645000000000000 ->
  Inline.isSwathi (lon t) = true ->
  exists k : nat,
    Inline.isSwathi (lon (t + Z.of_nat k * Inline.coarseStep)) = false.
Proof.
  intros Hlo Hhi Hin. exists 144%nat.
  change (Z.of_nat 144 * Inline.coarseStep) with 259200000.
  apply (inline_leaves_band Math_sin Math_PI sin_bound t Hlo Hhi Hin).
Qed.

Lemma inline_leaves_backward (t : Instant) :
  - 8645000000000000 <= t - 259200000 -> t <= 8645000000000000 ->
  Inline.isSwathi (lon t) = true ->
  exists k : nat,
    Inline.isSwathi (lon (t + Z.of_nat k * - Inline.coarseStep)) = false.
Proof.
  intros Hlo Hhi Hin. exists 144%nat.
  change (Z.of_nat 144 * - Inline.coarseStep) with (- 259200000).
  destruct (Inline.isSwathi (lon (t + - 259200000))) eqn:E; [|reflexivity].
  pose proof (inline_leaves_band Math_sin Math_PI sin_bound
                (t + - 259200000) ltac:(lia) ltac:(lia) E) as H.
  replace (t + - 259200000 + 259200000) with t in H by lia.
  fold lon in H. congruence.
Qed.

(** Every run within the range of valid dates returns a period or
    exhausts the horizon. *)
Lemma inline_run_total (ref : Instant) :
  searchable ref ->
  (exists p, inline_run (fun d => Inline.isSwathi (lon d)) ref p)
  \/ inline_exhausted (fun d => Inline.isSwathi (lon d)) ref.
Proof.
  intros [Hlo Hhi]. apply inline_run_exists.
  - intro Hin. apply inline_leaves_backward; try lia. exact Hin.
  - intros t Ht Hin. change Inline.horizon with 2592000000 in Ht.
    apply inline_leaves_forward; try lia. exact Hin.
Qed.

End InlineRuns.

Section InlineSuccession.

Variable Math_sin : Q -> Q.
Variable Math_PI : Q.

Hypothesis sin_like : sine_like Math_sin.
Hypothesis PI_like : pi_like Math_PI.

Let lon := Inline.getMoonSiderealLongitude Math_sin Math_PI.

(** One millisecond after the end of a period the Moon is outside the
    band. *)
Lemma inline_next_outside (ref : Instant) (p : NakshatraPeriod) :
  inline_run (fun d => Inline.isSwathi (lon d)) ref p -> searchable (end_ p) -> Inline.isSwathi (lon (end_ p + 1)) = false.
Proof.
  intros Hrun [Hlo Hhi].
  destruct (inline_run_spec _ _ _ Hrun) as (_ & _ & E1 & E2 & _).
  apply (inline_no_reentry Math_sin Math_PI sin_like PI_like (end_ p));
    try lia; assumption.
Qed.

(** So a run from there is a search forward, and the period it finds
    starts later. *)
Lemma inline_next_order (ref : Instant) (p p2 : NakshatraPeriod) :
  inline_run (fun d => Inline.isSwathi (lon d)) ref p -> searchable (end_ p) ->
  inline_run (fun d => Inline.isSwathi (lon d)) (end_ p + 1) p2 ->
  end_ p + 1 < start p2.
Proof.
  intros Hrun Hs Hrun2.
  pose proof (inline_next_outside ref p Hrun Hs) as Hout.
  destruct (inline_run_spec _ _ _ Hrun2) as (_ & _ & _ & _ & _ & Hord).
  rewrite Hout in Hord. exact Hord.
Qed.

(** A run from a reference of the era in which the normalisation is
    complete finds a period. *)
Lemma inline_run_civil (ref : Instant) :
  - 861000000000000 <= ref <= 759000000000000 ->
  exists p, inline_run (fun d => Inline.isSwathi (lon d)) ref p.
Proof.
  intros [Hlo Hhi].
  destruct (inline_run_total Math_sin Math_PI (proj1 sin_like) ref
              ltac:(unfold searchable; lia)) as [Hp|Hex]; [exact Hp|].
  exfalso.
  pose proof (Hex O ltac:(lia)) as H0. cbv beta in H0.
  replace (ref + Z.of_nat 0 * Inline.coarseStep) with ref in H0 by lia.
  destruct (inline_reaches_band Math_sin Math_PI sin_like PI_like ref
              ltac:(lia) H0) as (k & Hk & Hin).
  specialize (Hex k Hk). cbv beta in Hex. unfold lon in Hex.
  rewrite Hin in Hex. discriminate.
Qed.

(** The run that starts one millisecond after the end of a period. *)
Lemma inline_next_run (ref : Instant) (p : NakshatraPeriod) :
  inline_run (fun d => Inline.isSwathi (lon d)) ref p ->
  civil (end_ p) ->
  exists p2, inline_run (fun d => Inline.isSwathi (lon d)) (end_ p + 1) p2 /\ end_ p + 1 < start p2.
Proof.
  intros Hrun [Hlo Hhi].
  destruct (inline_run_civil (end_ p + 1) ltac:(lia)) as [p2 Hp2].
  exists p2. split; [exact Hp2|].
  apply (inline_next_order ref p p2 Hrun); [unfold searchable; lia|exact Hp2].
Qed.

(** A period is over before the band is gone. *)
Lemma inline_run_before_gone (ref : Instant) (p : NakshatraPeriod) :
  inline_run (fun d => Inline.isSwathi (lon d)) ref p ->
  start p < BAND_GONE /\ end_ p - 60000 < BAND_GONE.
Proof.
  intro Hrun.
  destruct (inline_run_spec _ _ _ Hrun) as (S1 & _ & E1 & _).
  split.
  - destruct (Z_lt_le_dec (start p) BAND_GONE) as [H|H]; [exact H|].
    exfalso. unfold lon in S1.
    rewrite (inline_band_vanishes _ _ _ (ayanamsha_band_gone _ H)) in S1.
    discriminate.
  - destruct (Z_lt_le_dec (end_ p - 60000) BAND_GONE) as [H|H]; [exact H|].
    exfalso. unfold lon in E1.
    rewrite (inline_band_vanishes _ _ _ (ayanamsha_band_gone _ H)) in E1.
    discriminate.
Qed.

(** Following the periods one after the other from any of them, one comes
    to a period after which the search is exhausted. *)
Lemma inline_periods_end (n : nat) :
  forall ref p,
    inline_run (fun d => Inline.isSwathi (lon d)) ref p ->
    - 8000000000000000 <= end_ p ->
    BAND_GONE - start p <= Z.of_nat n ->
    exists ref' p',
      inline_run (fun d => Inline.isSwathi (lon d)) ref' p' /\ inline_exhausted (fun d => Inline.isSwathi (lon d)) (end_ p' + 1).
Proof.
  induction n as [|n IH]; intros ref p Hrun Hlo Hn.
  - exfalso. destruct (inline_run_before_gone ref p Hrun). lia.
  - destruct (inline_run_before_gone ref p Hrun) as [Hs He].
    destruct (inline_run_spec _ _ _ Hrun) as (_ & _ & _ & _ & Hlt & _).
    assert (Hsearch : searchable (end_ p)).
    { unfold searchable. unfold BAND_GONE in *. lia. }
    destruct (inline_run_total Math_sin Math_PI (proj1 sin_like)
                (end_ p + 1)
                ltac:(unfold searchable; unfold BAND_GONE in *; lia))
      as [[p2 Hp2]|Hex].
    + pose proof (inline_next_order ref p p2 Hrun Hsearch Hp2) as Hord.
      destruct (inline_run_spec _ _ _ Hp2) as (_ & _ & _ & _ & Hlt2 & _).
      apply (IH (end_ p + 1) p2 Hp2); lia.
    + exists ref, p. split; assumption.
Qed.

(** Whatever the sine, some period is the last one: the search that starts
    one millisecond after its end is exhausted. *)
Lemma inline_last_period :
  exists fuel ref p,
    Inline.findCurrentOrNextSwathiPeriod Math_sin Math_PI fuel ref = Ok p
    /\ forall fuel2, (1440 < fuel2)%nat ->
         Inline.findCurrentOrNextSwathiPeriod Math_sin Math_PI fuel2
           (end_ p + 1) = Throw SearchExhausted.
Proof.
  destruct (inline_run_civil J2000 ltac:(unfold J2000; lia)) as [p0 Hp0].
  destruct (inline_run_spec _ _ _ Hp0) as (S1 & S2 & E1 & E2 & Hlt & Hord).
  assert (Hlo : - 8000000000000000 <= end_ p0).
  { destruct (Inline.isSwathi (lon J2000)); unfold J2000 in *; lia. }
  destruct (inline_periods_end (Z.to_nat (BAND_GONE - start p0)) J2000 p0 Hp0
              Hlo ltac:(lia)) as (ref & p & Hrun & Hex).
  destruct (inline_locator_complete _ _ _ Hrun) as [fuel Hfuel].
  exists fuel, ref, p. split.
  - rewrite inline_locate_eq. apply Hfuel. lia.
  - intros fuel2 Hf. rewrite inline_locate_eq.
    apply inline_locator_raise; assumption.
Qed.

End InlineSuccession.

(** * Runs and claims *)

(** ** Runs of the code on concrete hosts *)

(** The inline locator ten minutes before the Moon enters Swathi on
    2024-01-05, with the periodic terms switched off. *)
Lemma inline_example :
  Inline.findCurrentOrNextSwathiPeriod noSine PI_double 64 1704426240000
  = Ok {| start := 1704426840000; end_ := 1704514260000 |}.
Proof. rewrite inline_locate_mean. vm_compute. reflexivity. Qed.

(** The service on 2024-01-01T00:00:00Z with the mean-motion library. *)
Lemma calculator_example :
  Calculator.findCurrentOrNextSwathiPeriod PI_double windowLoaded 128
    1704067200000
  = Ok {| start := 1704426840000; end_ := 1704516840000 |}.
Proof. vm_compute. reflexivity. Qed.

Lemma noSine_sine_like : sine_like noSine.
Proof.
  split.
  - intro x. split; discriminate.
  - intros x y. unfold noSine. apply Qabs_nonneg.
Qed.

Lemma PI_double_pi_like : pi_like PI_double.
Proof. split; discriminate. Qed.

(** ** The band predicate *)

(** C7: isSwathi returns true exactly for the longitudes l with
    14 * (360 / 27) <= l < 15 * (360 / 27), lower bound included and upper
    bound excluded, in both files; isSwathi(186.667) is true and
    isSwathi(200.0) is false. *)
Theorem isSwathi_half_open :
  (forall l : Q,
      (Inline.isSwathi l = true
       <-> (14 * (360 / 27) <= l /\ l < 15 * (360 / 27))%Q)
      /\ (Calculator.isSwathi l = true
          <-> (14 * (360 / 27) <= l /\ l < 15 * (360 / 27))%Q))
  /\ Inline.isSwathi 186.667 = true /\ Inline.isSwathi 200.0 = false
  /\ Calculator.isSwathi 186.667 = true /\ Calculator.isSwathi 200.0 = false.
Proof.
  split; [|repeat split].
  intro l. destruct isSwathi_bounds as (Hs & He & Hs' & He').
  split.
  - unfold Inline.isSwathi.
    rewrite andb_true_iff, Qge_bool_true, Qlt_bool_true, Hs, He.
    reflexivity.
  - unfold Calculator.isSwathi.
    rewrite andb_true_iff, Qge_bool_true, Qlt_bool_true, Hs', He'.
    reflexivity.
Qed.

(** ** The ayanamsha *)

(** C10: the ayanamsha is 23.85575 + years(t) * (50.29 / 3600) with
    years(t) the milliseconds elapsed since 2000-01-01T12:00:00Z divided by
    86400000 * 365.25; at that epoch it is 23.85575 exactly. *)
Theorem ayanamsha_formula :
  (forall t : Instant, getLahiriAyanamsha t == ayanamsha_spec t)%Q
  /\ (getLahiriAyanamsha J2000 == 23.85575)%Q
  /\ Qred (getLahiriAyanamsha J2000) = Qred 23.85575.
Proof.
  split; [|split].
  - intro t. unfold getLahiriAyanamsha, ayanamsha_spec, years_since_epoch.
    cbv zeta. unfold Z.sub. rewrite inject_Z_plus, inject_Z_opp. field.
  - reflexivity.
  - reflexivity.
Qed.

(** ** The sidereal longitude *)

(** Past two turns of ayanamsha the longitude of the inline series is
    negative, whatever the sine. *)
Lemma inline_longitude_negative Math_sin Math_PI (t : Instant) :
  (720 <= getLahiriAyanamsha t)%Q ->
  (Inline.getMoonSiderealLongitude Math_sin Math_PI t < 0)%Q.
Proof.
  intro Hay. rewrite inline_longitude_eq. apply inline_normalise_far.
  exact Hay.
Qed.

(** ** Returned periods *)

(** C4: the period returned by locate has start <= end. *)
Theorem period_start_le_end :
  (forall Math_sin Math_PI fuel reference p,
      Inline.findCurrentOrNextSwathiPeriod Math_sin Math_PI fuel reference
      = Ok p ->
      start p <= end_ p)
  /\ (forall Math_PI window fuel reference p,
        Calculator.findCurrentOrNextSwathiPeriod Math_PI window fuel
          reference = Ok p ->
        start p <= end_ p).
Proof.
  split.
  - intros Math_sin Math_PI fuel reference p H.
    apply inline_locate_run in H.
    destruct (inline_run_spec _ _ _ H) as (_ & _ & _ & _ & Hlt & _). lia.
  - intros Math_PI window fuel reference p H.
    apply calculator_locate_run in H. destruct H as (lib & _ & H).
    destruct (calculator_run_spec _ _ _ H) as (_ & _ & _ & Hlt & _). lia.
Qed.

Lemma period_start_le_end_witness :
  (exists p,
      Inline.findCurrentOrNextSwathiPeriod noSine PI_double 64 1704426240000
      = Ok p /\ start p <= end_ p)
  /\ (exists p,
        Calculator.findCurrentOrNextSwathiPeriod PI_double windowLoaded 128
          1704067200000 = Ok p /\ start p <= end_ p).
Proof.
  split.
  - eexists. split; [exact inline_example|].
    exact (proj1 period_start_le_end noSine PI_double 64%nat 1704426240000 _
             inline_example).
  - eexists. split; [exact calculator_example|].
    exact (proj2 period_start_le_end PI_double windowLoaded 128%nat
             1704067200000 _ calculator_example).
Defined.

(** C5: the sidereal longitude at the start of the returned period is
    inside the band and the one 60 seconds earlier is outside, whether the
    reference was inside the band (Mode A) or outside (Mode B). *)
Theorem period_start_is_band_entry :
  (forall Math_sin Math_PI fuel reference p,
      Inline.findCurrentOrNextSwathiPeriod Math_sin Math_PI fuel reference
      = Ok p ->
      Inline.isSwathi
        (Inline.getMoonSiderealLongitude Math_sin Math_PI (start p)) = true
      /\ Inline.isSwathi
           (Inline.getMoonSiderealLongitude Math_sin Math_PI
              (start p - 60000)) = false)
  /\ (forall Math_PI window fuel reference p,
        Calculator.findCurrentOrNextSwathiPeriod Math_PI window fuel
          reference = Ok p ->
        exists l l',
          Calculator.getLunarSiderealLongitude Math_PI window (start p)
          = Ok l
          /\ Calculator.isSwathi l = true
          /\ Calculator.getLunarSiderealLongitude Math_PI window
               (start p - 60000) = Ok l'
          /\ Calculator.isSwathi l' = false).
Proof.
  split.
  - intros Math_sin Math_PI fuel reference p H.
    destruct (inline_locate_spec _ _ _ _ _ H) as (S1 & S2 & _).
    split; assumption.
  - intros Math_PI window fuel reference p H.
    apply calculator_locate_run in H. destruct H as (lib & Hw & H).
    destruct (calculator_run_spec _ _ _ H) as (S1 & S2 & _).
    exists (calculator_longitude Math_PI lib (start p)),
      (calculator_longitude Math_PI lib (start p - 60000)).
    rewrite !(calculator_longitude_loaded _ _ lib _ Hw).
    repeat split; assumption.
Qed.

Lemma period_start_is_band_entry_witness :
  (Inline.isSwathi
     (Inline.getMoonSiderealLongitude noSine PI_double 1704426840000) = true
   /\ Inline.isSwathi
        (Inline.getMoonSiderealLongitude noSine PI_double
           (1704426840000 - 60000)) = false)
  /\ exists l l',
       Calculator.getLunarSiderealLongitude PI_double windowLoaded
         1704426840000 = Ok l
       /\ Calculator.isSwathi l = true
       /\ Calculator.getLunarSiderealLongitude PI_double windowLoaded
            (1704426840000 - 60000) = Ok l'
       /\ Calculator.isSwathi l' = false.
Proof.
  split.
  - exact (proj1 period_start_is_band_entry noSine PI_double 64%nat
             1704426240000 _ inline_example).
  - exact (proj2 period_start_is_band_entry PI_double windowLoaded 128%nat
             1704067200000 _ calculator_example).
Defined.

(** The end of the period of the inline locator: the last fine instant
    found in the band plus one fine step, so that the longitude 60 seconds
    before the end is inside the band and the one at the end is outside. *)
Lemma inline_end_is_refined Math_sin Math_PI fuel reference p :
  Inline.findCurrentOrNextSwathiPeriod Math_sin Math_PI fuel reference
  = Ok p ->
  Inline.isSwathi
    (Inline.getMoonSiderealLongitude Math_sin Math_PI (end_ p - 60000))
  = true
  /\ Inline.isSwathi
       (Inline.getMoonSiderealLongitude Math_sin Math_PI (end_ p)) = false.
Proof.
  intro H. destruct (inline_locate_spec _ _ _ _ _ H) as (_ & _ & E1 & E2 & _).
  split; assumption.
Qed.

Lemma inline_end_is_refined_witness :
  Inline.isSwathi
    (Inline.getMoonSiderealLongitude noSine PI_double
       (1704514260000 - 60000)) = true
  /\ Inline.isSwathi
       (Inline.getMoonSiderealLongitude noSine PI_double 1704514260000)
     = false.
Proof.
  exact (inline_end_is_refined noSine PI_double 64%nat 1704426240000 _
           inline_example).
Defined.

(** The end of the period of the service: the first one-hour probe outside
    the band, counted from the reference (Mode A) or from the start
    (Mode B); nothing is refined. *)
Lemma calculator_end_is_coarse Math_PI window fuel reference p :
  Calculator.findCurrentOrNextSwathiPeriod Math_PI window fuel reference
  = Ok p ->
  exists lib (kf : nat),
    Calculator.SunCalc window = Some lib
    /\ calculator_band Math_PI lib (end_ p) = false
    /\ (end_ p = reference + Z.of_nat kf * 3600000
        \/ end_ p = start p + Z.of_nat kf * 3600000).
Proof.
  intro H. apply calculator_locate_run in H. destruct H as (lib & Hw & H).
  destruct (calculator_run_spec _ _ _ H) as (_ & _ & E & _ & _ & kf & Hk & _).
  exists lib, kf. split; [exact Hw|]. split; [exact E|].
  change Calculator.coarseStep with 3600000 in Hk.
  destruct (calculator_band Math_PI lib reference); [left|right]; exact Hk.
Qed.

Lemma calculator_end_is_coarse_witness :
  exists lib (kf : nat),
    Calculator.SunCalc windowLoaded = Some lib
    /\ calculator_band PI_double lib 1704516840000 = false
    /\ (1704516840000 = 1704067200000 + Z.of_nat kf * 3600000
        \/ 1704516840000 = 1704426840000 + Z.of_nat kf * 3600000).
Proof.
  exact (calculator_end_is_coarse PI_double windowLoaded 128%nat
           1704067200000 _ calculator_example).
Defined.

(** C3 fails on the service: from 2024-01-01T00:00:00Z, over the
    mean-motion library, it returns a period whose end is
    2024-01-06T04:54:00Z, and the longitude 60 seconds before that end is
    already outside the band. *)
Theorem calculator_end_not_refined :
  Calculator.findCurrentOrNextSwathiPeriod PI_double windowLoaded 128
    1704067200000
  = Ok {| start := 1704426840000; end_ := 1704516840000 |}
  /\ exists l,
       Calculator.getLunarSiderealLongitude PI_double windowLoaded
         (1704516840000 - 60000) = Ok l
       /\ Calculator.isSwathi l = false.
Proof.
  split; [exact calculator_example|].
  eexists. split; [reflexivity|]. vm_compute. reflexivity.
Qed.

(** ** The last period *)

(** Whatever the sine, the periods come to an end: the instance for the
    sine that is switched off. *)
Lemma inline_last_period_witness :
  exists fuel ref p,
    Inline.findCurrentOrNextSwathiPeriod noSine PI_double fuel ref = Ok p
    /\ forall fuel2, (1440 < fuel2)%nat ->
         Inline.findCurrentOrNextSwathiPeriod noSine PI_double fuel2
           (end_ p + 1) = Throw SearchExhausted.
Proof.
  exact (inline_last_period noSine PI_double noSine_sine_like
           PI_double_pi_like).
Defined.

(** * The countdown, the notifier and the components *)

(** ** The countdown *)

Lemma Qtrunc_floor (q : Q) : (0 <= q)%Q -> Qtrunc q = Qfloor q.
Proof. intro H. unfold Qtrunc. apply Qle_bool_iff in H. rewrite H. reflexivity. Qed.

(** [Math.floor(x % m)] on a quotient of positive integers. *)
Lemma floor_rem_quotient (d c m : Z) :
  0 <= d -> 0 < c -> 0 < m ->
  Qfloor (Qrem (inject_Z d / inject_Z c) (inject_Z m)) = (d / c) mod m.
Proof.
  intros Hd Hc Hm. unfold Qrem.
  assert (Hc' : (0 < inject_Z c)%Q)
    by (change 0%Q with (inject_Z 0); rewrite <- Zlt_Qlt; exact Hc).
  assert (Hx : (0 <= inject_Z d / inject_Z c)%Q).
  { apply Qle_shift_div_l.
    - exact Hc'.
    - rewrite Qmult_0_l. change 0%Q with (inject_Z 0). rewrite <- Zle_Qle.
      exact Hd. }
  assert (Hm' : (0 < inject_Z m)%Q)
    by (change 0%Q with (inject_Z 0); rewrite <- Zlt_Qlt; exact Hm).
  assert (Hxm : (0 <= inject_Z d / inject_Z c / inject_Z m)%Q).
  { apply Qle_shift_div_l; [exact Hm'|]. rewrite Qmult_0_l. exact Hx. }
  rewrite (Qtrunc_floor _ Hxm).
  assert (E : (inject_Z d / inject_Z c / inject_Z m
               == inject_Z d / inject_Z (c * m))%Q).
  { rewrite inject_Z_mult. field. split; intro; lra. }
  rewrite (Qfloor_comp _ _ E), <- Zdiv_Qdiv.
  rewrite <- inject_Z_mult.
  assert (E2 : (inject_Z d / inject_Z c - inject_Z (m * (d / (c * m)))
                == inject_Z (d - c * (m * (d / (c * m)))) / inject_Z c)%Q).
  { unfold Z.sub. rewrite inject_Z_plus, inject_Z_opp, !inject_Z_mult.
    field. intro; lra. }
  rewrite (Qfloor_comp _ _ E2), <- Zdiv_Qdiv.
  rewrite <- Z.div_div by lia.
  rewrite Z.mod_eq by lia.
  replace (d - c * (m * (d / c / m))) with (d + (- (m * (d / c / m))) * c)
    by ring.
  rewrite Z.div_add by lia. ring.
Qed.

(** The fields of a countdown to a target that lies ahead, in integer
    arithmetic. *)
Lemma countdown_fields (now targetDate : Instant) :
  0 < targetDate - now ->
  calculateCountdown now (Some targetDate)
  = {| days := (targetDate - now) / 86400000;
       hours := ((targetDate - now) / 3600000) mod 24;
       minutes := ((targetDate - now) / 60000) mod 60;
       seconds := ((targetDate - now) / 1000) mod 60 |}.
Proof.
  intro Hpos. unfold calculateCountdown. cbv zeta.
  destruct (targetDate - now <=? 0) eqn:E; [apply Z.leb_le in E; lia|].
  set (d := targetDate - now) in *.
  assert (Hd : 0 <= d) by lia.
  f_equal.
  - change (1000 * 60 * 60 * 24)%Q with (inject_Z 86400000).
    symmetry. apply Zdiv_Qdiv.
  - change (1000 * 60 * 60)%Q with (inject_Z 3600000).
    change 24%Q with (inject_Z 24).
    apply floor_rem_quotient; lia.
  - assert (E1 : (inject_Z d / 1000 / 60 == inject_Z d / inject_Z 60000)%Q)
      by (change (inject_Z 60000) with 60000%Q; field).
    rewrite (Qfloor_comp _ _ (Qrem_comp _ _ 60 E1)).
    change 60%Q with (inject_Z 60).
    apply floor_rem_quotient; lia.
  - change 1000%Q with (inject_Z 1000). change 60%Q with (inject_Z 60).
    apply floor_rem_quotient; lia.
Qed.

(** Days, hours, minutes and seconds of a number of milliseconds add up to
    its whole seconds. *)
Lemma hms_sum (d : Z) :
  0 <= d ->
  ((d / 86400000 * 24 + (d / 3600000) mod 24) * 60 + (d / 60000) mod 60)
  * 60 + (d / 1000) mod 60
  = d / 1000.
Proof.
  intro Hd.
  set (s := d / 1000).
  replace (d / 60000) with (s / 60)
    by (unfold s; rewrite Z.div_div by lia; reflexivity).
  replace (d / 3600000) with (s / 60 / 60)
    by (unfold s; rewrite !Z.div_div by lia; reflexivity).
  replace (d / 86400000) with (s / 60 / 60 / 24)
    by (unfold s; rewrite !Z.div_div by lia; reflexivity).
  pose proof (Z.div_mod s 60 ltac:(lia)).
  pose proof (Z.div_mod (s / 60) 60 ltac:(lia)).
  pose proof (Z.div_mod (s / 60 / 60) 24 ltac:(lia)).
  lia.
Qed.

(** Each of them within its unit. *)
Lemma hms_bounds (d : Z) :
  0 <= d ->
  0 <= d / 86400000 /\ 0 <= (d / 3600000) mod 24 < 24
  /\ 0 <= (d / 60000) mod 60 < 60 /\ 0 <= (d / 1000) mod 60 < 60.
Proof.
  intro Hd.
  pose proof (Z.div_pos d 86400000 Hd ltac:(lia)).
  pose proof (Z.mod_pos_bound (d / 3600000) 24 ltac:(lia)).
  pose proof (Z.mod_pos_bound (d / 60000) 60 ltac:(lia)).
  pose proof (Z.mod_pos_bound (d / 1000) 60 ltac:(lia)).
  lia.
Qed.

(** A countdown is all zeros, or the fields of the time left. *)
Lemma countdown_cases (now : Instant) (targetDate : option Instant) :
  calculateCountdown now targetDate = NO_COUNTDOWN
  \/ exists d : Z,
       0 < d
       /\ calculateCountdown now targetDate
          = {| days := d / 86400000;
               hours := (d / 3600000) mod 24;
               minutes := (d / 60000) mod 60;
               seconds := (d / 1000) mod 60 |}.
Proof.
  destruct targetDate as [targetDate|]; [|left; reflexivity].
  destruct (Z_lt_le_dec 0 (targetDate - now)) as [Hpos|Hneg].
  - right. exists (targetDate - now). split; [exact Hpos|].
    apply countdown_fields. exact Hpos.
  - left. unfold calculateCountdown. cbv zeta.
    destruct (targetDate - now <=? 0) eqn:E;
      [reflexivity|apply Z.leb_gt in E; lia].
Qed.

(** What is shown is the number of whole seconds left, in days, hours,
    minutes and seconds. *)
Theorem countdown_whole_seconds (now targetDate : Instant) :
  0 < targetDate - now ->
  let c := calculateCountdown now (Some targetDate) in
  ((days c * 24 + hours c) * 60 + minutes c) * 60 + seconds c
  = (targetDate - now) / 1000.
Proof.
  intro Hpos. cbv zeta. rewrite (countdown_fields _ _ Hpos).
  cbn [days hours minutes seconds]. apply hms_sum. lia.
Qed.

Lemma countdown_whole_seconds_witness :
  let c := calculateCountdown 1704426240000 (Some 1704426840000) in
  ((days c * 24 + hours c) * 60 + minutes c) * 60 + seconds c
  = (1704426840000 - 1704426240000) / 1000.
Proof.
  apply (countdown_whole_seconds 1704426240000 1704426840000). lia.
Defined.

(** Every field stays within its unit, whatever the target and the
    clock. *)
Theorem countdown_ranges (now : Instant) (targetDate : option Instant) :
  let c := calculateCountdown now targetDate in
  0 <= days c /\ 0 <= hours c < 24 /\ 0 <= minutes c < 60
  /\ 0 <= seconds c < 60.
Proof.
  cbv zeta.
  destruct (countdown_cases now targetDate) as [E|(d & Hd & E)]; rewrite E.
  - cbn. repeat split; lia.
  - cbn [days hours minutes seconds]. apply hms_bounds. lia.
Qed.

(** The countdown is all zeros exactly when there is no target or less
    than a second is left. *)
Theorem countdown_zero_iff (now : Instant) (targetDate : option Instant) :
  calculateCountdown now targetDate = NO_COUNTDOWN
  <-> match targetDate with
      | None => True
      | Some targetDate => targetDate - now < 1000
      end.
Proof.
  destruct targetDate as [targetDate|]; [|split; reflexivity || trivial].
  destruct (Z_lt_le_dec 0 (targetDate - now)) as [Hpos|Hneg].
  - pose proof (hms_sum (targetDate - now) ltac:(lia)) as W.
    rewrite (countdown_fields _ _ Hpos). unfold NO_COUNTDOWN. split.
    + intro E. injection E as E1 E2 E3 E4.
      rewrite E1, E2, E3, E4 in W. cbn in W.
      symmetry in W. apply Z.div_small_iff in W; lia.
    + intro Hlt.
      assert (H1 : (targetDate - now) / 1000 = 0)
        by (apply Z.div_small; lia).
      assert (H2 : (targetDate - now) / 60000 = 0)
        by (apply Z.div_small; lia).
      assert (H3 : (targetDate - now) / 3600000 = 0)
        by (apply Z.div_small; lia).
      assert (H4 : (targetDate - now) / 86400000 = 0)
        by (apply Z.div_small; lia).
      rewrite H1, H2, H3, H4. reflexivity.
  - split; [intros _; lia|]. intros _. unfold calculateCountdown. cbv zeta.
    destruct (targetDate - now <=? 0) eqn:E;
      [reflexivity|apply Z.leb_gt in E; lia].
Qed.

(** Announcements: at every tick of the last minute, and otherwise exactly
    when the whole seconds left are a multiple of five minutes. *)
Theorem shouldAnnounce_iff (now targetDate : Instant) :
  0 < targetDate - now ->
  shouldAnnounce (calculateCountdown now (Some targetDate)) = true
  <-> targetDate - now < 60000
      \/ ((targetDate - now) / 1000) mod 300 = 0.
Proof.
  intro Hpos.
  pose proof (hms_sum (targetDate - now) ltac:(lia)) as W.
  rewrite (countdown_fields _ _ Hpos). unfold shouldAnnounce.
  cbn [days hours minutes seconds].
  set (d := targetDate - now) in *.
  pose proof (Z.div_pos d 86400000 ltac:(lia) ltac:(lia)) as RD.
  pose proof (Z.mod_pos_bound (d / 3600000) 24 ltac:(lia)) as RH.
  pose proof (Z.mod_pos_bound (d / 60000) 60 ltac:(lia)) as RM.
  pose proof (Z.mod_pos_bound (d / 1000) 60 ltac:(lia)) as RS.
  set (cd := d / 86400000) in *. set (ch := (d / 3600000) mod 24) in *.
  set (cm := (d / 60000) mod 60) in *. set (cs := (d / 1000) mod 60) in *.
  rewrite orb_true_iff, !andb_true_iff, !Z.eqb_eq.
  rewrite Z.rem_mod_nonneg by lia.
  pose proof (Z.div_mod d 1000 ltac:(lia)) as D0.
  pose proof (Z.mod_pos_bound d 1000 ltac:(lia)) as B0.
  pose proof (Z.div_mod cm 5 ltac:(lia)) as D5.
  pose proof (Z.mod_pos_bound cm 5 ltac:(lia)) as B5.
  assert (E300 : (d / 1000) mod 300 = 60 * (cm mod 5) + cs).
  { rewrite <- W.
    replace (((cd * 24 + ch) * 60 + cm) * 60 + cs)
      with (60 * (cm mod 5) + cs
            + (cd * 288 + ch * 12 + cm / 5) * 300) by lia.
    rewrite Z.mod_add by lia. apply Z.mod_small. lia. }
  rewrite E300. split.
  - intros [[Hm Hs]|[[Hd Hh] Hm]]; [right; lia|left; lia].
  - intros [Hlt|Hz].
    + right. assert (d / 1000 < 60) by (apply Z.div_lt_upper_bound; lia).
      lia.
    + left. lia.
Qed.

Lemma shouldAnnounce_iff_witness :
  shouldAnnounce (calculateCountdown 1704426240000 (Some 1704426840000))
  = true
  <-> 1704426840000 - 1704426240000 < 60000
      \/ ((1704426840000 - 1704426240000) / 1000) mod 300 = 0.
Proof. apply (shouldAnnounce_iff 1704426240000 1704426840000). lia. Defined.

(** ** The text of the countdown *)

Lemma two_digits_below_100 :
  forallb two_digits (List.seq 0 100) = true.
Proof. vm_compute. reflexivity. Qed.

(** A value below 100 is shown as two characters that read back as the
    value. *)
Lemma CountdownUnit_text_small (value : Z) :
  0 <= value < 100 ->
  String.length (CountdownUnit_text value) = 2%nat
  /\ number_of_String (CountdownUnit_text value) = Some value.
Proof.
  intro H.
  pose proof (proj1 (forallb_forall two_digits (List.seq 0 100))
                two_digits_below_100 (Z.to_nat value)) as T.
  assert (I : In (Z.to_nat value) (List.seq 0 100))
    by (apply in_seq; lia).
  specialize (T I). unfold two_digits in T.
  rewrite Z2Nat.id in T by lia.
  apply andb_true_iff in T. destruct T as [T1 T2].
  apply Nat.eqb_eq in T1. split; [exact T1|].
  destruct (number_of_String (CountdownUnit_text value)) as [v|];
    [|discriminate].
  apply Z.eqb_eq in T2. subst v. reflexivity.
Qed.

(** Hours, minutes and seconds of a countdown are always shown as two
    characters, which read back as the field; the days take two characters
    or more. *)
Theorem countdown_text_two_digits (now : Instant)
    (targetDate : option Instant) :
  let c := calculateCountdown now targetDate in
  (String.length (CountdownUnit_text (hours c)) = 2%nat
   /\ number_of_String (CountdownUnit_text (hours c)) = Some (hours c))
  /\ (String.length (CountdownUnit_text (minutes c)) = 2%nat
      /\ number_of_String (CountdownUnit_text (minutes c))
         = Some (minutes c))
  /\ (String.length (CountdownUnit_text (seconds c)) = 2%nat
      /\ number_of_String (CountdownUnit_text (seconds c))
         = Some (seconds c))
  /\ (2 <= String.length (CountdownUnit_text (days c)))%nat.
Proof.
  cbv zeta.
  assert (R : 0 <= days (calculateCountdown now targetDate)
              /\ 0 <= hours (calculateCountdown now targetDate) < 24
              /\ 0 <= minutes (calculateCountdown now targetDate) < 60
              /\ 0 <= seconds (calculateCountdown now targetDate) < 60).
  { destruct (countdown_cases now targetDate) as [E|(d & Hd & E)];
      rewrite E.
    - cbn. repeat split; lia.
    - cbn [days hours minutes seconds]. apply hms_bounds. lia. }
  destruct R as (RD & RH & RM & RS).
  split; [apply CountdownUnit_text_small; lia|].
  split; [apply CountdownUnit_text_small; lia|].
  split; [apply CountdownUnit_text_small; lia|].
  unfold CountdownUnit_text, padStart.
  set (s := String_of_number (days (calculateCountdown now targetDate))).
  assert (L : forall a b : string,
             String.length (a ++ b)%string
             = (String.length a + String.length b)%nat).
  { induction a as [|c a IH]; intro b; cbn; [reflexivity|].
    rewrite IH. reflexivity. }
  assert (Lp : forall n c, String.length (padding n c) = n).
  { induction n as [|n IH]; intro c; cbn; [reflexivity|].
    rewrite IH. reflexivity. }
  rewrite L, Lp. lia.
Qed.

(** ** The notifier *)

(** Once the start of a period has been notified, the renders for that
    period show nothing. *)
Lemma notifier_quiet (start_ : Instant) (events : list Notifier.Event) :
  (forall props, In (Notifier.Render props) events ->
     Notifier.nextSwathiStart props = Some start_
     \/ Notifier.nextSwathiStart props = None) ->
  forall s, Notifier.lastNotified s = Some start_ ->
    snd (Notifier.run events s) = nil
    /\ Notifier.lastNotified (fst (Notifier.run events s)) = Some start_.
Proof.
  induction events as [|e events IH]; intros Hall s Hs.
  - split; [reflexivity|exact Hs].
  - cbn [Notifier.run].
    assert (Hstep : snd (Notifier.step e s) = nil
                    /\ Notifier.lastNotified (fst (Notifier.step e s))
                       = Some start_).
    { destruct e as [props|status]; cbn [Notifier.step].
      - unfold Notifier.notifyEffect.
        destruct (Hall props (or_introl eq_refl)) as [E|E]; rewrite E.
        + rewrite Hs. cbn [Notifier.differs]. rewrite Z.eqb_refl.
          cbn [negb]. rewrite andb_false_r. split; [reflexivity|exact Hs].
        + split; [reflexivity|exact Hs].
      - split; [reflexivity|exact Hs]. }
    destruct (Notifier.step e s) as [s' shown]. cbn [fst snd] in Hstep.
    destruct Hstep as [-> Hs'].
    destruct (IH (fun props H => Hall props (or_intror H)) s' Hs')
      as [Hq Hl].
    destruct (Notifier.run events s') as [s'' shown']. cbn [fst snd] in *.
    subst shown'. split; [reflexivity|exact Hl].
Qed.

(** While it stays mounted the notifier shows at most one notification for
    one period, whatever the renders and the changes of permission. *)
Theorem notifier_at_most_once (start_ : Instant)
    (events : list Notifier.Event) (s : Notifier.State) :
  (forall props, In (Notifier.Render props) events ->
     Notifier.nextSwathiStart props = Some start_
     \/ Notifier.nextSwathiStart props = None) ->
  (List.length (snd (Notifier.run events s)) <= 1)%nat.
Proof.
  revert s. induction events as [|e events IH]; intros s Hall.
  - cbn. lia.
  - cbn [Notifier.run].
    pose proof (IH) as IH'.
    destruct e as [props|status]; cbn [Notifier.step].
    + unfold Notifier.notifyEffect.
      destruct (Hall props (or_introl eq_refl)) as [E|E]; rewrite E.
      * destruct (Notifier.isSwathiActive props
                  && Notifier.is_granted (Notifier.permission s)
                  && Notifier.differs start_ (Notifier.lastNotified s)).
        -- destruct (notifier_quiet start_ events
                       (fun props H => Hall props (or_intror H))
                       {| Notifier.permission := Notifier.permission s;
                          Notifier.lastNotified := Some start_ |}
                       eq_refl) as [Hq _].
           destruct (Notifier.run events _) as [s'' shown'].
           cbn [snd] in Hq. subst shown'. cbn. lia.
        -- specialize (IH s (fun props H => Hall props (or_intror H))).
           destruct (Notifier.run events s) as [s'' shown'].
           cbn [snd app] in *. exact IH.
      * specialize (IH s (fun props H => Hall props (or_intror H))).
        destruct (Notifier.run events s) as [s'' shown'].
        cbn [snd app] in *. exact IH.
    + specialize (IH {| Notifier.permission := status;
                        Notifier.lastNotified := Notifier.lastNotified s |}
                    (fun props H => Hall props (or_intror H))).
      destruct (Notifier.run events _) as [s'' shown'].
      cbn [snd app] in *. exact IH.
Qed.

Lemma notifier_at_most_once_witness :
  (List.length
     (snd (Notifier.run
             (Notifier.SetPermission Notifier.granted
              :: Notifier.Render
                   {| Notifier.isSwathiActive := true;
                      Notifier.nextSwathiStart := Some 1704426840000%Z |}
              :: Notifier.Render
                   {| Notifier.isSwathiActive := true;
                      Notifier.nextSwathiStart := Some 1704426840000%Z |}
              :: nil)
             Notifier.initial)) <= 1)%nat.
Proof.
  apply (notifier_at_most_once 1704426840000).
  intros props [H|[H|[H|[]]]]; try discriminate;
    inversion H; left; reflexivity.
Defined.

(** * More on the periods of the locators *)

(** ** Where the returned period lies *)

(** The scans move by whole fine steps. *)
Lemma inline_run_grid P ref p :
  inline_run P ref p ->
  exists a b : Z,
    start p = ref + a * 60000 /\ end_ p = ref + b * 60000.
Proof.
  unfold inline_run, start_inside, start_outside, end_refined.
  change Inline.coarseStep with 1800000. change Inline.fineStep with 60000.
  destruct (P ref).
  - intros [(kb & jf & _ & _ & ->) (kf & jb & _ & _ & ->)].
    exists (Z.of_nat jf - 30 * Z.of_nat kb),
      (30 * Z.of_nat kf - Z.of_nat jb + 1).
    split; lia.
  - intros (_ & (ks & js & _ & _ & Hs) & (kf & jb & _ & _ & ->)).
    rewrite Hs.
    exists (30 * Z.of_nat ks - Z.of_nat js),
      (30 * Z.of_nat ks - Z.of_nat js + 30 * Z.of_nat kf - Z.of_nat jb + 1).
    split; lia.
Qed.

Lemma calculator_run_grid P ref p :
  calculator_run P ref p ->
  exists a b : Z,
    start p = ref + a * 60000 /\ end_ p = ref + b * 60000.
Proof.
  unfold calculator_run, start_inside, start_outside, end_coarse.
  change Calculator.coarseStep with 3600000.
  change Calculator.fineStep with 60000.
  destruct (P ref).
  - intros [(kb & jf & _ & _ & ->) (kf & _ & ->)].
    exists (Z.of_nat jf - 60 * Z.of_nat kb), (60 * Z.of_nat kf).
    split; lia.
  - intros ((ks & js & _ & _ & Hs) & (kf & _ & ->)).
    rewrite Hs.
    exists (60 * Z.of_nat ks - Z.of_nat js),
      (60 * Z.of_nat ks - Z.of_nat js + 60 * Z.of_nat kf).
    split; lia.
Qed.

(** The search forward of the inline locator stops within the horizon. *)
Lemma inline_run_horizon P ref p :
  inline_run P ref p -> start p <= ref + Inline.horizon.
Proof.
  intro H. pose proof (inline_run_spec _ _ _ H) as (_ & _ & _ & _ & _ & Hord).
  unfold inline_run in H. destruct (P ref).
  - change Inline.horizon with 2592000000. lia.
  - destruct H as ((ks0 & Hks0 & Hlim) & (ks & js & Hks & _ & Hs) & _).
    pose proof (exits_at_unique _ _ _ _ _ Hks0 Hks); subst ks0.
    rewrite Hs. change Inline.fineStep with 60000. lia.
Qed.

(** A run whose band is left within three days in each direction returns
    a period of six days and a minute at most. *)
Lemma inline_run_span P ref p :
  (P ref = true ->
   P (ref - 259200000) = false /\ P (ref + 259200000) = false) ->
  (P (start p) = true -> P (start p + 259200000) = false) ->
  inline_run P ref p ->
  end_ p - start p <= 518460000.
Proof.
  intros Href Hstart H.
  pose proof (inline_run_spec _ _ _ H) as (S1 & _).
  specialize (Hstart S1).
  unfold inline_run, start_inside, start_outside, end_refined in H.
  change Inline.coarseStep with 1800000 in H.
  change Inline.fineStep with 60000 in H.
  destruct (P ref) eqn:E.
  - destruct (Href eq_refl) as [Hb Hf].
    destruct H as [(kb & jf & [_ Hkb] & _ & Hs) (kf & jb & [_ Hkf] & _ & He)].
    assert (Bb : (kb <= 144)%nat).
    { destruct (le_lt_dec kb 144) as [L|L]; [exact L|].
      specialize (Hkb 144%nat L).
      assert (T : P (ref - 259200000) = true)
        by (rewrite <- Hkb; f_equal; lia).
      congruence. }
    assert (Bf : (kf <= 144)%nat).
    { destruct (le_lt_dec kf 144) as [L|L]; [exact L|].
      specialize (Hkf 144%nat L).
      assert (T : P (ref + 259200000) = true)
        by (rewrite <- Hkf; f_equal; lia).
      congruence. }
    lia.
  - destruct H as (_ & _ & (kf & jb & [_ Hkf] & _ & He)).
    assert (Bf : (kf <= 144)%nat).
    { destruct (le_lt_dec kf 144) as [L|L]; [exact L|].
      specialize (Hkf 144%nat L).
      assert (T : P (start p + 259200000) = true)
        by (rewrite <- Hkf; f_equal; lia).
      congruence. }
    lia.
Qed.

(** Two whole numbers of turns that bring a value into [0, 360) are the
    same. *)
Lemma turn_unique (r : Q) (n m : Z) :
  (0 <= r + 360 * inject_Z n -> r + 360 * inject_Z n < 360 ->
   0 <= r + 360 * inject_Z m -> r + 360 * inject_Z m < 360 -> n = m)%Q.
Proof.
  intros A0 A1 B0 B1.
  destruct (Z_lt_le_dec n m) as [C|C].
  - exfalso.
    assert (Hc : (inject_Z n + 1 <= inject_Z m)%Q).
    { change 1%Q with (inject_Z 1). rewrite <- inject_Z_plus, <- Zle_Qle.
      lia. }
    lra.
  - destruct (Z_lt_le_dec m n) as [C'|C']; [exfalso|lia].
    assert (Hc : (inject_Z m + 1 <= inject_Z n)%Q).
    { change 1%Q with (inject_Z 1). rewrite <- inject_Z_plus, <- Zle_Qle.
      lia. }
    lra.
Qed.

(** What the analysis of a returned period starts from. *)
Lemma inline_run_frame P ref p :
  (P ref = true -> start p <= ref < end_ p ->
   P (ref - 259200000) = false /\ P (ref + 259200000) = false) ->
  (P (start p) = true -> P (start p + 259200000) = false) ->
  inline_run P ref p ->
  P (start p) = true /\ P (start p - 60000) = false
  /\ P (end_ p - 60000) = true /\ P (end_ p) = false
  /\ start p <= end_ p - 60000
  /\ end_ p - start p <= 518460000.
Proof.
  intros Href Hstart H.
  destruct (inline_run_spec _ _ _ H) as (S1 & S2 & E1 & E2 & Hlt & Hord).
  destruct (inline_run_grid _ _ _ H) as (a & b & Ha & Hb).
  repeat (split; [assumption|]). split; [lia|].
  apply (inline_run_span P ref p); try assumption.
  intro E. apply Href; [exact E|]. rewrite E in Hord. exact Hord.
Qed.

Section InlinePeriodShape.

Variable Math_sin : Q -> Q.
Variable Math_PI : Q.

Hypothesis sin_like : sine_like Math_sin.
Hypothesis PI_like : pi_like Math_PI.

Let lon := Inline.getMoonSiderealLongitude Math_sin Math_PI.
Let raw := inline_unnormalised Math_sin Math_PI.

(** In the era of complete normalisation: from a longitude [a] at [t], in
    the band, the longitude [d] milliseconds later is [a] plus what the
    unnormalised longitude has gained, as long as that stays below 360. *)
Lemma lon_advance (t d : Z) :
  0 <= d -> - 861000000000000 <= t -> t + d <= 760000000000000 ->
  (lon t + (raw (t + d)%Z - raw t) < 360)%Q ->
  (lon (t + d)%Z == lon t + (raw (t + d)%Z - raw t))%Q.
Proof.
  intros Hd Hlo Hhi Hroom.
  destruct (lon_range Math_sin Math_PI t ltac:(lia)) as [A0 A1].
  destruct (lon_range Math_sin Math_PI (t + d) ltac:(lia)) as [B0 B1].
  destruct (lon_turns Math_sin Math_PI t) as [n Hn].
  destruct (lon_turns Math_sin Math_PI (t + d)) as [n' Hn'].
  destruct (raw_increment_fine Math_sin Math_PI sin_like PI_like t d
              Hd ltac:(lia) ltac:(lia)) as [L _].
  assert (Hd' : (0 <= inject_Z d)%Q)
    by (change 0%Q with (inject_Z 0); rewrite <- Zle_Qle; exact Hd).
  fold lon in A0, A1, B0, B1, Hn, Hn'. fold raw in Hn, Hn', L.
  assert (E : n' = n).
  { apply (turn_unique (raw (t + d))); lra. }
  subst n'. lra.
Qed.

(** The same when the gain takes the longitude past 360. *)
Lemma lon_advance_round (t d : Z) :
  0 <= d -> - 861000000000000 <= t -> t + d <= 760000000000000 ->
  (360 <= lon t + (raw (t + d)%Z - raw t))%Q ->
  (raw (t + d)%Z - raw t <= 360)%Q ->
  (lon (t + d)%Z == lon t + (raw (t + d)%Z - raw t) - 360)%Q.
Proof.
  intros Hd Hlo Hhi Hround Hgain.
  destruct (lon_range Math_sin Math_PI t ltac:(lia)) as [A0 A1].
  destruct (lon_range Math_sin Math_PI (t + d) ltac:(lia)) as [B0 B1].
  destruct (lon_turns Math_sin Math_PI t) as [n Hn].
  destruct (lon_turns Math_sin Math_PI (t + d)) as [n' Hn'].
  fold lon in A0, A1, B0, B1, Hn, Hn'. fold raw in Hn, Hn'.
  assert (I : (inject_Z (n - 1) == inject_Z n - 1)%Q).
  { unfold Z.sub. rewrite inject_Z_plus. reflexivity. }
  assert (E : n' = (n - 1)%Z).
  { apply (turn_unique (raw (t + d))); try rewrite I; lra. }
  subst n'. rewrite I in Hn'. lra.
Qed.

(** A returned period of that era, one minute short, lies in the band
    throughout, and lasts between 19 hours 43 minutes and 31 hours 32
    minutes. *)
Lemma inline_period_shape (ref : Instant) (p : NakshatraPeriod) :
  inline_run (fun d => Inline.isSwathi (lon d)) ref p ->
  civil (start p) -> civil (end_ p) ->
  71000000 < end_ p - start p < 113500000
  /\ forall t, start p <= t <= end_ p - 60000 ->
       Inline.isSwathi (lon t) = true.
Proof.
  intros Hrun [Sl Sh] [El Eh].
  destruct (inline_run_frame (fun d => Inline.isSwathi (lon d)) ref p)
    as (S1 & S2 & E1 & E2 & Hle & Hspan); [| |exact Hrun|].
  - intros Hin [R0 R1]. split.
    + destruct (Inline.isSwathi (lon (ref - 259200000))) eqn:E;
        [|reflexivity].
      pose proof (inline_leaves_band Math_sin Math_PI (proj1 sin_like)
                    (ref - 259200000) ltac:(lia) ltac:(lia) E) as H.
      replace (ref - 259200000 + 259200000) with ref in H by lia.
      fold lon in H. rewrite H in Hin. discriminate.
    + apply (inline_leaves_band Math_sin Math_PI (proj1 sin_like) ref);
        try lia. exact Hin.
  - intro Hin.
    apply (inline_leaves_band Math_sin Math_PI (proj1 sin_like) (start p));
      try lia. exact Hin.
  - cbv beta in S1, S2, E1, E2.
    set (s := start p) in *. set (e := end_ p) in *.
    apply inline_isSwathi_true in S1, E1.
    apply inline_isSwathi_false in S2, E2.
    (* one minute before the start, and the last minute *)
    destruct (raw_increment_fine Math_sin Math_PI sin_like PI_like
                (s - 60000) 60000 ltac:(lia) ltac:(lia) ltac:(lia))
      as [Ls Us].
    destruct (raw_increment_fine Math_sin Math_PI sin_like PI_like
                (e - 60000) 60000 ltac:(lia) ltac:(lia) ltac:(lia))
      as [Le Ue].
    replace (s - 60000 + 60000) with s in Ls, Us by lia.
    replace (e - 60000 + 60000) with e in Le, Ue by lia.
    change (inject_Z 60000) with 60000%Q in Ls, Us, Le, Ue.
    fold raw in Ls, Us, Le, Ue.
    destruct (lon_range Math_sin Math_PI (s - 60000) ltac:(lia))
      as [P0 P1].
    fold lon in P0, P1.
    pose proof (lon_advance (s - 60000) 60000 ltac:(lia) ltac:(lia)
                  ltac:(lia)) as As.
    replace (s - 60000 + 60000) with s in As by lia.
    pose proof (lon_advance (e - 60000) 60000 ltac:(lia) ltac:(lia)
                  ltac:(lia)) as Ae.
    replace (e - 60000 + 60000) with e in Ae by lia.
    specialize (Ae ltac:(lra)).
    assert (Hend : (200 - 0.011257 <= lon (e - 60000)%Z)%Q)
      by (destruct E2; lra).
    assert (Hbeg : (lon s <= (560 # 3) + 0.011257)%Q).
    { destruct (Qlt_le_dec
                  (lon (s - 60000)%Z + (raw s - raw (s - 60000)%Z))
                  360) as [C|C].
      - specialize (As C). destruct S2; lra.
      - pose proof (lon_advance_round (s - 60000) 60000 ltac:(lia)
                      ltac:(lia) ltac:(lia)) as Ar.
        replace (s - 60000 + 60000) with s in Ar by lia.
        specialize (Ar C ltac:(lra)). lra. }
    (* from the start to the last minute *)
    assert (Hgain : forall t, s <= t <= e - 60000 ->
              (lon t == lon s + (raw t - raw s)
               /\ 371000 * (inject_Z (t - s) * (1 # 3155760000000))
                  <= raw t - raw s
               /\ raw t - raw s
                  <= 592000 * (inject_Z (t - s) * (1 # 3155760000000))
               /\ raw t <= raw (e - 60000)%Z)%Q).
    { intros t [T0 T1].
      destruct (raw_increment_fine Math_sin Math_PI sin_like PI_like
                  s (t - s) ltac:(lia) ltac:(lia) ltac:(lia)) as [L U].
      destruct (raw_increment_fine Math_sin Math_PI sin_like PI_like
                  t (e - 60000 - t) ltac:(lia) ltac:(lia) ltac:(lia))
        as [L' _].
      replace (s + (t - s)) with t in L, U by lia.
      replace (t + (e - 60000 - t)) with (e - 60000) in L' by lia.
      fold raw in L, U, L'.
      assert (Hd : (0 <= inject_Z (e - 60000 - t))%Q)
        by (change 0%Q with (inject_Z 0); rewrite <- Zle_Qle; lia).
      assert (Hd' : (inject_Z (t - s) <= 518400000)%Q).
      { change 518400000%Q with (inject_Z 518400000).
        rewrite <- Zle_Qle. lia. }
      pose proof (lon_advance s (t - s) ltac:(lia) ltac:(lia) ltac:(lia))
        as A.
      replace (s + (t - s)) with t in A by lia.
      specialize (A ltac:(lra)).
      repeat split; try assumption. lra. }
    destruct (Hgain (e - 60000) ltac:(lia)) as (G1 & G2 & G3 & _).
    split.
    + assert (Hq : (inject_Z (e - 60000 - s) == inject_Z (e - s) - 60000)%Q).
      { unfold Z.sub. rewrite !inject_Z_plus, !inject_Z_opp.
        change (inject_Z 60000) with 60000%Q. ring. }
      rewrite Hq in G2, G3.
      split.
      * rewrite Zlt_Qlt. change (inject_Z 71000000) with 71000000%Q. lra.
      * rewrite Zlt_Qlt. change (inject_Z 113500000) with 113500000%Q.
        lra.
    + intros t Ht. destruct (Hgain t Ht) as (T1 & T2 & T3 & T4).
      assert (Hd : (0 <= inject_Z (t - s))%Q)
        by (change 0%Q with (inject_Z 0); rewrite <- Zle_Qle; lia).
      apply inline_isSwathi_true. lra.
Qed.

End InlinePeriodShape.

(** A scan does not pass a probe at which its test fails. *)
Lemma exits_at_before P d step (k n : nat) :
  exits_at P d step k -> P (d + Z.of_nat n * step) = false -> (k <= n)%nat.
Proof.
  intros [_ Hk] Hn. destruct (le_lt_dec k n) as [L|L]; [exact L|].
  rewrite (Hk n L) in Hn. discriminate.
Qed.

(** ** No visit between two probes *)

Section InlineGap.

Variable Math_sin : Q -> Q.
Variable Math_PI : Q.

Hypothesis sin_like : sine_like Math_sin.
Hypothesis PI_like : pi_like Math_PI.

Let lon := Inline.getMoonSiderealLongitude Math_sin Math_PI.
Let raw := inline_unnormalised Math_sin Math_PI.

(** In the era of complete normalisation the Moon gains less than 0.34
    degree in half an hour, and the band is 13 degrees and a third wide:
    between two instants outside the band no more than half an hour
    apart, the Moon is outside the band. *)
Lemma inline_no_short_visit (a t b : Z) :
  a <= t <= b -> b - a <= 1800000 ->
  - 861000000000000 <= a -> b <= 760000000000000 ->
  Inline.isSwathi (lon a) = false -> Inline.isSwathi (lon b) = false ->
  Inline.isSwathi (lon t) = false.
Proof.
  intros [Hat Htb] Hab Hlo Hhi Pa Pb.
  destruct (Inline.isSwathi (lon t)) eqn:Pt; [exfalso|reflexivity].
  apply inline_isSwathi_true in Pt.
  apply inline_isSwathi_false in Pa. apply inline_isSwathi_false in Pb.
  destruct (lon_range Math_sin Math_PI a ltac:(lia)) as [A0 A1].
  fold lon in A0, A1.
  destruct (raw_increment_fine Math_sin Math_PI sin_like PI_like t (b - t)
              ltac:(lia) ltac:(lia) ltac:(lia)) as [L1 U1].
  destruct (raw_increment_fine Math_sin Math_PI sin_like PI_like a (t - a)
              ltac:(lia) ltac:(lia) ltac:(lia)) as [L2 U2].
  destruct (raw_increment_fine Math_sin Math_PI sin_like PI_like a (b - a)
              ltac:(lia) ltac:(lia) ltac:(lia)) as [L3 U3].
  replace (t + (b - t)) with b in L1, U1 by lia.
  replace (a + (t - a)) with t in L2, U2 by lia.
  replace (a + (b - a)) with b in L3, U3 by lia.
  fold raw in L1, U1, L2, U2, L3, U3.
  assert (D1 : (0 <= inject_Z (b - t) /\ inject_Z (b - t) <= 1800000)%Q).
  { split.
    - change 0%Q with (inject_Z 0). rewrite <- Zle_Qle. lia.
    - change 1800000%Q with (inject_Z 1800000). rewrite <- Zle_Qle. lia. }
  assert (D2 : (0 <= inject_Z (t - a) /\ inject_Z (t - a) <= 1800000)%Q).
  { split.
    - change 0%Q with (inject_Z 0). rewrite <- Zle_Qle. lia.
    - change 1800000%Q with (inject_Z 1800000). rewrite <- Zle_Qle. lia. }
  assert (D3 : (0 <= inject_Z (b - a) /\ inject_Z (b - a) <= 1800000)%Q).
  { split.
    - change 0%Q with (inject_Z 0). rewrite <- Zle_Qle. lia.
    - change 1800000%Q with (inject_Z 1800000). rewrite <- Zle_Qle. lia. }
  set (d1 := inject_Z (b - t)) in *. set (d2 := inject_Z (t - a)) in *.
  set (d3 := inject_Z (b - a)) in *. clearbody d1 d2 d3.
  pose proof (lon_advance Math_sin Math_PI sin_like PI_like t (b - t)
                ltac:(lia) ltac:(lia) ltac:(lia)) as Eb.
  replace (t + (b - t)) with b in Eb by lia.
  fold lon in Eb. fold raw in Eb.
  assert (Eb' : (lon b == lon t + (raw b - raw t))%Q).
  { apply Eb. clear - Pt U1 D1. lra. }
  clear Eb.
  destruct (Qlt_le_dec (lon a + (raw t - raw a)) 360) as [C|C].
  - pose proof (lon_advance Math_sin Math_PI sin_like PI_like a (t - a)
                  ltac:(lia) ltac:(lia) ltac:(lia)) as Et.
    replace (a + (t - a)) with t in Et by lia.
    fold lon in Et. fold raw in Et. specialize (Et C).
    clear - Pt Pa Pb L1 U1 L2 U2 L3 U3 D1 D2 D3 Eb' Et.
    destruct Pa as [Pa|Pa]; destruct Pb as [Pb|Pb]; lra.
  - pose proof (lon_advance_round Math_sin Math_PI a
                  (t - a) ltac:(lia) ltac:(lia) ltac:(lia)) as Et.
    replace (a + (t - a)) with t in Et by lia.
    fold lon in Et. fold raw in Et.
    assert (Et' : (lon t == lon a + (raw t - raw a) - 360)%Q).
    { apply Et; [exact C|]. clear - U2 D2. lra. }
    clear - Pt A1 U2 D2 Et'. lra.
Qed.

(** Outside the band at the reference, the search forward skips no
    visit: the Moon is outside the band up to one minute before the start
    of the period. *)
Lemma inline_run_skips_nothing (ref : Instant) (p : NakshatraPeriod) :
  inline_run (fun d => Inline.isSwathi (lon d)) ref p ->
  civil ref -> civil (start p) ->
  forall t, ref <= t <= start p - 60000 ->
    Inline.isSwathi (lon t) = false.
Proof.
  intros Hrun [Rl Rh] [Sl Sh] t [Ht1 Ht2].
  destruct (inline_run_spec _ _ _ Hrun) as (S1 & S2 & _ & _ & _ & Hord).
  revert Hrun. unfold inline_run.
  destruct (Inline.isSwathi (lon ref)) eqn:E; [lia|].
  intros [_ [(ks & js & Hks & Hjs & Hs) _]].
  change Inline.coarseStep with 1800000 in *.
  change Inline.fineStep with 60000 in *.
  assert (Pks : (0 < ks)%nat).
  { apply (exits_at_pos 1 ltac:(lia)
             (fun d => negb (Inline.isSwathi (lon d))) ref _ _
             (f_equal negb E) Hks). }
  destruct Hks as [Hin Hout].
  assert (Bjs : (js <= 29)%nat).
  { apply (exits_at_before _ _ _ _ _ Hjs). cbn beta.
    specialize (Hout (ks - 1)%nat ltac:(lia)). apply negb_true_iff in Hout.
    rewrite <- Hout. do 2 f_equal. lia. }
  assert (Hprobe : forall k : nat, (k < ks)%nat ->
             Inline.isSwathi (lon (ref + Z.of_nat k * 1800000)) = false).
  { intros k Hk. apply negb_true_iff. exact (Hout k Hk). }
  pose (k := Z.to_nat ((t - ref) / 1800000)).
  assert (Hk : Z.of_nat k = (t - ref) / 1800000).
  { unfold k. apply Z2Nat.id. apply Z.div_pos; lia. }
  pose proof (Z.mul_div_le (t - ref) 1800000 ltac:(lia)) as D1.
  pose proof (Z.mul_succ_div_gt (t - ref) 1800000 ltac:(lia)) as D2.
  rewrite <- Hk in D1, D2. clearbody k.
  assert (Kk : (k < ks)%nat) by lia.
  destruct (Nat.eq_dec (S k) ks) as [Hlast|Hmore].
  - apply (inline_no_short_visit (ref + Z.of_nat k * 1800000) t
             (start p - 60000)); try lia.
    + apply Hprobe. exact Kk.
    + exact S2.
  - apply (inline_no_short_visit (ref + Z.of_nat k * 1800000) t
             (ref + Z.of_nat (S k) * 1800000)); try lia.
    + apply Hprobe. exact Kk.
    + apply Hprobe. lia.
Qed.

End InlineGap.

(** ** The period and its reference *)

(** The period of the inline locator and its reference: the period holds
    the reference when the reference is in the band, and otherwise starts
    after it, thirty days later at most.  It is then the next period: for
    a sine with values in [-1, 1] and slope at most 1, pi between 3.14 and
    3.15 and a reference and a start between the years -25283 and 25736,
    the Moon is outside the band all the time from the reference to one
    minute before the start, so that no visit has been passed over. *)
Theorem inline_current_or_next Math_sin Math_PI fuel reference p :
  Inline.findCurrentOrNextSwathiPeriod Math_sin Math_PI fuel reference
  = Ok p ->
  (if Inline.isSwathi
        (Inline.getMoonSiderealLongitude Math_sin Math_PI reference)
   then start p <= reference < end_ p
   else reference < start p <= reference + 2592000000)
  /\ (sine_like Math_sin -> pi_like Math_PI ->
      civil reference -> civil (start p) ->
      forall t, reference <= t <= start p - 60000 ->
        Inline.isSwathi (Inline.getMoonSiderealLongitude Math_sin Math_PI t)
        = false).
Proof.
  intro H. split.
  - destruct (inline_locate_spec _ _ _ _ _ H) as (_ & _ & _ & _ & _ & Hord).
    pose proof (inline_run_horizon _ _ _ (inline_locate_run _ _ _ _ _ H))
      as Hh.
    change Inline.horizon with 2592000000 in Hh.
    destruct (Inline.isSwathi
                (Inline.getMoonSiderealLongitude Math_sin Math_PI
                   reference)).
    + exact Hord.
    + split; [exact Hord|exact Hh].
  - intros Hsin Hpi Hr Hs.
    apply inline_locate_run in H.
    exact (inline_run_skips_nothing Math_sin Math_PI Hsin Hpi reference p
             H Hr Hs).
Qed.

Lemma inline_current_or_next_witness :
  (if Inline.isSwathi
        (Inline.getMoonSiderealLongitude noSine PI_double 1704426240000)
   then start {| start := 1704426840000; end_ := 1704514260000 |}
        <= 1704426240000
        < end_ {| start := 1704426840000; end_ := 1704514260000 |}
   else 1704426240000
        < start {| start := 1704426840000; end_ := 1704514260000 |}
        <= 1704426240000 + 2592000000)
  /\ Inline.isSwathi
       (Inline.getMoonSiderealLongitude noSine PI_double 1704426543210)
     = false.
Proof.
  destruct (inline_current_or_next noSine PI_double 64%nat 1704426240000 _
              inline_example) as [H1 H2].
  split; [exact H1|].
  apply (H2 noSine_sine_like PI_double_pi_like).
  - unfold civil. lia.
  - unfold civil. cbn [start]. lia.
  - cbn [start]. lia.
Defined.

(** So does the service, with no bound on the wait. *)
Theorem calculator_current_or_next Math_PI window fuel reference p :
  Calculator.findCurrentOrNextSwathiPeriod Math_PI window fuel reference
  = Ok p ->
  exists l,
    Calculator.getLunarSiderealLongitude Math_PI window reference = Ok l
    /\ if Calculator.isSwathi l then start p <= reference < end_ p
       else reference < start p.
Proof.
  intro H. apply calculator_locate_run in H. destruct H as (lib & Hw & H).
  destruct (calculator_run_spec _ _ _ H) as (_ & _ & _ & _ & Hord & _).
  exists (calculator_longitude Math_PI lib reference).
  split; [apply calculator_longitude_loaded; exact Hw|exact Hord].
Qed.

Lemma calculator_current_or_next_witness :
  exists l,
    Calculator.getLunarSiderealLongitude PI_double windowLoaded
      1704067200000 = Ok l
    /\ if Calculator.isSwathi l
       then start {| start := 1704426840000; end_ := 1704516840000 |}
            <= 1704067200000
            < end_ {| start := 1704426840000; end_ := 1704516840000 |}
       else 1704067200000
            < start {| start := 1704426840000; end_ := 1704516840000 |}.
Proof.
  exact (calculator_current_or_next PI_double windowLoaded 128%nat
           1704067200000 _ calculator_example).
Defined.

(** Start and end are whole minutes away from the reference, in both
    files: they carry its seconds and milliseconds. *)
Theorem period_on_the_grid_of_the_reference :
  (forall Math_sin Math_PI fuel reference p,
      Inline.findCurrentOrNextSwathiPeriod Math_sin Math_PI fuel reference
      = Ok p ->
      exists a b : Z,
        start p = reference + a * 60000 /\ end_ p = reference + b * 60000)
  /\ (forall Math_PI window fuel reference p,
        Calculator.findCurrentOrNextSwathiPeriod Math_PI window fuel
          reference = Ok p ->
        exists a b : Z,
          start p = reference + a * 60000
          /\ end_ p = reference + b * 60000).
Proof.
  split.
  - intros Math_sin Math_PI fuel reference p H.
    exact (inline_run_grid _ _ _ (inline_locate_run _ _ _ _ _ H)).
  - intros Math_PI window fuel reference p H.
    apply calculator_locate_run in H. destruct H as (lib & _ & H).
    exact (calculator_run_grid _ _ _ H).
Qed.

(** ** The shape of a period of the inline locator *)

(** Between its start and one minute before its end the Moon is in the
    band at every instant, not only at the probes. *)
Theorem inline_period_stays_in_band Math_sin Math_PI :
  sine_like Math_sin -> pi_like Math_PI ->
  forall fuel reference p,
    Inline.findCurrentOrNextSwathiPeriod Math_sin Math_PI fuel reference
    = Ok p ->
    civil (start p) -> civil (end_ p) ->
    forall t, start p <= t <= end_ p - 60000 ->
      Inline.isSwathi (Inline.getMoonSiderealLongitude Math_sin Math_PI t)
      = true.
Proof.
  intros Hsin Hpi fuel reference p H Hs He.
  apply inline_locate_run in H.
  exact (proj2 (inline_period_shape Math_sin Math_PI Hsin Hpi reference p
                  H Hs He)).
Qed.

Lemma inline_period_stays_in_band_witness :
  Inline.isSwathi
    (Inline.getMoonSiderealLongitude noSine PI_double 1704470012345)
  = true.
Proof.
  apply (inline_period_stays_in_band noSine PI_double noSine_sine_like
           PI_double_pi_like 64%nat 1704426240000
           {| start := 1704426840000; end_ := 1704514260000 |}
           inline_example).
  - unfold civil. cbn [start]. lia.
  - unfold civil. cbn [end_]. lia.
  - cbn [start end_]. lia.
Defined.

(** It lasts more than 19 hours 43 minutes and less than 31 hours 32
    minutes. *)
Theorem inline_period_duration Math_sin Math_PI :
  sine_like Math_sin -> pi_like Math_PI ->
  forall fuel reference p,
    Inline.findCurrentOrNextSwathiPeriod Math_sin Math_PI fuel reference
    = Ok p ->
    civil (start p) -> civil (end_ p) ->
    71000000 < end_ p - start p < 113500000.
Proof.
  intros Hsin Hpi fuel reference p H Hs He.
  apply inline_locate_run in H.
  exact (proj1 (inline_period_shape Math_sin Math_PI Hsin Hpi reference p
                  H Hs He)).
Qed.

Lemma inline_period_duration_witness :
  71000000
  < end_ {| start := 1704426840000; end_ := 1704514260000 |}
    - start {| start := 1704426840000; end_ := 1704514260000 |}
  < 113500000.
Proof.
  apply (inline_period_duration noSine PI_double noSine_sine_like
           PI_double_pi_like 64%nat 1704426240000 _ inline_example).
  - unfold civil. cbn [start]. lia.
  - unfold civil. cbn [end_]. lia.
Defined.

(** ** Two calls during one visit of the band *)

(** Two periods over a band test that holds from the start of each to one
    minute before its end and fails one minute before the start and at the
    end: if they overlap, they differ by less than a minute at both
    ends. *)
Lemma periods_agree (P : Instant -> bool) (p1 p2 : NakshatraPeriod) :
  (forall t, start p1 <= t <= end_ p1 - 60000 -> P t = true) ->
  (forall t, start p2 <= t <= end_ p2 - 60000 -> P t = true) ->
  P (start p1 - 60000) = false -> P (end_ p1) = false ->
  P (start p2 - 60000) = false -> P (end_ p2) = false ->
  start p2 < end_ p1 -> start p1 < end_ p2 ->
  Z.abs (start p1 - start p2) < 60000 /\ Z.abs (end_ p1 - end_ p2) < 60000.
Proof.
  intros A B S1 E1 S2 E2 O1 O2. split.
  - destruct (Z_le_gt_dec (start p1 + 60000) (start p2)) as [L|L].
    { rewrite (A (start p2 - 60000) ltac:(lia)) in S2. discriminate. }
    destruct (Z_le_gt_dec (start p2 + 60000) (start p1)) as [L'|L'].
    { rewrite (B (start p1 - 60000) ltac:(lia)) in S1. discriminate. }
    lia.
  - destruct (Z_le_gt_dec (end_ p1 + 60000) (end_ p2)) as [L|L].
    { rewrite (B (end_ p1) ltac:(lia)) in E1. discriminate. }
    destruct (Z_le_gt_dec (end_ p2 + 60000) (end_ p1)) as [L'|L'].
    { rewrite (A (end_ p2) ltac:(lia)) in E2. discriminate. }
    lia.
Qed.

Section InlineAgreement.

Variable Math_sin : Q -> Q.
Variable Math_PI : Q.

Hypothesis sin_like : sine_like Math_sin.
Hypothesis PI_like : pi_like Math_PI.

Lemma inline_runs_agree (ref1 ref2 : Instant) (p1 p2 : NakshatraPeriod) :
  inline_run (inline_band Math_sin Math_PI) ref1 p1 ->
  inline_run (inline_band Math_sin Math_PI) ref2 p2 ->
  civil (start p1) -> civil (end_ p1) ->
  civil (start p2) -> civil (end_ p2) ->
  start p2 < end_ p1 -> start p1 < end_ p2 ->
  Z.abs (start p1 - start p2) < 60000
  /\ Z.abs (end_ p1 - end_ p2) < 60000
  /\ ((exists a : Z, ref2 = ref1 + a * 60000) -> p1 = p2).
Proof.
  intros R1 R2 Cs1 Ce1 Cs2 Ce2 O1 O2.
  destruct (inline_run_spec _ _ _ R1) as (_ & S1 & _ & E1 & _).
  destruct (inline_run_spec _ _ _ R2) as (_ & S2 & _ & E2 & _).
  pose proof (proj2 (inline_period_shape Math_sin Math_PI sin_like PI_like
                       ref1 p1 R1 Cs1 Ce1)) as A.
  pose proof (proj2 (inline_period_shape Math_sin Math_PI sin_like PI_like
                       ref2 p2 R2 Cs2 Ce2)) as B.
  destruct (inline_run_grid _ _ _ R1) as (a1 & b1 & Hs1 & He1).
  destruct (inline_run_grid _ _ _ R2) as (a2 & b2 & Hs2 & He2).
  destruct (periods_agree (inline_band Math_sin Math_PI) p1 p2 A B S1 E1 S2
              E2 O1 O2) as [Hs He].
  clear - Hs He Hs1 He1 Hs2 He2.
  split; [exact Hs|]. split; [exact He|].
  intros [a Ha].
  destruct p1 as [s1 e1], p2 as [s2 e2]. cbn [start end_] in *.
  f_equal; lia.
Qed.

End InlineAgreement.

Lemma inline_example_inside :
  Inline.findCurrentOrNextSwathiPeriod noSine PI_double 64 1704470040000
  = Ok {| start := 1704426840000; end_ := 1704514260000 |}.
Proof. rewrite inline_locate_mean. vm_compute. reflexivity. Qed.

(** For a sine with values in [-1, 1] and slope at most 1, pi between
    3.14 and 3.15 and periods that start and end between the years -25283
    and 25736: two calls of the inline locator whose periods overlap have
    found the same visit of the band; the periods differ by less than a
    minute at both ends, and are the same when the references are a whole
    number of minutes apart. *)
Theorem inline_periods_agree Math_sin Math_PI :
  sine_like Math_sin -> pi_like Math_PI ->
  forall fuel1 reference1 p1 fuel2 reference2 p2,
    Inline.findCurrentOrNextSwathiPeriod Math_sin Math_PI fuel1 reference1
    = Ok p1 ->
    Inline.findCurrentOrNextSwathiPeriod Math_sin Math_PI fuel2 reference2
    = Ok p2 ->
    civil (start p1) -> civil (end_ p1) ->
    civil (start p2) -> civil (end_ p2) ->
    start p2 < end_ p1 -> start p1 < end_ p2 ->
    Z.abs (start p1 - start p2) < 60000
    /\ Z.abs (end_ p1 - end_ p2) < 60000
    /\ ((exists a : Z, reference2 = reference1 + a * 60000) -> p1 = p2).
Proof.
  intros Hsin Hpi fuel1 reference1 p1 fuel2 reference2 p2 H1 H2.
  apply inline_locate_run in H1. apply inline_locate_run in H2.
  exact (inline_runs_agree Math_sin Math_PI Hsin Hpi reference1 reference2
           p1 p2 H1 H2).
Qed.

Lemma inline_periods_agree_witness :
  Z.abs (start {| start := 1704426840000; end_ := 1704514260000 |}
         - start {| start := 1704426840000; end_ := 1704514260000 |})
  < 60000
  /\ Z.abs (end_ {| start := 1704426840000; end_ := 1704514260000 |}
            - end_ {| start := 1704426840000; end_ := 1704514260000 |})
     < 60000
  /\ ((exists a : Z, 1704470040000 = 1704426240000 + a * 60000) ->
      {| start := 1704426840000; end_ := 1704514260000 |}
      = {| start := 1704426840000; end_ := 1704514260000 |}).
Proof.
  apply (inline_periods_agree noSine PI_double noSine_sine_like
           PI_double_pi_like 64%nat 1704426240000
           {| start := 1704426840000; end_ := 1704514260000 |}
           64%nat 1704470040000
           {| start := 1704426840000; end_ := 1704514260000 |}
           inline_example inline_example_inside).
  - unfold civil. cbn [start]. lia.
  - unfold civil. cbn [end_]. lia.
  - unfold civil. cbn [start]. lia.
  - unfold civil. cbn [end_]. lia.
  - cbn [start end_]. lia.
  - cbn [start end_]. lia.
Defined.

(** ** How long the loops of the inline locator run *)

(** A run whose band is left within three days in each direction: with
    1441 units of fuel the locator returns its period. *)
Lemma inline_locator_within P ref p :
  (P ref = true ->
   P (ref - 259200000) = false /\ P (ref + 259200000) = false) ->
  (P (start p) = true -> P (start p + 259200000) = false) ->
  inline_run P ref p ->
  forall fuel, (1441 <= fuel)%nat -> inline_locator P fuel ref = Ok p.
Proof.
  intros Href Hstart Hrun fuel Hfuel.
  pose proof (inline_run_spec _ _ _ Hrun) as (S1 & _).
  specialize (Hstart S1). clear S1.
  revert Hrun. unfold inline_locator, inline_run.
  change (fun d : Instant => Ok (d - Inline.coarseStep))
    with (fun d : Instant => Ok (d + - Inline.coarseStep)).
  change (fun d : Instant => Ok (d - Inline.fineStep))
    with (fun d : Instant => Ok (d + - Inline.fineStep)).
  destruct p as [s e]. cbn [start end_] in *.
  unfold start_inside, start_outside, end_refined.
  destruct (P ref) eqn:E.
  - destruct (Href eq_refl) as [Hb Hf].
    intros [(kb & jf & Hkb & Hjf & ->) (kf & jb & Hkf & Hjb & ->)].
    assert (Bkb : (kb <= 144)%nat).
    { apply (exits_at_before _ _ _ _ _ Hkb). rewrite <- Hb. f_equal;
      try (change Inline.coarseStep with 1800000; lia). }
    assert (Bkf : (kf <= 144)%nat).
    { apply (exits_at_before _ _ _ _ _ Hkf). rewrite <- Hf. f_equal;
      try (change Inline.coarseStep with 1800000; lia). }
    assert (Pkb : (0 < kb)%nat) by (apply (exits_at_pos 1 ltac:(lia) P ref _ _ E Hkb)).
    assert (Pkf : (0 < kf)%nat) by (apply (exits_at_pos 1 ltac:(lia) P ref _ _ E Hkf)).
    assert (Bjf : (jf <= 30)%nat).
    { apply (exits_at_before _ _ _ _ _ Hjf). apply negb_false_iff.
      destruct Hkb as [_ Hall]. rewrite <- (Hall (kb - 1)%nat ltac:(lia)).
      f_equal;
      try (change Inline.coarseStep with 1800000;
           change Inline.fineStep with 60000; lia). }
    assert (Bjb : (jb <= 30)%nat).
    { apply (exits_at_before _ _ _ _ _ Hjb). apply negb_false_iff.
      destruct Hkf as [_ Hall]. rewrite <- (Hall (kf - 1)%nat ltac:(lia)).
      f_equal;
      try (change Inline.coarseStep with 1800000;
           change Inline.fineStep with 60000; lia). }
    rewrite (scan_exit P (- Inline.coarseStep) kb fuel ref Hkb) by lia.
    cbn [bind].
    rewrite (scan_exit (fun d => negb (P d)) Inline.fineStep jf fuel _ Hjf)
      by lia.
    cbn [bind].
    rewrite (scan_exit P Inline.coarseStep kf fuel ref Hkf) by lia.
    cbn [bind].
    rewrite (scan_exit (fun d => negb (P d)) (- Inline.fineStep) jb fuel _
               Hjb) by lia.
    reflexivity.
  - intros [(ks0 & Hks0 & Hlim) [(ks & js & Hks & Hjs & Hs)
                                   (kf & jb & Hkf & Hjb & ->)]].
    pose proof (exits_at_unique _ _ _ _ _ Hks0 Hks); subst ks0. subst s.
    set (s := ref + Z.of_nat ks * Inline.coarseStep
              + Z.of_nat js * - Inline.fineStep) in *.
    assert (Ps : P s = true).
    { assert (O : start_outside P Inline.coarseStep Inline.fineStep ref s).
      { exists ks, js. repeat split; try apply Hks; try apply Hjs. }
      exact (proj1 (inline_start_outside P ref s E O)). }
    assert (Bks : (ks <= 1440)%nat).
    { change Inline.coarseStep with 1800000 in Hlim.
      change Inline.horizon with 2592000000 in Hlim. lia. }
    assert (Pks : (0 < ks)%nat).
    { apply (exits_at_pos 1 ltac:(lia) (fun d => negb (P d)) ref _ _
               (f_equal negb E) Hks). }
    assert (Bjs : (js <= 29)%nat).
    { apply (exits_at_before _ _ _ _ _ Hjs). cbn beta.
      destruct Hks as [_ Hall].
      specialize (Hall (ks - 1)%nat ltac:(lia)). apply negb_true_iff in Hall.
      rewrite <- Hall. f_equal;
      try (change Inline.coarseStep with 1800000;
           change Inline.fineStep with 60000; lia). }
    assert (Bkf : (kf <= 144)%nat).
    { apply (exits_at_before _ _ _ _ _ Hkf). rewrite <- Hstart. f_equal;
      try (change Inline.coarseStep with 1800000; lia). }
    assert (Pkf : (0 < kf)%nat) by (apply (exits_at_pos 1 ltac:(lia) P s _ _ Ps Hkf)).
    assert (Bjb : (jb <= 30)%nat).
    { apply (exits_at_before _ _ _ _ _ Hjb). apply negb_false_iff.
      destruct Hkf as [_ Hall]. rewrite <- (Hall (kf - 1)%nat ltac:(lia)).
      f_equal;
      try (change Inline.coarseStep with 1800000;
           change Inline.fineStep with 60000; lia). }
    rewrite (guarded_scan_exit (fun d => negb (P d)) Inline.coarseStep
               Inline.horizon ref eq_refl ks fuel Hks Hlim) by lia.
    cbn [bind].
    rewrite (scan_exit (fun d => P (d - Inline.fineStep))
               (- Inline.fineStep) js fuel _ Hjs) by lia.
    cbn [bind]. fold s.
    rewrite (scan_exit P Inline.coarseStep kf fuel _ Hkf) by lia.
    cbn [bind].
    rewrite (scan_exit (fun d => negb (P d)) (- Inline.fineStep) jb fuel _
               Hjb) by lia.
    reflexivity.
Qed.

(** The start of a period is at most three days before the reference. *)
Lemma inline_run_start_lower P ref p :
  (P ref = true -> P (ref - 259200000) = false) ->
  inline_run P ref p -> ref - 259200000 <= start p.
Proof.
  intros Href H.
  pose proof (inline_run_spec _ _ _ H) as (_ & _ & _ & _ & _ & Hord).
  unfold inline_run in H. destruct (P ref) eqn:E; [|lia].
  destruct H as [(kb & jf & Hkb & _ & Hs) _].
  assert (Bkb : (kb <= 144)%nat).
  { apply (exits_at_before _ _ _ _ _ Hkb). rewrite <- (Href eq_refl).
    f_equal; try (change Inline.coarseStep with 1800000; lia). }
  rewrite Hs. change Inline.coarseStep with 1800000.
  change Inline.fineStep with 60000. lia.
Qed.

Section InlineFuel.

Variable Math_sin : Q -> Q.
Variable Math_PI : Q.

Hypothesis sin_bound : forall x, (- 1 <= Math_sin x /\ Math_sin x <= 1)%Q.

(** No loop of the inline locator makes more than 1440 steps: for a sine
    with values in [-1, 1] and a reference within the range of valid
    dates, 1441 units of fuel settle the call, with a period or with
    SearchExhausted. *)
Theorem inline_loops_bounded (ref : Instant) (fuel : nat) :
  searchable ref -> (1441 <= fuel)%nat ->
  (exists p,
      Inline.findCurrentOrNextSwathiPeriod Math_sin Math_PI fuel ref = Ok p)
  \/ Inline.findCurrentOrNextSwathiPeriod Math_sin Math_PI fuel ref
     = Throw SearchExhausted.
Proof.
  intros Href Hfuel. pose proof Href as [Hlo Hhi].
  rewrite inline_locate_eq.
  assert (Hback : Inline.isSwathi
                    (Inline.getMoonSiderealLongitude Math_sin Math_PI ref)
                  = true ->
                  Inline.isSwathi
                    (Inline.getMoonSiderealLongitude Math_sin Math_PI
                       (ref - 259200000)) = false).
  { intro Hin.
    destruct (Inline.isSwathi
                (Inline.getMoonSiderealLongitude Math_sin Math_PI
                   (ref - 259200000))) eqn:E; [|reflexivity].
    pose proof (inline_leaves_band Math_sin Math_PI sin_bound
                  (ref - 259200000) ltac:(lia) ltac:(lia) E) as H.
    replace (ref - 259200000 + 259200000) with ref in H by lia.
    congruence. }
  destruct (inline_run_total Math_sin Math_PI sin_bound ref Href)
    as [[p Hp]|Hex].
  - left. exists p.
    pose proof (inline_run_start_lower _ ref p Hback Hp) as Hl.
    pose proof (inline_run_horizon _ ref p Hp) as Hu.
    change Inline.horizon with 2592000000 in Hu.
    refine (inline_locator_within _ ref p _ _ Hp fuel Hfuel).
    + intro Hin. split; [exact (Hback Hin)|].
      exact (inline_leaves_band Math_sin Math_PI sin_bound ref
               ltac:(lia) ltac:(lia) Hin).
    + intro Hin.
      exact (inline_leaves_band Math_sin Math_PI sin_bound (start p)
               ltac:(lia) ltac:(lia) Hin).
  - right. apply inline_locator_raise; [exact Hex|lia].
Qed.

End InlineFuel.

Lemma inline_loops_bounded_witness :
  (exists p,
      Inline.findCurrentOrNextSwathiPeriod noSine PI_double 1441
        1704426240000 = Ok p)
  \/ Inline.findCurrentOrNextSwathiPeriod noSine PI_double 1441
       1704426240000 = Throw SearchExhausted.
Proof.
  apply (inline_loops_bounded noSine PI_double (proj1 noSine_sine_like)
           1704426240000).
  - unfold searchable. lia.
  - lia.
Defined.

(** * The components over the locators *)

(** ** The App component of part_000 *)

Lemma inline_current_or_next_aux Math_sin Math_PI fuel reference p :
  Inline.findCurrentOrNextSwathiPeriod Math_sin Math_PI fuel reference
  = Ok p ->
  if Inline.isSwathi
       (Inline.getMoonSiderealLongitude Math_sin Math_PI reference)
  then start p <= reference < end_ p
  else reference < start p.
Proof.
  intro H.
  destruct (inline_locate_spec _ _ _ _ _ H) as (_ & _ & _ & _ & _ & Hord).
  exact Hord.
Qed.

(** The flag a tick sets is the comparison of the clock with the period. *)
Lemma app_tick_flag Math_sin Math_PI fuel now now' s p :
  App.activePeriod s = Some p ->
  App.isSwathiActive (App.tick Math_sin Math_PI fuel now now' s)
  = (start p <=? now) && (now <=? end_ p).
Proof.
  intro Hs. unfold App.tick. rewrite Hs. cbv zeta.
  cbn [App.activePeriod App.isSwathiActive App.countdown App.isLoading
       App.error].
  destruct ((start p <=? now) && (now <=? end_ p)) eqn:E.
  - reflexivity.
  - destruct (end_ p <? now); [|reflexivity].
    unfold App.calculatePeriod. cbv zeta.
    cbn [App.activePeriod App.isSwathiActive App.countdown App.isLoading
         App.error].
    destruct (Inline.findCurrentOrNextSwathiPeriod Math_sin Math_PI fuel
                now); reflexivity.
Qed.

(** A tick asks for a new period only once the period it holds is over. *)
Lemma app_tick_keeps Math_sin Math_PI fuel now now' s p :
  App.activePeriod s = Some p -> now <= end_ p ->
  App.activePeriod (App.tick Math_sin Math_PI fuel now now' s) = Some p.
Proof.
  intros Hs Hle. unfold App.tick. rewrite Hs. cbv zeta.
  cbn [App.activePeriod App.isSwathiActive App.countdown App.isLoading
       App.error].
  destruct ((start p <=? now) && (now <=? end_ p)); [reflexivity|].
  destruct (end_ p <? now) eqn:E; [apply Z.ltb_lt in E; lia|reflexivity].
Qed.

(** The only error the application can show is the one of the exhausted
    search; the period it held is kept and the loading is over. *)
Theorem app_error_is_exhausted_search Math_sin Math_PI fuel date s :
  let s' := App.calculatePeriod Math_sin Math_PI fuel date s in
  App.error s' = None
  \/ (App.error s' = Some "Could not find Swathi period within 30 days"%string
      /\ App.activePeriod s' = App.activePeriod s
      /\ App.isLoading s' = false
      /\ Inline.findCurrentOrNextSwathiPeriod Math_sin Math_PI fuel date
         = Throw SearchExhausted).
Proof.
  cbv zeta. unfold App.calculatePeriod. cbv zeta.
  destruct (Inline.findCurrentOrNextSwathiPeriod Math_sin Math_PI fuel date)
    as [period|err|] eqn:E.
  - left. reflexivity.
  - right. rewrite inline_locate_eq in E.
    destruct (inline_locator_Throw_inv _ _ _ _ E) as [-> _].
    repeat split; reflexivity.
  - left. reflexivity.
Qed.

(** While the application shows the period as active, up to one minute
    before its end, the Moon is in the band. *)
Theorem app_active_means_in_band Math_sin Math_PI :
  sine_like Math_sin -> pi_like Math_PI ->
  forall fuel reference p s now now',
    Inline.findCurrentOrNextSwathiPeriod Math_sin Math_PI fuel reference
    = Ok p ->
    civil (start p) -> civil (end_ p) ->
    App.activePeriod s = Some p ->
    App.isSwathiActive (App.tick Math_sin Math_PI fuel now now' s) = true ->
    now <= end_ p - 60000 ->
    Inline.isSwathi (Inline.getMoonSiderealLongitude Math_sin Math_PI now)
    = true.
Proof.
  intros Hsin Hpi fuel reference p s now now' H Hs He Hp Hflag Hnow.
  rewrite (app_tick_flag _ _ _ _ _ _ _ Hp) in Hflag.
  apply andb_true_iff in Hflag. destruct Hflag as [H1 H2].
  apply Z.leb_le in H1.
  apply inline_locate_run in H.
  apply (proj2 (inline_period_shape Math_sin Math_PI Hsin Hpi reference p
                  H Hs He)). lia.
Qed.

Lemma app_active_means_in_band_witness :
  Inline.isSwathi
    (Inline.getMoonSiderealLongitude noSine PI_double 1704500000000)
  = true.
Proof.
  apply (app_active_means_in_band noSine PI_double noSine_sine_like
           PI_double_pi_like 64%nat 1704426240000
           {| start := 1704426840000; end_ := 1704514260000 |}
           {| App.activePeriod :=
                Some {| start := 1704426840000; end_ := 1704514260000 |};
              App.isSwathiActive := false; App.countdown := NO_COUNTDOWN;
              App.isLoading := false; App.error := None |}
           1704500000000 1704500000001 inline_example).
  - unfold civil. cbn [start]. lia.
  - unfold civil. cbn [end_]. lia.
  - reflexivity.
  - reflexivity.
  - cbn [end_]. lia.
Defined.

(** At the very instant at which the period ends the application still
    shows it as active, although the Moon is outside the band there. *)
Theorem app_active_at_period_end Math_sin Math_PI fuel reference p s now' :
  Inline.findCurrentOrNextSwathiPeriod Math_sin Math_PI fuel reference
  = Ok p ->
  App.activePeriod s = Some p ->
  App.isSwathiActive (App.tick Math_sin Math_PI fuel (end_ p) now' s) = true
  /\ Inline.isSwathi
       (Inline.getMoonSiderealLongitude Math_sin Math_PI (end_ p)) = false.
Proof.
  intros H Hp.
  destruct (inline_locate_spec _ _ _ _ _ H) as (_ & _ & _ & E2 & Hlt & _).
  split; [|exact E2].
  rewrite (app_tick_flag _ _ _ _ _ _ _ Hp).
  apply andb_true_iff. split; apply Z.leb_le; lia.
Qed.

Lemma app_active_at_period_end_witness :
  App.isSwathiActive
    (App.tick noSine PI_double 64
       (end_ {| start := 1704426840000; end_ := 1704514260000 |})
       1704514260005
       {| App.activePeriod :=
            Some {| start := 1704426840000; end_ := 1704514260000 |};
          App.isSwathiActive := false; App.countdown := NO_COUNTDOWN;
          App.isLoading := false; App.error := None |}) = true
  /\ Inline.isSwathi
       (Inline.getMoonSiderealLongitude noSine PI_double
          (end_ {| start := 1704426840000; end_ := 1704514260000 |}))
     = false.
Proof.
  exact (app_active_at_period_end noSine PI_double 64%nat 1704426240000
           {| start := 1704426840000; end_ := 1704514260000 |}
           {| App.activePeriod :=
                Some {| start := 1704426840000; end_ := 1704514260000 |};
              App.isSwathiActive := false; App.countdown := NO_COUNTDOWN;
              App.isLoading := false; App.error := None |}
           1704514260005 inline_example eq_refl).
Defined.

(** Once a period is over the tick asks for the next one from the
    clock.  If the locator returns one, it ends after the clock, so that
    no tick up to its end asks again; and the flag of a tick at the same
    instant is the band test at that instant. *)
Theorem app_refresh_settles Math_sin Math_PI fuel s p now now' p2 :
  App.activePeriod s = Some p -> end_ p < now ->
  Inline.findCurrentOrNextSwathiPeriod Math_sin Math_PI fuel now = Ok p2 ->
  let s1 := App.tick Math_sin Math_PI fuel now now' s in
  App.activePeriod s1 = Some p2 /\ App.isLoading s1 = false
  /\ now < end_ p2
  /\ (forall now2 now2', now2 <= end_ p2 ->
        App.activePeriod (App.tick Math_sin Math_PI fuel now2 now2' s1)
        = Some p2)
  /\ (forall now2',
        App.isSwathiActive (App.tick Math_sin Math_PI fuel now now2' s1)
        = Inline.isSwathi
            (Inline.getMoonSiderealLongitude Math_sin Math_PI now)).
Proof.
  intros Hp Hover H2. cbv zeta.
  assert (E1 : App.activePeriod (App.tick Math_sin Math_PI fuel now now' s)
               = Some p2
               /\ App.isLoading (App.tick Math_sin Math_PI fuel now now' s)
                  = false).
  { unfold App.tick. rewrite Hp. cbv zeta.
    cbn [App.activePeriod App.isSwathiActive App.countdown App.isLoading
         App.error].
    destruct ((start p <=? now) && (now <=? end_ p)) eqn:E.
    - apply andb_true_iff in E. destruct E as [_ E].
      apply Z.leb_le in E. lia.
    - destruct (end_ p <? now) eqn:E'; [|apply Z.ltb_ge in E'; lia].
      unfold App.calculatePeriod. cbv zeta. rewrite H2.
      split; reflexivity. }
  destruct E1 as [E1 E1'].
  pose proof (inline_current_or_next_aux Math_sin Math_PI fuel now p2 H2)
    as Hord.
  split; [exact E1|]. split; [exact E1'|].
  assert (Hlt : start p2 < end_ p2).
  { destruct (inline_locate_spec _ _ _ _ _ H2)
      as (_ & _ & _ & _ & Hlt & _). exact Hlt. }
  split; [|split].
  - destruct (Inline.isSwathi
                (Inline.getMoonSiderealLongitude Math_sin Math_PI now));
      lia.
  - intros now2 now2' Hle. apply app_tick_keeps; assumption.
  - intro now2'. rewrite (app_tick_flag _ _ _ _ _ _ _ E1).
    destruct (Inline.isSwathi
                (Inline.getMoonSiderealLongitude Math_sin Math_PI now)).
    + apply andb_true_iff. split; apply Z.leb_le; lia.
    + apply andb_false_iff. left. apply Z.leb_gt. lia.
Qed.

Lemma app_refresh_settles_witness :
  let s1 :=
    App.tick noSine PI_double 64 1704426240000 1704426240002
      {| App.activePeriod := Some {| start := 0; end_ := 60000 |};
         App.isSwathiActive := false; App.countdown := NO_COUNTDOWN;
         App.isLoading := false; App.error := None |} in
  App.activePeriod s1
  = Some {| start := 1704426840000; end_ := 1704514260000 |}
  /\ App.isLoading s1 = false
  /\ 1704426240000
     < end_ {| start := 1704426840000; end_ := 1704514260000 |}
  /\ (forall now2 now2',
        now2 <= end_ {| start := 1704426840000; end_ := 1704514260000 |} ->
        App.activePeriod (App.tick noSine PI_double 64 now2 now2' s1)
        = Some {| start := 1704426840000; end_ := 1704514260000 |})
  /\ (forall now2',
        App.isSwathiActive
          (App.tick noSine PI_double 64 1704426240000 now2' s1)
        = Inline.isSwathi
            (Inline.getMoonSiderealLongitude noSine PI_double
               1704426240000)).
Proof.
  apply (app_refresh_settles noSine PI_double 64%nat
           {| App.activePeriod := Some {| start := 0; end_ := 60000 |};
              App.isSwathiActive := false; App.countdown := NO_COUNTDOWN;
              App.isLoading := false; App.error := None |}
           {| start := 0; end_ := 60000 |}
           1704426240000 1704426240002
           {| start := 1704426840000; end_ := 1704514260000 |}).
  - reflexivity.
  - cbn [end_]. lia.
  - exact inline_example.
Defined.

(** ** The hook over the calculator service *)

(** Without a period a tick does nothing. *)
Lemma hook_ticks_idle Math_PI window fuel clock s :
  Hook.activePeriod s = None ->
  Hook.ticks Math_PI window fuel clock s = s.
Proof.
  revert s. induction clock as [|[now now'] clock IH]; intros s Hs.
  - reflexivity.
  - cbn [Hook.ticks]. unfold Hook.tick. rewrite Hs. apply IH. exact Hs.
Qed.

(** When SunCalc is missing the first calculation fails silently, and no
    tick ever tries again: the hook stays for good with no period, the
    flag down, a countdown of zeros and the loading over. *)
Theorem hook_without_SunCalc_stays_empty Math_PI window fuel date clock :
  Calculator.SunCalc window = None ->
  Hook.ticks Math_PI window fuel clock
    (Hook.calculateAndSetPeriod Math_PI window fuel date Hook.initial)
  = {| Hook.activePeriod := None; Hook.isSwathiActive := false;
       Hook.countdown := NO_COUNTDOWN; Hook.isLoading := false |}.
Proof.
  intro Hw. rewrite hook_ticks_idle.
  - unfold Hook.calculateAndSetPeriod. cbv zeta.
    rewrite (calculator_locate_bare _ _ _ _ Hw). reflexivity.
  - unfold Hook.calculateAndSetPeriod. cbv zeta.
    rewrite (calculator_locate_bare _ _ _ _ Hw). reflexivity.
Qed.

Lemma hook_without_SunCalc_stays_empty_witness :
  Hook.ticks PI_double windowBare 128
    ((1704067201000, 1704067201001)
     :: (1704067202000, 1704067202001) :: nil)
    (Hook.calculateAndSetPeriod PI_double windowBare 128 1704067200000
       Hook.initial)
  = {| Hook.activePeriod := None; Hook.isSwathiActive := false;
       Hook.countdown := NO_COUNTDOWN; Hook.isLoading := false |}.
Proof.
  exact (hook_without_SunCalc_stays_empty PI_double windowBare 128%nat
           1704067200000 _ eq_refl).
Defined.

(** ** The hook over the calculator service: the timer *)

Lemma hook_tick_flag Math_PI window fuel now now' s p :
  Hook.activePeriod s = Some p ->
  Hook.isSwathiActive (Hook.tick Math_PI window fuel now now' s)
  = (start p <=? now) && (now <=? end_ p).
Proof.
  intro Hs. unfold Hook.tick. rewrite Hs. cbv zeta.
  cbn [Hook.activePeriod Hook.isSwathiActive Hook.countdown Hook.isLoading].
  destruct ((start p <=? now) && (now <=? end_ p)) eqn:E.
  - reflexivity.
  - destruct (end_ p <? now); [|reflexivity].
    unfold Hook.calculateAndSetPeriod. cbv zeta.
    cbn [Hook.activePeriod Hook.isSwathiActive Hook.countdown
         Hook.isLoading].
    destruct (Calculator.findCurrentOrNextSwathiPeriod Math_PI window fuel
                now); reflexivity.
Qed.

Lemma hook_tick_keeps Math_PI window fuel now now' s p :
  Hook.activePeriod s = Some p -> now <= end_ p ->
  Hook.activePeriod (Hook.tick Math_PI window fuel now now' s) = Some p.
Proof.
  intros Hs Hle. unfold Hook.tick. rewrite Hs. cbv zeta.
  cbn [Hook.activePeriod Hook.isSwathiActive Hook.countdown Hook.isLoading].
  destruct ((start p <=? now) && (now <=? end_ p)); [reflexivity|].
  destruct (end_ p <? now) eqn:E; [apply Z.ltb_lt in E; lia|reflexivity].
Qed.

(** Once a period is over the tick of the hook asks the service for the
    next one.  If the service returns one, it is stored with the loading
    over; it ends after the clock, so that no tick up to its end asks
    again; and the flag of a tick at the same instant is the band test
    there.  If the service rejects, the period that is over is kept. *)
Theorem hook_refresh_settles Math_PI window fuel s p now now' :
  Hook.activePeriod s = Some p -> end_ p < now ->
  let s1 := Hook.tick Math_PI window fuel now now' s in
  match Calculator.findCurrentOrNextSwathiPeriod Math_PI window fuel now with
  | Ok p2 =>
      Hook.activePeriod s1 = Some p2 /\ Hook.isLoading s1 = false
      /\ now < end_ p2
      /\ (forall now2 now2', now2 <= end_ p2 ->
            Hook.activePeriod (Hook.tick Math_PI window fuel now2 now2' s1)
            = Some p2)
      /\ exists l,
           Calculator.getLunarSiderealLongitude Math_PI window now = Ok l
           /\ forall now2',
                Hook.isSwathiActive
                  (Hook.tick Math_PI window fuel now now2' s1)
                = Calculator.isSwathi l
  | Throw _ =>
      Hook.activePeriod s1 = Some p /\ Hook.isLoading s1 = false
  | Pending => Hook.activePeriod s1 = Some p /\ Hook.isLoading s1 = true
  end.
Proof.
  intros Hp Hover. cbv zeta.
  assert (T : Hook.tick Math_PI window fuel now now' s
              = Hook.calculateAndSetPeriod Math_PI window fuel now
                  {| Hook.activePeriod := Hook.activePeriod s;
                     Hook.isSwathiActive := false;
                     Hook.countdown := Hook.countdown s;
                     Hook.isLoading := Hook.isLoading s |}).
  { unfold Hook.tick. rewrite Hp. cbv zeta.
    destruct ((start p <=? now) && (now <=? end_ p)) eqn:E.
    - apply andb_true_iff in E. destruct E as [_ E].
      apply Z.leb_le in E. lia.
    - destruct (end_ p <? now) eqn:E'; [|apply Z.ltb_ge in E'; lia].
      reflexivity. }
  unfold Hook.calculateAndSetPeriod in T. cbv zeta in T.
  cbn [Hook.activePeriod Hook.isSwathiActive Hook.countdown Hook.isLoading]
    in T.
  destruct (Calculator.findCurrentOrNextSwathiPeriod Math_PI window fuel
              now) as [p2|e|] eqn:H2; rewrite T;
    cbn [Hook.activePeriod Hook.isLoading].
  - split; [reflexivity|]. split; [reflexivity|].
    pose proof H2 as R. apply calculator_locate_run in R.
    destruct R as (lib & Hw & R).
    destruct (calculator_run_spec _ _ _ R) as (_ & _ & _ & Hlt & Hord & _).
    split; [|split].
    + destruct (calculator_band Math_PI lib now); lia.
    + intros now2 now2' Hle. apply hook_tick_keeps; [reflexivity|exact Hle].
    + exists (calculator_longitude Math_PI lib now).
      split; [apply calculator_longitude_loaded; exact Hw|].
      intro now2'.
      match goal with
      | |- context [Hook.tick _ _ _ _ _ ?st] =>
          rewrite (hook_tick_flag Math_PI window fuel now now2' st p2
                     eq_refl)
      end.
      change (Calculator.isSwathi (calculator_longitude Math_PI lib now))
        with (calculator_band Math_PI lib now).
      destruct (calculator_band Math_PI lib now).
      * apply andb_true_iff. split; apply Z.leb_le; lia.
      * apply andb_false_iff. left. apply Z.leb_gt. lia.
  - split; [exact Hp|reflexivity].
  - split; [exact Hp|reflexivity].
Qed.

Lemma hook_refresh_settles_witness :
  let s1 :=
    Hook.tick PI_double windowLoaded 128 1704067200000 1704067200003
      {| Hook.activePeriod := Some {| start := 0; end_ := 60000 |};
         Hook.isSwathiActive := false; Hook.countdown := NO_COUNTDOWN;
         Hook.isLoading := false |} in
  match
    Calculator.findCurrentOrNextSwathiPeriod PI_double windowLoaded 128
      1704067200000
  with
  | Ok p2 =>
      Hook.activePeriod s1 = Some p2 /\ Hook.isLoading s1 = false
      /\ 1704067200000 < end_ p2
      /\ (forall now2 now2', now2 <= end_ p2 ->
            Hook.activePeriod
              (Hook.tick PI_double windowLoaded 128 now2 now2' s1)
            = Some p2)
      /\ exists l,
           Calculator.getLunarSiderealLongitude PI_double windowLoaded
             1704067200000 = Ok l
           /\ forall now2',
                Hook.isSwathiActive
                  (Hook.tick PI_double windowLoaded 128 1704067200000
                     now2' s1)
                = Calculator.isSwathi l
  | Throw _ =>
      Hook.activePeriod s1 = Some {| start := 0; end_ := 60000 |}
      /\ Hook.isLoading s1 = false
  | Pending =>
      Hook.activePeriod s1 = Some {| start := 0; end_ := 60000 |}
      /\ Hook.isLoading s1 = true
  end.
Proof.
  apply (hook_refresh_settles PI_double windowLoaded 128%nat
           {| Hook.activePeriod := Some {| start := 0; end_ := 60000 |};
              Hook.isSwathiActive := false; Hook.countdown := NO_COUNTDOWN;
              Hook.isLoading := false |}
           {| start := 0; end_ := 60000 |} 1704067200000 1704067200003).
  - reflexivity.
  - cbn [end_]. lia.
Defined.

(** * The application of src/App.tsx *)

(** ** The locator of src/App.tsx, scan by scan *)

Lemma legacy_steps :
  Legacy.coarseStep = 3600000 /\ Legacy.fineStep = 60000
  /\ Legacy.coarseStep = Z.of_nat 60 * Legacy.fineStep.
Proof. repeat split. Qed.

Lemma legacy_locate_eq fuel ref :
  Legacy.findCurrentOrNextSwathiPeriod fuel ref
  = legacy_locator legacy_band fuel ref.
Proof.
  unfold Legacy.findCurrentOrNextSwathiPeriod, legacy_locator. cbv zeta.
  reflexivity.
Qed.

Section LegacyScans.

Variable P : Instant -> bool.


(** No loop of this locator has a guard: it never rejects. *)
Lemma legacy_locator_no_Throw fuel ref e :
  legacy_locator P fuel ref <> Throw e.
Proof.
  unfold legacy_locator.
  change (fun d : Instant => Ok (d - Legacy.coarseStep))
    with (fun d : Instant => Ok (d + - Legacy.coarseStep)).
  change (fun d : Instant => Ok (d - Legacy.fineStep))
    with (fun d : Instant => Ok (d + - Legacy.fineStep)).
  assert (B : forall (r : result Instant) k,
             (forall e', r <> Throw e') ->
             (forall d, k d <> Throw e) ->
             bind r k <> @Throw NakshatraPeriod e).
  { intros r k Hr Hk. destruct r as [d|e'|]; cbn [bind].
    - apply Hk.
    - exfalso. exact (Hr e' eq_refl).
    - discriminate. }
  destruct (P ref).
  - apply B; [intro; apply scan_no_Throw|intro].
    apply B; [intro; apply (scan_no_Throw (fun d => negb (P d)))|intro].
    apply B; [intro; apply scan_no_Throw|intro].
    apply B; [intro;
              apply (scan_no_Throw (fun d => P (d - Legacy.fineStep)))
             |intro].
    discriminate.
  - apply B; [intro; apply (scan_no_Throw (fun d => negb (P d)))|intro].
    apply B; [intro;
              apply (scan_no_Throw
                       (fun d => negb (P (d - Legacy.fineStep))))
             |intro].
    apply B; [intro; apply scan_no_Throw|intro].
    apply B; [intro;
              apply (scan_no_Throw (fun d => P (d - Legacy.fineStep)))
             |intro].
    discriminate.
Qed.





End LegacyScans.

(** ** The signal of src/App.tsx *)

Section LegacySignal.

Local Open Scope Q_scope.


Lemma Qtrunc_nonpos (q : Q) : q < 0 -> inject_Z (Qtrunc q) <= 0.
Proof.
  intro H. destruct (Qtrunc_neg q H) as [_ H2].
  assert (L : (Qtrunc q < 1)%Z).
  { rewrite Zlt_Qlt. change (inject_Z 1) with 1. lra. }
  change 0 with (inject_Z 0). rewrite <- Zle_Qle. lia.
Qed.

(** A negative remainder is no less than its dividend. *)
Lemma Qrem_neg_ge (x m : Q) : 0 < m -> x < 0 -> x <= Qrem x m.
Proof.
  intros Hm Hx. unfold Qrem.
  assert (Hq : x / m < 0).
  { apply Qlt_shift_div_r; [exact Hm|]. rewrite Qmult_0_l. exact Hx. }
  pose proof (Qtrunc_nonpos _ Hq) as H.
  set (z := inject_Z (Qtrunc (x / m))) in *. nra.
Qed.

(** The two corrections of the sidereal longitude, on their own. *)
Lemma legacy_corrections (s : Q) :
  exists c : Z,
    (if Qge_bool (if Qlt_bool s 0 then s + 360 else s) 360
     then (if Qlt_bool s 0 then s + 360 else s) - 360
     else if Qlt_bool s 0 then s + 360 else s)
    == s + 360 * inject_Z c
    /\ (c = 1%Z /\ s < 0 \/ c = 0%Z /\ 0 <= s < 360
        \/ c = (-1)%Z /\ 360 <= s).
Proof.
  destruct (Qlt_bool s 0) eqn:E1.
  - apply Qlt_bool_true in E1.
    destruct (Qge_bool (s + 360) 360) eqn:E2.
    + apply Qge_bool_true in E2. exfalso. lra.
    + exists 1%Z. split; [change (inject_Z 1) with 1; ring|].
      left. split; [reflexivity|exact E1].
  - apply Qlt_bool_false in E1.
    destruct (Qge_bool s 360) eqn:E2.
    + apply Qge_bool_true in E2. exists (-1)%Z.
      split; [change (inject_Z (-1)) with (-1); ring|].
      right. right. split; [reflexivity|exact E2].
    + apply Qge_bool_false in E2. exists 0%Z.
      split; [change (inject_Z 0) with 0; ring|].
      right. left. split; [reflexivity|split; assumption].
Qed.

(** The tropical longitude of the simplified model. *)
Lemma legacy_longitude_eq (t : Instant) :
  Legacy.getMoonSiderealLongitude t
  = (let s := Qrem (218.316
                    + 360 * Qrem ((inject_Z t - inject_Z J2000)
                                  / (1000 * 60 * 60 * 24)
                                  / Legacy.LUNAR_MONTH) 1) 360
              - getLahiriAyanamsha t in
     if Qge_bool (if Qlt_bool s 0 then s + 360 else s) 360
     then (if Qlt_bool s 0 then s + 360 else s) - 360
     else if Qlt_bool s 0 then s + 360 else s).
Proof. reflexivity. Qed.

(** The normalisations add or remove whole turns. *)
Lemma legacy_lon_turns (t : Instant) :
  exists n : Z,
    Legacy.getMoonSiderealLongitude t
    == legacy_unnormalised t + 360 * inject_Z n.
Proof.
  rewrite legacy_longitude_eq. cbv zeta.
  set (cycles := (inject_Z t - inject_Z J2000) / (1000 * 60 * 60 * 24)
                 / Legacy.LUNAR_MONTH).
  set (s := Qrem (218.316 + 360 * Qrem cycles 1) 360 - getLahiriAyanamsha t).
  destruct (legacy_corrections s) as (c & Hc & _).
  exists (c + - Qtrunc (cycles / 1)
          + - Qtrunc ((218.316 + 360 * Qrem cycles 1) / 360))%Z.
  rewrite Hc. unfold s, legacy_unnormalised. fold cycles. unfold Qrem.
  rewrite !inject_Z_plus, !inject_Z_opp. ring.
Qed.

(** From the year -25314 to the year 26053 the longitude is in
    [0, 360). *)
Lemma legacy_lon_range (t : Instant) :
  (- 861000000000000 <= t <= 760000000000000)%Z ->
  0 <= Legacy.getMoonSiderealLongitude t
  /\ Legacy.getMoonSiderealLongitude t < 360.
Proof.
  intro Ht. rewrite legacy_longitude_eq. cbv zeta.
  set (cycles := (inject_Z t - inject_Z J2000) / (1000 * 60 * 60 * 24)
                 / Legacy.LUNAR_MONTH).
  destruct (ayanamsha_within_a_turn t Ht) as [A0 A1].
  pose proof (ayanamsha_affine t) as Ay.
  set (ay := getLahiriAyanamsha t) in *.
  assert (Hc : cycles == (inject_Z t - 946728000000)
                         * (1000000 # 2360591510400000)).
  { unfold cycles, J2000, Legacy.LUNAR_MONTH. field. }
  destruct (Qrem_bounds cycles 1 ltac:(lra)) as [F0 F1].
  destruct (Qrem_bounds (218.316 + 360 * Qrem cycles 1) 360 ltac:(lra))
    as [T0 T1].
  pose proof (Qrem_neg_ge (218.316 + 360 * Qrem cycles 1) 360 ltac:(lra))
    as T2.
  set (f := Qrem cycles 1) in *.
  set (trop := Qrem (218.316 + 360 * f) 360) in *.
  assert (Hs : - 360 <= trop - ay /\ trop - ay < 720).
  { destruct (Qlt_le_dec cycles 0) as [Neg|Pos].
    - specialize (F1 Neg).
      assert (Hay : ay < 23.86) by (rewrite Ay; nra).
      destruct (Qlt_le_dec (218.316 + 360 * f) 0) as [N2|P2].
      + specialize (T1 N2). specialize (T2 N2). lra.
      + specialize (T0 P2). lra.
    - specialize (F0 Pos).
      assert (Hay : 0 <= ay) by (rewrite Ay; nra).
      specialize (T0 ltac:(lra)). lra. }
  destruct (legacy_corrections (trop - ay)) as (c & Hc' & Hcase).
  rewrite Hc'.
  destruct Hcase as [[-> H]|[[-> H]|[-> H]]].
  - change (inject_Z 1) with 1. lra.
  - change (inject_Z 0) with 0. lra.
  - change (inject_Z (-1)) with (-1). lra.
Qed.


Lemma legacy_isSwathi_false (l : Q) :
  Legacy.isSwathi l = false <-> l < (560 # 3) \/ 200 <= l.
Proof. exact (inline_isSwathi_false l). Qed.




End LegacySignal.

(** ** Runs of the locator of src/App.tsx from inside the band *)



(** ** Runs of the locator of src/App.tsx on concrete references *)






(** ** The application of src/App.tsx *)

(** Within the civil era, and thirty years either side, the simplified
    longitude is in [0, 360), and it is the linear longitude up to whole
    turns. *)
Theorem legacy_longitude_range (date : Instant) :
  - 861000000000000 <= date <= 760000000000000 ->
  (0 <= Legacy.getMoonSiderealLongitude date)%Q
  /\ (Legacy.getMoonSiderealLongitude date < 360)%Q
  /\ exists n : Z,
       (Legacy.getMoonSiderealLongitude date
        == legacy_unnormalised date + 360 * inject_Z n)%Q.
Proof.
  intro H. destruct (legacy_lon_range date H) as [H0 H1].
  split; [exact H0|]. split; [exact H1|]. apply legacy_lon_turns.
Qed.

Lemma legacy_longitude_range_witness :
  (0 <= Legacy.getMoonSiderealLongitude 1704509229669%Z)%Q
  /\ (Legacy.getMoonSiderealLongitude 1704509229669%Z < 360)%Q
  /\ exists n : Z,
       (Legacy.getMoonSiderealLongitude 1704509229669%Z
        == legacy_unnormalised 1704509229669%Z + 360 * inject_Z n)%Q.
Proof. apply (legacy_longitude_range 1704509229669). lia. Defined.





(** The locator never rejects, so that calculatePeriod never sets the
    error. *)
Lemma legacy_calculate_no_error fuel date s :
  App.error (Legacy.calculatePeriod fuel date s) = None.
Proof.
  unfold Legacy.calculatePeriod. cbv zeta.
  destruct (Legacy.findCurrentOrNextSwathiPeriod fuel date) as [p|e|] eqn:E.
  - reflexivity.
  - exfalso. rewrite legacy_locate_eq in E.
    exact (legacy_locator_no_Throw _ _ _ _ E).
  - reflexivity.
Qed.

Lemma legacy_tick_no_error fuel now now' s :
  App.error s = None -> App.error (Legacy.tick fuel now now' s) = None.
Proof.
  intro Hs. unfold Legacy.tick.
  destruct (App.activePeriod s) as [p|]; [|exact Hs]. cbv zeta.
  destruct ((start p <=? now) && (now <=? end_ p)); [exact Hs|].
  destruct (end_ p <? now); [apply legacy_calculate_no_error|exact Hs].
Qed.

(** The locator of src/App.tsx never rejects, and the error view of its
    App component cannot be reached: whatever the calculations and the
    ticks since the mount, the error is null. *)
Theorem legacy_error_unreachable :
  (forall fuel reference e,
      Legacy.findCurrentOrNextSwathiPeriod fuel reference <> Throw e)
  /\ (forall fuel events,
        App.error (legacy_app_run fuel events App.initial) = None).
Proof.
  split.
  - intros fuel reference e H. rewrite legacy_locate_eq in H.
    exact (legacy_locator_no_Throw _ _ _ _ H).
  - intros fuel events.
    assert (G : forall s, App.error s = None ->
                  App.error (legacy_app_run fuel events s) = None).
    { induction events as [|e events IH]; intros s Hs; [exact Hs|].
      change (App.error
                (legacy_app_run fuel events (legacy_app_step fuel e s))
              = None).
      apply IH. destruct e as [date|now now']; cbn [legacy_app_step].
      - apply legacy_calculate_no_error.
      - apply legacy_tick_no_error. exact Hs. }
    apply G. reflexivity.
Qed.

(** * Dates, binary64 and the global object *)

(** ** The locator on Date objects *)

Lemma TimeClip_valid (t : Z) :
  Z.abs t <= MAX_TIME -> Dated.TimeClip t = Some t.
Proof.
  intro H. unfold Dated.TimeClip.
  destruct (Z.leb_spec (Z.abs t) MAX_TIME) as [L|L]; [reflexivity|lia].
Qed.

Lemma TimeClip_invalid (t : Z) :
  MAX_TIME < Z.abs t -> Dated.TimeClip t = None.
Proof.
  intro H. unfold Dated.TimeClip.
  destruct (Z.leb_spec (Z.abs t) MAX_TIME) as [L|L]; [lia|reflexivity].
Qed.

Lemma dated_while_fuel_mono cond body (n : nat) :
  forall d r m, Dated.while n cond body d = r -> r <> Pending ->
                (n <= m)%nat -> Dated.while m cond body d = r.
Proof.
  induction n as [|n IH]; intros d r m H Hr Hm; simpl in H.
  - congruence.
  - destruct m as [|m]; [lia|]. simpl.
    destruct (cond d) as [b|e|]; simpl in *; try exact H.
    destruct b; [|exact H].
    destruct (body d) as [d'|e|]; simpl in *; try exact H.
    apply IH; [exact H|exact Hr|lia].
Qed.

(** A loop whose test and body cannot fail does not raise. *)
Lemma dated_scan_no_Throw (C : Dated.Date -> bool)
    (f : Dated.Date -> Dated.Date) fuel d e :
  Dated.while fuel (fun x => Ok (C x)) (fun x => Ok (f x)) d <> Throw e.
Proof.
  revert d. induction fuel as [|fuel IH]; intro d; simpl.
  - discriminate.
  - destruct (C d); [apply IH|discriminate].
Qed.

(** A scan over valid dates leaves its loop where the scan over time
    values does. *)
Lemma dated_scan_exit (C : Dated.Date -> bool) (Q : Instant -> bool)
    (step : Z) (k : nat) :
  forall fuel d,
    exits_at Q d step k ->
    (forall j, (j <= k)%nat ->
               C (Some (d + Z.of_nat j * step)) = Q (d + Z.of_nat j * step)) ->
    (forall j, (j <= k)%nat -> Z.abs (d + Z.of_nat j * step) <= MAX_TIME) ->
    (k < fuel)%nat ->
    Dated.while fuel (fun x => Ok (C x))
      (fun x => Ok (Dated.shifted x step)) (Some d)
    = Ok (Some (d + Z.of_nat k * step)).
Proof.
  induction k as [|k IH]; intros fuel d [Hk Hall] HC Hv Hf;
    (destruct fuel as [|fuel]; [lia|]); cbn [Dated.while bind].
  - pose proof (HC 0%nat ltac:(lia)) as H0.
    replace (d + Z.of_nat 0 * step) with d in * by lia.
    rewrite H0, Hk. do 2 f_equal; lia.
  - pose proof (HC 0%nat ltac:(lia)) as H0.
    pose proof (Hall 0%nat ltac:(lia)) as H1.
    replace (d + Z.of_nat 0 * step) with d in * by lia.
    rewrite H0, H1. cbn [Dated.shifted].
    pose proof (Hv 1%nat ltac:(lia)) as V1.
    replace (d + Z.of_nat 1 * step) with (d + step) in V1 by lia.
    rewrite (TimeClip_valid _ V1).
    rewrite (IH fuel (d + step)).
    + do 2 f_equal; lia.
    + split.
      * rewrite <- Hk. f_equal. lia.
      * intros j Hj. rewrite <- (Hall (S j) ltac:(lia)). f_equal. lia.
    + intros j Hj.
      replace (d + step + Z.of_nat j * step)
        with (d + Z.of_nat (S j) * step) by lia.
      apply HC. lia.
    + intros j Hj.
      replace (d + step + Z.of_nat j * step)
        with (d + Z.of_nat (S j) * step) by lia.
      apply Hv. lia.
    + lia.
Qed.

Section DatedLocator.

Variable B : Dated.Date -> bool.
Variable P : Instant -> bool.

Hypothesis B_valid : forall t, B (Some t) = P t.
Hypothesis B_invalid : B None = false.

Variable ref : Z.

Hypothesis ref_valid : Z.abs ref <= MAX_TIME.

Let probe (i : nat) : Instant := ref + Z.of_nat i * Inline.coarseStep.

Let scan (fuel : nat) (d : Dated.Date) : result Dated.Date :=
  Dated.while fuel (fun d => Ok (negb (B d))) (dated_guarded (Some ref)) d.

(** Once the date is invalid the forward scan of Mode B goes on for
    ever. *)
Lemma dated_forward_invalid fuel : scan fuel None = Pending.
Proof.
  unfold scan. induction fuel as [|fuel IH]; [reflexivity|].
  cbn [Dated.while bind]. rewrite B_invalid. cbn [negb].
  unfold dated_guarded at 1. cbv zeta.
  cbn [Dated.shifted Dated.pastHorizon bind]. exact IH.
Qed.

Lemma dated_forward_step fuel (i : nat) :
  Z.abs (probe i) <= MAX_TIME ->
  scan (S fuel) (Some (probe i))
  = if P (probe i) then Ok (Some (probe i))
    else if probe (S i) <=? MAX_TIME
         then if (1440 <? Z.of_nat (S i))
              then Throw SearchExhausted
              else scan fuel (Some (probe (S i)))
         else Pending.
Proof.
  intro Hv. unfold scan at 1. cbn [Dated.while bind]. rewrite B_valid.
  destruct (P (probe i)); cbn [negb]; [reflexivity|].
  unfold dated_guarded at 1. cbv zeta. cbn [Dated.shifted].
  assert (E : probe i + Inline.coarseStep = probe (S i)).
  { unfold probe. lia. }
  rewrite E.
  destruct (Z.leb_spec (probe (S i)) MAX_TIME) as [L|L].
  - rewrite TimeClip_valid.
    2:{ unfold probe in *. change Inline.coarseStep with 1800000 in *. lia. }
    cbn [Dated.pastHorizon].
    replace (probe (S i) - ref >? Inline.horizon)
      with (1440 <? Z.of_nat (S i)).
    2:{ unfold probe. change Inline.coarseStep with 1800000.
        change Inline.horizon with 2592000000.
        destruct (Z.ltb_spec 1440 (Z.of_nat (S i)));
          destruct (Z.gtb_spec (ref + Z.of_nat (S i) * 1800000 - ref)
                      2592000000); try reflexivity; lia. }
    destruct (1440 <? Z.of_nat (S i)); reflexivity.
  - rewrite TimeClip_invalid.
    2:{ unfold probe in *. change Inline.coarseStep with 1800000 in *. lia. }
    cbn [Dated.pastHorizon bind]. apply dated_forward_invalid.
Qed.

Lemma probe_valid (i : nat) : probe i <= MAX_TIME -> Z.abs (probe i) <= MAX_TIME.
Proof.
  unfold probe. change Inline.coarseStep with 1800000. lia.
Qed.

(** The scan ends at the first probe in the band, if that is a valid
    date no more than 30 days on. *)
Lemma dated_forward_exit (k : nat) :
  forall (i fuel : nat),
    (forall j, (j < k)%nat -> P (probe (i + j)) = false) ->
    P (probe (i + k)) = true ->
    (i + k <= 1440)%nat -> probe (i + k) <= MAX_TIME -> (k < fuel)%nat ->
    scan fuel (Some (probe i)) = Ok (Some (probe (i + k))).
Proof.
  induction k as [|k IH]; intros i fuel Hall Hk Hb Hv Hf;
    (destruct fuel as [|fuel]; [lia|]).
  - rewrite Nat.add_0_r in *.
    rewrite dated_forward_step by (apply probe_valid; exact Hv).
    rewrite Hk. reflexivity.
  - assert (V : probe (S i) <= probe (i + S k)).
    { unfold probe. change Inline.coarseStep with 1800000. lia. }
    rewrite dated_forward_step.
    2:{ apply probe_valid. unfold probe in *.
        change Inline.coarseStep with 1800000 in *. lia. }
    pose proof (Hall 0%nat ltac:(lia)) as H0. rewrite Nat.add_0_r in H0.
    rewrite H0.
    destruct (Z.leb_spec (probe (S i)) MAX_TIME) as [L|L]; [|lia].
    destruct (Z.ltb_spec 1440 (Z.of_nat (S i))) as [G|G]; [lia|].
    replace (i + S k)%nat with (S i + k)%nat in * by lia.
    apply IH; try assumption; try lia.
    intros j Hj. replace (S i + j)%nat with (i + S j)%nat by lia.
    apply Hall. lia.
Qed.

(** The scan raises SearchExhausted when 1441 probes are valid dates and
    the first 1441 of them (the reference and 1440 more) are outside the
    band. *)
Lemma dated_forward_raise (n : nat) :
  forall (i fuel : nat),
    (i + n = 1440)%nat ->
    (forall j, (j <= n)%nat -> P (probe (i + j)) = false) ->
    probe 1441 <= MAX_TIME -> (n < fuel)%nat ->
    scan fuel (Some (probe i)) = Throw SearchExhausted.
Proof.
  induction n as [|n IH]; intros i fuel Hi Hall Hv Hf;
    (destruct fuel as [|fuel]; [lia|]).
  - rewrite dated_forward_step.
    2:{ apply probe_valid. unfold probe in *.
        change Inline.coarseStep with 1800000 in *. lia. }
    pose proof (Hall 0%nat ltac:(lia)) as H0. rewrite Nat.add_0_r in H0.
    rewrite H0. replace (S i) with 1441%nat by lia.
    destruct (Z.leb_spec (probe 1441) MAX_TIME) as [L|L]; [|lia].
    reflexivity.
  - rewrite dated_forward_step.
    2:{ apply probe_valid. unfold probe in *.
        change Inline.coarseStep with 1800000 in *. lia. }
    pose proof (Hall 0%nat ltac:(lia)) as H0. rewrite Nat.add_0_r in H0.
    rewrite H0.
    destruct (Z.leb_spec (probe (S i)) MAX_TIME) as [L|L].
    2:{ unfold probe in *. change Inline.coarseStep with 1800000 in *. lia. }
    destruct (Z.ltb_spec 1440 (Z.of_nat (S i))) as [G|G]; [lia|].
    apply IH; try assumption; try lia.
    intros j Hj. replace (S i + j)%nat with (i + S j)%nat by lia.
    apply Hall. lia.
Qed.

(** The scan never ends when the valid dates run out before the band is
    met and before the 30 days are over. *)
Lemma dated_forward_stuck (n : nat) :
  forall (i fuel : nat),
    (i + n <= 1440)%nat ->
    (forall j, (j <= n)%nat -> P (probe (i + j)) = false) ->
    probe (i + n) <= MAX_TIME -> MAX_TIME < probe (S (i + n)) ->
    scan fuel (Some (probe i)) = Pending.
Proof.
  induction n as [|n IH]; intros i fuel Hi Hall Hv Hw;
    (destruct fuel as [|fuel]; [reflexivity|]).
  - rewrite Nat.add_0_r in *.
    rewrite dated_forward_step by (apply probe_valid; exact Hv).
    pose proof (Hall 0%nat ltac:(lia)) as H0. rewrite Nat.add_0_r in H0.
    rewrite H0.
    destruct (Z.leb_spec (probe (S i)) MAX_TIME) as [L|L]; [lia|].
    reflexivity.
  - rewrite dated_forward_step.
    2:{ apply probe_valid. unfold probe in *.
        change Inline.coarseStep with 1800000 in *. lia. }
    pose proof (Hall 0%nat ltac:(lia)) as H0. rewrite Nat.add_0_r in H0.
    rewrite H0.
    destruct (Z.leb_spec (probe (S i)) MAX_TIME) as [L|L].
    2:{ unfold probe in *. change Inline.coarseStep with 1800000 in *. lia. }
    destruct (Z.ltb_spec 1440 (Z.of_nat (S i))) as [G|G]; [lia|].
    replace (i + S n)%nat with (S i + n)%nat in * by lia.
    apply IH; try assumption; try lia.
    intros j Hj. replace (S i + j)%nat with (i + S j)%nat by lia.
    apply Hall. lia.
Qed.

(** The three ways of the forward scan, in terms of the reference. *)
Lemma dated_forward_exits (k fuel : nat) :
  exits_at (fun d => negb (P d)) ref Inline.coarseStep k ->
  (k <= 1440)%nat ->
  ref + Z.of_nat k * Inline.coarseStep <= MAX_TIME -> (k < fuel)%nat ->
  Dated.while fuel (fun d => Ok (negb (B d))) (dated_guarded (Some ref))
    (Some ref)
  = Ok (Some (ref + Z.of_nat k * Inline.coarseStep)).
Proof.
  intros [Hk Hall] Hb Hv Hf.
  pose proof (dated_forward_exit k 0 fuel) as H.
  unfold scan, probe in H. cbn [Nat.add] in H.
  replace (ref + Z.of_nat 0 * Inline.coarseStep) with ref in H by lia.
  apply H; try assumption.
  - intros j Hj. apply negb_true_iff. apply (Hall j Hj).
  - apply negb_false_iff. exact Hk.
Qed.

Lemma dated_forward_raises (fuel : nat) :
  inline_exhausted P ref ->
  ref + 1441 * Inline.coarseStep <= MAX_TIME -> (1440 < fuel)%nat ->
  Dated.while fuel (fun d => Ok (negb (B d))) (dated_guarded (Some ref))
    (Some ref)
  = Throw SearchExhausted.
Proof.
  intros Hex Hv Hf.
  pose proof (dated_forward_raise 1440 0 fuel) as H.
  unfold scan, probe in H. cbn [Nat.add] in H.
  replace (ref + Z.of_nat 0 * Inline.coarseStep) with ref in H by lia.
  apply H; try assumption; try lia.
Qed.

Lemma dated_forward_hangs (fuel : nat) :
  dated_stuck P ref ->
  Dated.while fuel (fun d => Ok (negb (B d))) (dated_guarded (Some ref))
    (Some ref)
  = Pending.
Proof.
  intros [Hw Hall].
  change Inline.coarseStep with 1800000 in *.
  pose (m := Z.to_nat ((MAX_TIME - ref) / 1800000)).
  assert (Hm : Z.of_nat m = (MAX_TIME - ref) / 1800000).
  { unfold m. apply Z2Nat.id. apply Z.div_pos; lia. }
  pose proof (Z.mul_div_le (MAX_TIME - ref) 1800000 ltac:(lia)) as D1.
  pose proof (Z.mul_succ_div_gt (MAX_TIME - ref) 1800000 ltac:(lia)) as D2.
  pose proof (dated_forward_stuck m 0 fuel) as H.
  unfold scan, probe in H. cbn [Nat.add] in H.
  change Inline.coarseStep with 1800000 in H.
  replace (ref + Z.of_nat 0 * 1800000) with ref in H by lia.
  apply H.
  - lia.
  - intros j Hj. apply Hall. lia.
  - lia.
  - lia.
Qed.

(** One of the three happens. *)
Lemma dated_forward_cases :
  (exists k : nat,
      exits_at (fun d => negb (P d)) ref Inline.coarseStep k
      /\ (k <= 1440)%nat
      /\ ref + Z.of_nat k * Inline.coarseStep <= MAX_TIME)
  \/ (inline_exhausted P ref /\ ref + 1441 * Inline.coarseStep <= MAX_TIME)
  \/ dated_stuck P ref.
Proof.
  change Inline.coarseStep with 1800000 in *.
  pose (m := if ref + 1441 * 1800000 <=? MAX_TIME then 1440%nat
             else Z.to_nat ((MAX_TIME - ref) / 1800000)).
  assert (Hm : (m <= 1440)%nat /\ ref + Z.of_nat m * 1800000 <= MAX_TIME
               /\ (MAX_TIME < ref + 1441 * 1800000 ->
                   MAX_TIME < ref + (Z.of_nat m + 1) * 1800000)
               /\ (ref + 1441 * 1800000 <= MAX_TIME -> m = 1440%nat)).
  { unfold m.
    destruct (Z.leb_spec (ref + 1441 * 1800000) MAX_TIME) as [L|L].
    - lia.
    - assert (E : Z.of_nat (Z.to_nat ((MAX_TIME - ref) / 1800000))
                  = (MAX_TIME - ref) / 1800000).
      { apply Z2Nat.id. apply Z.div_pos; lia. }
      pose proof (Z.mul_div_le (MAX_TIME - ref) 1800000 ltac:(lia)) as D1.
      pose proof (Z.mul_succ_div_gt (MAX_TIME - ref) 1800000 ltac:(lia))
        as D2.
      lia. }
  destruct Hm as (M1 & M2 & M3 & M4). clearbody m.
  destruct (bounded_search (fun k => P (ref + Z.of_nat k * 1800000)) m)
    as [(k & Hk & Hp)|Hnone].
  - left.
    destruct (exits_at_first (fun d => negb (P d)) ref 1800000 k)
      as (k0 & Hk0 & He).
    { cbn beta. rewrite Hp. reflexivity. }
    exists k0. split; [exact He|]. split; lia.
  - destruct (Z.leb_spec (ref + 1441 * 1800000) MAX_TIME) as [L|L].
    + right. left. split; [|exact L].
      intros k Hk. apply Hnone. rewrite (M4 L). exact Hk.
    + right. right. split; [exact L|].
      intros k Hk. change Inline.coarseStep with 1800000 in *.
      apply Hnone. specialize (M3 L). lia.
Qed.

End DatedLocator.

Section DatedRuns.

Variable B : Dated.Date -> bool.
Variable P : Instant -> bool.

Hypothesis B_valid : forall t, B (Some t) = P t.
Hypothesis B_invalid : B None = false.

(** An Invalid Date as reference: Mode B, and the forward scan goes on
    for ever. *)
Lemma dated_locator_invalid fuel : dated_locator B fuel None = Pending.
Proof.
  unfold dated_locator. rewrite B_invalid.
  assert (H : forall n,
             Dated.while n (fun d => Ok (negb (B d))) (dated_guarded None)
               None = Pending).
  { induction n as [|n IH]; [reflexivity|].
    cbn [Dated.while bind]. rewrite B_invalid. cbn [negb].
    unfold dated_guarded at 1. cbv zeta.
    cbn [Dated.shifted Dated.pastHorizon bind]. exact IH. }
  rewrite H. reflexivity.
Qed.

Lemma dated_locator_raise fuel ref :
  Z.abs ref <= MAX_TIME ->
  inline_exhausted P ref ->
  ref + 1441 * Inline.coarseStep <= MAX_TIME -> (1440 < fuel)%nat ->
  dated_locator B fuel (Some ref) = Throw SearchExhausted.
Proof.
  intros Hv Hex Hb Hf. unfold dated_locator. rewrite B_valid.
  pose proof (Hex 0%nat ltac:(lia)) as H0.
  replace (ref + Z.of_nat 0 * Inline.coarseStep) with ref in H0 by lia.
  rewrite H0. cbv iota.
  rewrite (dated_forward_raises B P B_valid B_invalid ref Hv fuel Hex Hb Hf).
  reflexivity.
Qed.

Lemma dated_locator_hangs fuel ref :
  Z.abs ref <= MAX_TIME ->
  dated_stuck P ref -> dated_locator B fuel (Some ref) = Pending.
Proof.
  intros Hv Hs. unfold dated_locator. rewrite B_valid.
  pose proof (proj2 Hs 0%nat) as H0.
  replace (ref + Z.of_nat 0 * Inline.coarseStep) with ref in H0 by lia.
  rewrite H0 by lia. cbv iota.
  rewrite (dated_forward_hangs B P B_valid B_invalid ref Hv fuel Hs).
  reflexivity.
Qed.

(** The locator on Date objects raises nothing but SearchExhausted, and
    that only from the forward scan of Mode B, once 1441 probes, all of
    them valid dates, were outside the band. *)
Lemma dated_locator_Throw_inv fuel ref e :
  Z.abs ref <= MAX_TIME ->
  dated_locator B fuel (Some ref) = Throw e ->
  e = SearchExhausted /\ inline_exhausted P ref
  /\ ref + 1441 * Inline.coarseStep <= MAX_TIME.
Proof.
  intros Hv. unfold dated_locator. rewrite B_valid.
  destruct (P ref) eqn:E; intro H.
  - exfalso.
    repeat (apply bind_Throw_inv in H;
            destruct H as [H|(? & _ & H)];
            [exact (dated_scan_no_Throw _ _ _ _ _ H)|]).
    discriminate H.
  - apply bind_Throw_inv in H. destruct H as [H|(? & _ & H)].
    2:{ exfalso.
        repeat (apply bind_Throw_inv in H;
                destruct H as [H|(? & _ & H)];
                [exact (dated_scan_no_Throw _ _ _ _ _ H)|]).
        discriminate H. }
    destruct (dated_forward_cases P ref Hv)
      as [(k & Hk & Hb & Hk')|[[Hex Hb]|Hs]].
    + exfalso.
      pose proof (dated_forward_exits B P B_valid B_invalid ref Hv k
                    (Nat.max fuel (S k)) Hk Hb Hk' ltac:(lia)) as H1.
      rewrite (dated_while_fuel_mono _ _ fuel _ _ (Nat.max fuel (S k)) H
                 ltac:(discriminate) ltac:(lia)) in H1.
      discriminate H1.
    + pose proof (dated_forward_raises B P B_valid B_invalid ref Hv
                    (Nat.max fuel 1441) Hex Hb ltac:(lia)) as H1.
      rewrite (dated_while_fuel_mono _ _ fuel _ _ (Nat.max fuel 1441) H
                 ltac:(discriminate) ltac:(lia)) in H1.
      inversion H1. subst e. repeat split; assumption.
    + rewrite (dated_forward_hangs B P B_valid B_invalid ref Hv fuel Hs) in H.
      discriminate H.
Qed.

(** A run over time values well inside the range of valid dates, whose
    band is left within three days in each direction, is the run on Date
    objects. *)
Lemma dated_locator_within (ref : Z) p :
  searchable ref ->
  (P ref = true ->
   P (ref - 259200000) = false /\ P (ref + 259200000) = false) ->
  (P (start p) = true -> P (start p + 259200000) = false) ->
  inline_run P ref p ->
  forall fuel, (1441 <= fuel)%nat ->
    dated_locator B fuel (Some ref) = Ok (dated p).
Proof.
  intros [Rlo Rhi] Href Hstart Hrun fuel Hfuel.
  pose proof (inline_run_spec _ _ _ Hrun) as (S1 & _).
  specialize (Hstart S1). clear S1.
  revert Hrun. unfold dated_locator, inline_run. rewrite B_valid.
  destruct p as [s e]. unfold dated. cbn [start end_] in *.
  unfold start_inside, start_outside, end_refined.
  destruct (P ref) eqn:E.
  - destruct (Href eq_refl) as [Hb Hf].
    intros [(kb & jf & Hkb & Hjf & ->) (kf & jb & Hkf & Hjb & ->)].
    assert (Bkb : (kb <= 144)%nat).
    { apply (exits_at_before _ _ _ _ _ Hkb). rewrite <- Hb. f_equal;
      try (change Inline.coarseStep with 1800000; lia). }
    assert (Bkf : (kf <= 144)%nat).
    { apply (exits_at_before _ _ _ _ _ Hkf). rewrite <- Hf. f_equal;
      try (change Inline.coarseStep with 1800000; lia). }
    assert (Pkb : (0 < kb)%nat) by (apply (exits_at_pos 1 ltac:(lia) P ref _ _ E Hkb)).
    assert (Pkf : (0 < kf)%nat) by (apply (exits_at_pos 1 ltac:(lia) P ref _ _ E Hkf)).
    assert (Bjf : (jf <= 30)%nat).
    { apply (exits_at_before _ _ _ _ _ Hjf). apply negb_false_iff.
      destruct Hkb as [_ Hall]. rewrite <- (Hall (kb - 1)%nat ltac:(lia)).
      f_equal;
      try (change Inline.coarseStep with 1800000;
           change Inline.fineStep with 60000; lia). }
    assert (Bjb : (jb <= 30)%nat).
    { apply (exits_at_before _ _ _ _ _ Hjb). apply negb_false_iff.
      destruct Hkf as [_ Hall]. rewrite <- (Hall (kf - 1)%nat ltac:(lia)).
      f_equal;
      try (change Inline.coarseStep with 1800000;
           change Inline.fineStep with 60000; lia). }
    rewrite (dated_scan_exit B P (- Inline.coarseStep) kb fuel ref Hkb).
    2:{ intros j Hj. apply B_valid. }
    2:{ intros j Hj. change Inline.coarseStep with 1800000.
        unfold MAX_TIME. lia. }
    2:{ lia. }
    cbn [bind].
    rewrite (dated_scan_exit (fun d => negb (B d)) (fun d => negb (P d))
               Inline.fineStep jf fuel _ Hjf).
    2:{ intros j Hj. cbn beta. rewrite B_valid. reflexivity. }
    2:{ intros j Hj. change Inline.coarseStep with 1800000.
        change Inline.fineStep with 60000. unfold MAX_TIME. lia. }
    2:{ lia. }
    cbn [bind].
    rewrite (dated_scan_exit B P Inline.coarseStep kf fuel ref Hkf).
    2:{ intros j Hj. apply B_valid. }
    2:{ intros j Hj. change Inline.coarseStep with 1800000.
        unfold MAX_TIME. lia. }
    2:{ lia. }
    cbn [bind].
    rewrite (dated_scan_exit (fun d => negb (B d)) (fun d => negb (P d))
               (- Inline.fineStep) jb fuel _ Hjb).
    2:{ intros j Hj. cbn beta. rewrite B_valid. reflexivity. }
    2:{ intros j Hj. change Inline.coarseStep with 1800000.
        change Inline.fineStep with 60000. unfold MAX_TIME. lia. }
    2:{ lia. }
    cbn [bind Dated.shifted].
    rewrite TimeClip_valid.
    2:{ change Inline.coarseStep with 1800000.
        change Inline.fineStep with 60000. unfold MAX_TIME. lia. }
    reflexivity.
  - intros [(ks0 & Hks0 & Hlim) [(ks & js & Hks & Hjs & Hs)
                                   (kf & jb & Hkf & Hjb & ->)]].
    pose proof (exits_at_unique _ _ _ _ _ Hks0 Hks); subst ks0. subst s.
    set (s := ref + Z.of_nat ks * Inline.coarseStep
              + Z.of_nat js * - Inline.fineStep) in *.
    assert (Ps : P s = true).
    { assert (O : start_outside P Inline.coarseStep Inline.fineStep ref s).
      { exists ks, js. repeat split; try apply Hks; try apply Hjs. }
      exact (proj1 (inline_start_outside P ref s E O)). }
    assert (Bks : (ks <= 1440)%nat).
    { change Inline.coarseStep with 1800000 in Hlim.
      change Inline.horizon with 2592000000 in Hlim. lia. }
    assert (Pks : (0 < ks)%nat).
    { apply (exits_at_pos 1 ltac:(lia) (fun d => negb (P d)) ref _ _
               (f_equal negb E) Hks). }
    assert (Bjs : (js <= 29)%nat).
    { apply (exits_at_before _ _ _ _ _ Hjs). cbn beta.
      destruct Hks as [_ Hall].
      specialize (Hall (ks - 1)%nat ltac:(lia)). apply negb_true_iff in Hall.
      rewrite <- Hall. f_equal;
      try (change Inline.coarseStep with 1800000;
           change Inline.fineStep with 60000; lia). }
    assert (Bkf : (kf <= 144)%nat).
    { apply (exits_at_before _ _ _ _ _ Hkf). rewrite <- Hstart. f_equal;
      try (change Inline.coarseStep with 1800000; lia). }
    assert (Pkf : (0 < kf)%nat) by (apply (exits_at_pos 1 ltac:(lia) P s _ _ Ps Hkf)).
    assert (Bjb : (jb <= 30)%nat).
    { apply (exits_at_before _ _ _ _ _ Hjb). apply negb_false_iff.
      destruct Hkf as [_ Hall]. rewrite <- (Hall (kf - 1)%nat ltac:(lia)).
      f_equal;
      try (change Inline.coarseStep with 1800000;
           change Inline.fineStep with 60000; lia). }
    assert (Vs : ref - 1740000 <= s <= ref + 2592000000).
    { unfold s. change Inline.coarseStep with 1800000.
      change Inline.fineStep with 60000. lia. }
    rewrite (dated_forward_exits B P B_valid B_invalid ref
               ltac:(unfold MAX_TIME; lia) ks fuel Hks Bks).
    2:{ change Inline.coarseStep with 1800000. unfold MAX_TIME. lia. }
    2:{ lia. }
    cbn [bind].
    rewrite (dated_scan_exit
               (fun d => B (Dated.shifted d (- Inline.fineStep)))
               (fun d => P (d - Inline.fineStep))
               (- Inline.fineStep) js fuel _ Hjs).
    2:{ intros j Hj. cbn beta. cbn [Dated.shifted].
        rewrite TimeClip_valid.
        - rewrite B_valid. f_equal.
        - change Inline.coarseStep with 1800000.
          change Inline.fineStep with 60000. unfold MAX_TIME. lia. }
    2:{ intros j Hj. change Inline.coarseStep with 1800000.
        change Inline.fineStep with 60000. unfold MAX_TIME. lia. }
    2:{ lia. }
    cbn [bind]. fold s.
    rewrite (dated_scan_exit B P Inline.coarseStep kf fuel s Hkf).
    2:{ intros j Hj. apply B_valid. }
    2:{ intros j Hj. change Inline.coarseStep with 1800000.
        unfold MAX_TIME. lia. }
    2:{ lia. }
    cbn [bind].
    rewrite (dated_scan_exit (fun d => negb (B d)) (fun d => negb (P d))
               (- Inline.fineStep) jb fuel _ Hjb).
    2:{ intros j Hj. cbn beta. rewrite B_valid. reflexivity. }
    2:{ intros j Hj. change Inline.coarseStep with 1800000.
        change Inline.fineStep with 60000. unfold MAX_TIME. lia. }
    2:{ lia. }
    cbn [bind Dated.shifted].
    rewrite TimeClip_valid.
    2:{ change Inline.coarseStep with 1800000.
        change Inline.fineStep with 60000. unfold MAX_TIME. lia. }
    reflexivity.
Qed.

End DatedRuns.

(** ** The era of the band *)

(** Before the year -39797 the ayanamsha is below -560 degrees and the
    second correction of the inline series leaves every longitude at 200
    degrees or more. *)
Lemma ayanamsha_band_not_yet (t : Instant) :
  t <= - 1318009533251144 -> (getLahiriAyanamsha t <= - 560)%Q.
Proof.
  intro H. rewrite ayanamsha_affine.
  assert (H' : (inject_Z t <= inject_Z (- 1318009533251144))%Q)
    by (rewrite <- Zle_Qle; exact H).
  change (inject_Z (- 1318009533251144)) with (- 1318009533251144)%Q in H'.
  lra.
Qed.

Lemma inline_band_not_yet Math_sin Math_PI (t : Instant) :
  (getLahiriAyanamsha t <= - 560)%Q ->
  Inline.isSwathi (Inline.getMoonSiderealLongitude Math_sin Math_PI t)
  = false.
Proof.
  intro Hay. apply inline_isSwathi_false. right.
  rewrite inline_longitude_eq.
  destruct (inline_normalise_cases
              (Inline.eclipticLongitude Math_sin Math_PI t)
              (getLahiriAyanamsha t)) as (n & c & X0 & X1 & E & C).
  rewrite E.
  destruct C as [[-> C]|[[-> C]|[-> C]]].
  - exfalso. lra.
  - exfalso. lra.
  - change (inject_Z (-1)) with (- 1)%Q. lra.
Qed.

(** Whatever the host, the Moon is in the band only between the years
    -39797 and 38471. *)
Lemma inline_band_era Math_sin Math_PI (t : Instant) :
  Inline.isSwathi (Inline.getMoonSiderealLongitude Math_sin Math_PI t)
  = true ->
  - 1318009533251144 < t < BAND_GONE.
Proof.
  intro H. split.
  - destruct (Z_lt_le_dec (- 1318009533251144) t) as [L|L]; [exact L|].
    rewrite (inline_band_not_yet Math_sin Math_PI t
               (ayanamsha_band_not_yet t L)) in H. discriminate.
  - destruct (Z_lt_le_dec t BAND_GONE) as [L|L]; [exact L|].
    rewrite (inline_band_vanishes Math_sin Math_PI t
               (ayanamsha_band_gone t L)) in H. discriminate.
Qed.

(** ** The inline locator on Date objects *)

Lemma dated_locate_eq Math_sin Math_PI fuel d :
  Dated.findCurrentOrNextSwathiPeriod Math_sin Math_PI fuel d
  = dated_locator (Dated.inBand Math_sin Math_PI) fuel d.
Proof.
  unfold Dated.findCurrentOrNextSwathiPeriod, dated_locator, dated_guarded.
  cbv zeta. reflexivity.
Qed.

Lemma inBand_valid Math_sin Math_PI (t : Z) :
  Dated.inBand Math_sin Math_PI (Some t)
  = Inline.isSwathi (Inline.getMoonSiderealLongitude Math_sin Math_PI t).
Proof. reflexivity. Qed.

Lemma inBand_invalid Math_sin Math_PI :
  Dated.inBand Math_sin Math_PI None = false.
Proof. reflexivity. Qed.

Section DatedTotal.

Variable Math_sin : Q -> Q.
Variable Math_PI : Q.

Hypothesis sin_bound : forall x, (- 1 <= Math_sin x /\ Math_sin x <= 1)%Q.

(** Every call on a valid date ends in one of three ways: every loop
    leaves within 1441 rounds and a period of valid dates is returned;
    or the reference is outside the band and the forward scan of Mode B
    raises SearchExhausted; or the reference is outside the band and the
    forward scan of Mode B never ends. *)
Lemma dated_locate_total (ref : Z) (fuel : nat) :
  Z.abs ref <= MAX_TIME -> (1441 <= fuel)%nat ->
  (exists p,
      inline_run (inline_band Math_sin Math_PI) ref p
      /\ Dated.findCurrentOrNextSwathiPeriod Math_sin Math_PI fuel (Some ref)
         = Ok (dated p))
  \/ (inline_exhausted (inline_band Math_sin Math_PI) ref
      /\ Dated.findCurrentOrNextSwathiPeriod Math_sin Math_PI fuel (Some ref)
         = Throw SearchExhausted)
  \/ (dated_stuck (inline_band Math_sin Math_PI) ref
      /\ forall fuel',
           Dated.findCurrentOrNextSwathiPeriod Math_sin Math_PI fuel'
             (Some ref) = Pending).
Proof.
  intros Hv Hfuel.
  destruct (Z_le_gt_dec (- 8636000000000000) ref) as [Hlo|Hlo];
    [destruct (Z_le_gt_dec ref 8636000000000000) as [Hhi|Hhi]|].
  - (* well inside the range *)
    assert (Href : searchable ref) by (split; assumption).
    assert (Hback : Inline.isSwathi
                      (Inline.getMoonSiderealLongitude Math_sin Math_PI ref)
                    = true ->
                    Inline.isSwathi
                      (Inline.getMoonSiderealLongitude Math_sin Math_PI
                         (ref - 259200000)) = false).
    { intro Hin.
      destruct (Inline.isSwathi
                  (Inline.getMoonSiderealLongitude Math_sin Math_PI
                     (ref - 259200000))) eqn:E; [|reflexivity].
      pose proof (inline_leaves_band Math_sin Math_PI sin_bound
                    (ref - 259200000) ltac:(lia) ltac:(lia) E) as H.
      replace (ref - 259200000 + 259200000) with ref in H by lia.
      congruence. }
    destruct (inline_run_total Math_sin Math_PI sin_bound ref Href)
      as [[p Hp]|Hex].
    + left. exists p. split; [exact Hp|].
      pose proof (inline_run_start_lower _ ref p Hback Hp) as Hl.
      pose proof (inline_run_horizon _ ref p Hp) as Hu.
      change Inline.horizon with 2592000000 in Hu.
      rewrite dated_locate_eq.
      refine (dated_locator_within (Dated.inBand Math_sin Math_PI)
                (inline_band Math_sin Math_PI)
                (inBand_valid Math_sin Math_PI)
                (inBand_invalid Math_sin Math_PI) ref p Href _ _ Hp fuel
                Hfuel).
      * intro Hin. split; [exact (Hback Hin)|].
        exact (inline_leaves_band Math_sin Math_PI sin_bound ref
                 ltac:(lia) ltac:(lia) Hin).
      * intro Hin.
        exact (inline_leaves_band Math_sin Math_PI sin_bound (start p)
                 ltac:(lia) ltac:(lia) Hin).
    + right. left. split; [exact Hex|].
      rewrite dated_locate_eq.
      apply (dated_locator_raise (Dated.inBand Math_sin Math_PI)
               (inline_band Math_sin Math_PI)
               (inBand_valid Math_sin Math_PI)
               (inBand_invalid Math_sin Math_PI) fuel ref Hv Hex).
      * change Inline.coarseStep with 1800000. unfold MAX_TIME. lia.
      * lia.
  - (* after the band has gone *)
    assert (Hout : forall t, ref <= t ->
               Inline.isSwathi
                 (Inline.getMoonSiderealLongitude Math_sin Math_PI t)
               = false).
    { intros t Ht. apply inline_band_vanishes. apply ayanamsha_band_gone.
      unfold BAND_GONE. lia. }
    destruct (Z_le_gt_dec (ref + 1441 * Inline.coarseStep) MAX_TIME)
      as [Hb|Hb].
    + right. left.
      assert (Hex : inline_exhausted (inline_band Math_sin Math_PI) ref).
      { intros k Hk. cbn beta. apply Hout.
        change Inline.coarseStep with 1800000. lia. }
      split; [exact Hex|].
      rewrite dated_locate_eq.
      apply (dated_locator_raise (Dated.inBand Math_sin Math_PI)
               (inline_band Math_sin Math_PI)
               (inBand_valid Math_sin Math_PI)
               (inBand_invalid Math_sin Math_PI) fuel ref Hv Hex Hb).
      lia.
    + right. right.
      assert (Hs : dated_stuck (inline_band Math_sin Math_PI) ref).
      { split; [lia|]. intros k Hk. cbn beta. apply Hout.
        change Inline.coarseStep with 1800000. lia. }
      split; [exact Hs|].
      intro fuel'. rewrite dated_locate_eq.
      apply (dated_locator_hangs (Dated.inBand Math_sin Math_PI)
               (inline_band Math_sin Math_PI)
               (inBand_valid Math_sin Math_PI)
               (inBand_invalid Math_sin Math_PI) fuel' ref Hv Hs).
  - (* before the band *)
    right. left.
    assert (Hex : inline_exhausted (inline_band Math_sin Math_PI) ref).
    { intros k Hk. cbn beta. apply inline_band_not_yet.
      apply ayanamsha_band_not_yet.
      change Inline.coarseStep with 1800000. lia. }
    split; [exact Hex|].
    rewrite dated_locate_eq.
    apply (dated_locator_raise (Dated.inBand Math_sin Math_PI)
             (inline_band Math_sin Math_PI)
             (inBand_valid Math_sin Math_PI)
             (inBand_invalid Math_sin Math_PI) fuel ref Hv Hex).
    + change Inline.coarseStep with 1800000. unfold MAX_TIME. lia.
    + lia.
Qed.

End DatedTotal.

(** ** The service over a library that moves like the Moon *)

Section LunarLibrary.

Local Open Scope Q_scope.

Variable Math_PI : Q.
Variable lib : Calculator.SunCalcLibrary.

Hypothesis lunar : lunar_like Math_PI lib.

Lemma calculator_longitude_cases (t : Instant) :
  (calculator_tropical Math_PI lib t - getLahiriAyanamsha t < 0
   /\ calculator_longitude Math_PI lib t
      == calculator_tropical Math_PI lib t - getLahiriAyanamsha t + 360)
  \/ (0 <= calculator_tropical Math_PI lib t - getLahiriAyanamsha t
      /\ calculator_longitude Math_PI lib t
         == calculator_tropical Math_PI lib t - getLahiriAyanamsha t).
Proof.
  unfold calculator_longitude, calculator_tropical. cbv zeta.
  set (y := Calculator.eclipticLon (Calculator.getMoonPosition lib t)
            * (180 / Math_PI)).
  destruct (Qlt_bool (y - getLahiriAyanamsha t) 0) eqn:E.
  - apply Qlt_bool_true in E. left. split; [exact E|reflexivity].
  - apply Qlt_bool_false in E. right. split; [exact E|reflexivity].
Qed.

(** Two days on, the longitude has grown by 22 to 32 degrees, more than
    the width of the band and less than a turn without it. *)
Lemma lunar_two_days (t : Instant) :
  calculator_band Math_PI lib t = true ->
  calculator_band Math_PI lib (t + 172800000)%Z = false.
Proof.
  unfold calculator_band. intro Hin.
  rewrite calculator_isSwathi_eq in Hin. rewrite calculator_isSwathi_eq.
  destruct (Inline.isSwathi
              (calculator_longitude Math_PI lib (t + 172800000)%Z))
    eqn:Hin'; [|reflexivity].
  exfalso. apply inline_isSwathi_true in Hin, Hin'.
  destruct lunar as [Hrange Hstep].
  destruct (Hstep t 172800000%Z ltac:(lia)) as (n & g & Hg & G0 & G1).
  change (inject_Z 172800000) with 172800000%Q in G0, G1.
  setoid_replace (11 * (172800000 / 86400000)) with 22 in G0
    by reflexivity.
  setoid_replace (16 * (172800000 / 86400000)) with 32 in G1
    by reflexivity.
  pose proof (Hrange t) as R0. pose proof (Hrange (t + 172800000)%Z) as R1.
  pose proof (ayanamsha_step t 172800000) as Hay.
  change (inject_Z 172800000) with 172800000%Q in Hay.
  clear Hrange Hstep.
  assert (Hn : (- 1 < n < 2)%Z).
  { split; rewrite Zlt_Qlt.
    - change (inject_Z (- 1)) with (- 1). lra.
    - change (inject_Z 2) with 2. lra. }
  destruct (calculator_longitude_cases t) as [[C E]|[C E]];
    destruct (calculator_longitude_cases (t + 172800000)%Z)
      as [[C' E']|[C' E']];
    rewrite E in Hin; rewrite E' in Hin'; rewrite Hay in *;
    rewrite Hg in *;
    (assert (Hc : n = 0%Z \/ n = 1%Z) by lia);
    destruct Hc as [-> | ->];
    [change (inject_Z 0) with 0 in * | change (inject_Z 1) with 1 in *
    |change (inject_Z 0) with 0 in * | change (inject_Z 1) with 1 in *
    |change (inject_Z 0) with 0 in * | change (inject_Z 1) with 1 in *
    |change (inject_Z 0) with 0 in * | change (inject_Z 1) with 1 in *];
    lra.
Qed.

Lemma lunar_leaves_band (t : Instant) :
  calculator_band Math_PI lib t = true ->
  (exists k : nat,
      calculator_band Math_PI lib
        (t + Z.of_nat k * - Calculator.coarseStep)%Z = false)
  /\ exists k : nat,
       calculator_band Math_PI lib
         (t + Z.of_nat k * Calculator.coarseStep)%Z = false.
Proof.
  intro Hin. split; exists 48%nat.
  - change (Z.of_nat 48 * - Calculator.coarseStep)%Z with (- 172800000)%Z.
    destruct (calculator_band _ _ (t + - 172800000)%Z) eqn:E; [|reflexivity].
    pose proof (lunar_two_days _ E) as H.
    replace (t + - 172800000 + 172800000)%Z with t in H by lia. congruence.
  - change (Z.of_nat 48 * Calculator.coarseStep)%Z with 172800000%Z.
    apply lunar_two_days. exact Hin.
Qed.

End LunarLibrary.

(** The mean-motion library moves like the Moon. *)
Lemma meanMotion_lunar_like : lunar_like PI_double meanMotionSunCalc.
Proof.
  assert (T : forall t : Instant,
             let x := (218.316
                       + 13.176396 * (inject_Z (t - J2000) / 86400000))%Q in
             (0 <= calculator_tropical PI_double meanMotionSunCalc t
              /\ calculator_tropical PI_double meanMotionSunCalc t < 360)%Q
             /\ exists n : Z,
                  (calculator_tropical PI_double meanMotionSunCalc t
                   == x + 360 * inject_Z n)%Q).
  { intro t. cbv zeta.
    unfold calculator_tropical, meanMotionSunCalc, meanMotionMoon.
    cbv zeta. cbn [Calculator.getMoonPosition Calculator.eclipticLon].
    set (x := (218.316 + 13.176396 * (inject_Z (t - J2000) / 86400000))%Q).
    destruct (tropical_normalised x) as [Hr [n Hn]]. cbv zeta in Hr, Hn.
    set (y := if Qlt_bool (Qrem x 360) 0 then (Qrem x 360 + 360)%Q
              else Qrem x 360) in *.
    clearbody y.
    assert (E : (y * (PI_double / 180) * (180 / PI_double) == y)%Q)
      by (unfold PI_double; field).
    split; [rewrite E; exact Hr|]. exists n. rewrite E. exact Hn. }
  split.
  - intro t. exact (proj1 (T t)).
  - intros t d Hd.
    destruct (T t) as [_ [n Hn]]. destruct (T (t + d)) as [_ [n' Hn']].
    cbv zeta in Hn, Hn'.
    exists (n - n'), (13.176396 * (inject_Z d / 86400000))%Q.
    assert (D0 : (0 <= inject_Z d)%Q).
    { change 0%Q with (inject_Z 0). rewrite <- Zle_Qle. exact Hd. }
    assert (W : (0 <= inject_Z d / 86400000)%Q).
    { apply Qle_shift_div_l; [reflexivity|]. lra. }
    split; [|split].
    + rewrite Hn', Hn.
      replace (t + d - J2000) with ((t - J2000) + d) by lia.
      unfold Z.sub at 3. rewrite !inject_Z_plus, inject_Z_opp. field.
    + set (z := (inject_Z d / 86400000)%Q) in *. clearbody z. lra.
    + set (z := (inject_Z d / 86400000)%Q) in *. clearbody z. lra.
Qed.

(** ** Rejections *)

(** C1, counterexample: without SunCalc the service rejects with an error
    that is not SearchExhausted. *)
Lemma service_rejects_without_SunCalc :
  Calculator.findCurrentOrNextSwathiPeriod PI_double windowBare 128
    1704067200000 = Throw SunCalcNotLoaded
  /\ SunCalcNotLoaded <> SearchExhausted.
Proof. split; [reflexivity|discriminate]. Qed.

(** C1, amended.  The inline locator, on Date objects: from a valid date
    it rejects only with SearchExhausted, exactly when the reference and
    the 1440 coarse probes up to 30 days after it are all outside the band
    and the probe after them, the first one more than 30 days on, is still
    a valid date; when the valid dates run out before that and before the
    band is met, the forward scan never ends and nothing is raised; nor is
    anything raised from an Invalid Date.  The service rejects only with
    SunCalcNotLoaded, exactly when the global SunCalc is undefined. *)
Theorem locate_rejections :
  (forall Math_sin Math_PI (reference : Z),
      Z.abs reference <= MAX_TIME ->
      (forall fuel e,
          Dated.findCurrentOrNextSwathiPeriod Math_sin Math_PI fuel
            (Some reference) = Throw e ->
          e = SearchExhausted
          /\ inline_exhausted (inline_band Math_sin Math_PI) reference
          /\ reference + 1441 * Inline.coarseStep <= MAX_TIME)
      /\ (inline_exhausted (inline_band Math_sin Math_PI) reference ->
          reference + 1441 * Inline.coarseStep <= MAX_TIME ->
          forall fuel, (1440 < fuel)%nat ->
            Dated.findCurrentOrNextSwathiPeriod Math_sin Math_PI fuel
              (Some reference) = Throw SearchExhausted)
      /\ (dated_stuck (inline_band Math_sin Math_PI) reference ->
          forall fuel,
            Dated.findCurrentOrNextSwathiPeriod Math_sin Math_PI fuel
              (Some reference) = Pending))
  /\ (forall Math_sin Math_PI fuel,
        Dated.findCurrentOrNextSwathiPeriod Math_sin Math_PI fuel None
        = Pending)
  /\ (forall Math_PI window reference,
        (forall fuel e,
            Calculator.findCurrentOrNextSwathiPeriod Math_PI window fuel
              reference = Throw e ->
            e = SunCalcNotLoaded /\ Calculator.SunCalc window = None)
        /\ (Calculator.SunCalc window = None ->
            forall fuel,
              Calculator.findCurrentOrNextSwathiPeriod Math_PI window fuel
                reference = Throw SunCalcNotLoaded)).
Proof.
  split; [|split].
  - intros Math_sin Math_PI reference Hv. split; [|split].
    + intros fuel e H. rewrite dated_locate_eq in H.
      exact (dated_locator_Throw_inv (Dated.inBand Math_sin Math_PI)
               (inline_band Math_sin Math_PI)
               (inBand_valid Math_sin Math_PI)
               (inBand_invalid Math_sin Math_PI) fuel reference e Hv H).
    + intros Hex Hb fuel Hfuel. rewrite dated_locate_eq.
      exact (dated_locator_raise (Dated.inBand Math_sin Math_PI)
               (inline_band Math_sin Math_PI)
               (inBand_valid Math_sin Math_PI)
               (inBand_invalid Math_sin Math_PI) fuel reference Hv Hex Hb
               Hfuel).
    + intros Hs fuel. rewrite dated_locate_eq.
      exact (dated_locator_hangs (Dated.inBand Math_sin Math_PI)
               (inline_band Math_sin Math_PI)
               (inBand_valid Math_sin Math_PI)
               (inBand_invalid Math_sin Math_PI) fuel reference Hv Hs).
  - intros Math_sin Math_PI fuel. rewrite dated_locate_eq.
    apply dated_locator_invalid. apply inBand_invalid.
  - intros Math_PI window reference. split.
    + intros fuel e H.
      destruct (Calculator.SunCalc window) as [lib|] eqn:Hw.
      * rewrite (calculator_locate_eq _ _ lib _ _ Hw) in H.
        exfalso. exact (calculator_locator_no_Throw _ _ _ _ H).
      * rewrite (calculator_locate_bare _ _ _ _ Hw) in H.
        inversion H. split; reflexivity.
    + intros Hw fuel. apply calculator_locate_bare. exact Hw.
Qed.

(** From the year 38471 on no probe is in the band, whatever the host. *)
Lemma band_gone_exhausted Math_sin Math_PI (ref : Instant) :
  BAND_GONE <= ref ->
  inline_exhausted (inline_band Math_sin Math_PI) ref.
Proof.
  intros H k Hk. apply inline_band_vanishes. apply ayanamsha_band_gone.
  change Inline.coarseStep with 1800000. lia.
Qed.

Lemma band_gone_stuck Math_sin Math_PI (ref : Instant) :
  BAND_GONE <= ref -> MAX_TIME < ref + 1441 * Inline.coarseStep ->
  dated_stuck (inline_band Math_sin Math_PI) ref.
Proof.
  intros H Hw. split; [exact Hw|].
  intros k Hk. apply inline_band_vanishes. apply ayanamsha_band_gone.
  change Inline.coarseStep with 1800000. lia.
Qed.

Lemma locate_rejections_witness :
  Dated.findCurrentOrNextSwathiPeriod noSine PI_double 1441
    (Some 1600000000000000) = Throw SearchExhausted
  /\ (SearchExhausted = SearchExhausted
      /\ inline_exhausted (inline_band noSine PI_double) 1600000000000000
      /\ 1600000000000000 + 1441 * Inline.coarseStep <= MAX_TIME)
  /\ Dated.findCurrentOrNextSwathiPeriod noSine PI_double 1441
       (Some 8639999000000000) = Pending
  /\ Calculator.findCurrentOrNextSwathiPeriod PI_double windowBare 128
       1704067200000 = Throw SunCalcNotLoaded
  /\ (SunCalcNotLoaded = SunCalcNotLoaded
      /\ Calculator.SunCalc windowBare = None).
Proof.
  assert (V1 : Z.abs 1600000000000000 <= MAX_TIME)
    by (unfold MAX_TIME; lia).
  assert (V2 : Z.abs 8639999000000000 <= MAX_TIME)
    by (unfold MAX_TIME; lia).
  assert (H1 : Dated.findCurrentOrNextSwathiPeriod noSine PI_double 1441
                 (Some 1600000000000000) = Throw SearchExhausted).
  { apply (proj1 (proj2 (proj1 locate_rejections noSine PI_double
                           1600000000000000 V1))).
    - apply band_gone_exhausted. unfold BAND_GONE. lia.
    - unfold MAX_TIME. change Inline.coarseStep with 1800000. lia.
    - lia. }
  assert (H2 : Calculator.findCurrentOrNextSwathiPeriod PI_double windowBare
                 128 1704067200000 = Throw SunCalcNotLoaded).
  { apply (proj2 (proj2 (proj2 locate_rejections) PI_double windowBare
                    1704067200000)).
    reflexivity. }
  split; [exact H1|]. split; [|split; [|split]].
  - exact (proj1 (proj1 locate_rejections noSine PI_double
                    1600000000000000 V1) 1441%nat _ H1).
  - apply (proj2 (proj2 (proj1 locate_rejections noSine PI_double
                           8639999000000000 V2))).
    apply band_gone_stuck.
    + unfold BAND_GONE. lia.
    + unfold MAX_TIME. change Inline.coarseStep with 1800000. lia.
  - exact H2.
  - exact (proj1 (proj2 (proj2 locate_rejections) PI_double windowBare
                    1704067200000) 128%nat _ H2).
Defined.

(** ** Termination *)

(** C6: every loop other than the forward coarse scan of Mode B reaches
    its exit.

    The inline locator, on Date objects, for any sine with values in
    [-1, 1] and from every valid date: with 1441 rounds for each loop the
    call has returned a period, so that every loop has left; or the
    reference is outside the band and the scan that does not return is
    the forward coarse scan of Mode B, which raises SearchExhausted, or
    goes on for ever once the valid dates have run out.

    The service, over a library that reports a longitude in [0, 360)
    growing by between 11 and 16 degrees a day: the call returns a period
    as soon as its forward coarse scan, the only loop left to itself,
    meets the band; from a reference in the band that is at once. *)
Theorem locate_loops_terminate :
  (forall Math_sin Math_PI,
      (forall x, (- 1 <= Math_sin x /\ Math_sin x <= 1)%Q) ->
      forall (reference : Z) (fuel : nat),
        Z.abs reference <= MAX_TIME -> (1441 <= fuel)%nat ->
        (exists p,
            inline_run (inline_band Math_sin Math_PI) reference p
            /\ Dated.findCurrentOrNextSwathiPeriod Math_sin Math_PI fuel
                 (Some reference) = Ok (dated p))
        \/ (Inline.isSwathi
              (Inline.getMoonSiderealLongitude Math_sin Math_PI reference)
            = false
            /\ inline_exhausted (inline_band Math_sin Math_PI) reference
            /\ Dated.findCurrentOrNextSwathiPeriod Math_sin Math_PI fuel
                 (Some reference) = Throw SearchExhausted)
        \/ (Inline.isSwathi
              (Inline.getMoonSiderealLongitude Math_sin Math_PI reference)
            = false
            /\ dated_stuck (inline_band Math_sin Math_PI) reference
            /\ forall fuel',
                 Dated.findCurrentOrNextSwathiPeriod Math_sin Math_PI fuel'
                   (Some reference) = Pending))
  /\ (forall Math_PI window lib,
        Calculator.SunCalc window = Some lib ->
        lunar_like Math_PI lib ->
        forall reference,
          (exists k : nat,
              calculator_band Math_PI lib
                (reference + Z.of_nat k * Calculator.coarseStep) = true) ->
          exists fuel0 p, forall fuel, (fuel0 <= fuel)%nat ->
            Calculator.findCurrentOrNextSwathiPeriod Math_PI window fuel
              reference = Ok p).
Proof.
  split.
  - intros Math_sin Math_PI Hsin reference fuel Hv Hfuel.
    destruct (dated_locate_total Math_sin Math_PI Hsin reference fuel Hv
                Hfuel) as [Hp|[[Hex Ht]|[Hs Hp]]].
    + left. exact Hp.
    + right. left. split; [|split; assumption].
      pose proof (Hex 0%nat ltac:(lia)) as H0. cbn beta in H0.
      replace (reference + Z.of_nat 0 * Inline.coarseStep) with reference
        in H0 by lia.
      exact H0.
    + right. right. split; [|split; assumption].
      pose proof (proj2 Hs 0%nat) as H0. cbn beta in H0.
      replace (reference + Z.of_nat 0 * Inline.coarseStep) with reference
        in H0 by lia.
      apply H0. lia.
  - intros Math_PI window lib Hw Hlunar reference Hreach.
    destruct (calculator_run_exists _ reference
                (lunar_leaves_band Math_PI lib Hlunar) Hreach) as [p Hp].
    destruct (calculator_locator_complete _ _ _ Hp) as [fuel0 Hfuel].
    exists fuel0, p. intros fuel Hle.
    rewrite (calculator_locate_eq _ _ lib _ _ Hw). apply Hfuel. exact Hle.
Qed.

Lemma locate_loops_terminate_witness :
  ((exists p,
       inline_run (inline_band noSine PI_double) 1704426240000 p
       /\ Dated.findCurrentOrNextSwathiPeriod noSine PI_double 1441
            (Some 1704426240000) = Ok (dated p))
   \/ (Inline.isSwathi
         (Inline.getMoonSiderealLongitude noSine PI_double 1704426240000)
       = false
       /\ inline_exhausted (inline_band noSine PI_double) 1704426240000
       /\ Dated.findCurrentOrNextSwathiPeriod noSine PI_double 1441
            (Some 1704426240000) = Throw SearchExhausted)
   \/ (Inline.isSwathi
         (Inline.getMoonSiderealLongitude noSine PI_double 1704426240000)
       = false
       /\ dated_stuck (inline_band noSine PI_double) 1704426240000
       /\ forall fuel',
            Dated.findCurrentOrNextSwathiPeriod noSine PI_double fuel'
              (Some 1704426240000) = Pending))
  /\ (exists fuel0 p, forall fuel, (fuel0 <= fuel)%nat ->
        Calculator.findCurrentOrNextSwathiPeriod PI_double windowLoaded fuel
          1704067200000 = Ok p).
Proof.
  split.
  - apply (proj1 locate_loops_terminate noSine PI_double).
    + intro x. split; discriminate.
    + unfold MAX_TIME. lia.
    + lia.
  - apply (proj2 locate_loops_terminate PI_double windowLoaded
             meanMotionSunCalc).
    + reflexivity.
    + exact meanMotion_lunar_like.
    + exists 100%nat. vm_compute. reflexivity.
Defined.

(** ** The sidereal longitude *)

Lemma calculator_longitude_closed_range Math_PI lib t :
  (0 <= getLahiriAyanamsha t)%Q -> (getLahiriAyanamsha t <= 360)%Q ->
  (0 <= Calculator.eclipticLon (Calculator.getMoonPosition lib t)
        * (180 / Math_PI))%Q ->
  (Calculator.eclipticLon (Calculator.getMoonPosition lib t)
   * (180 / Math_PI) < 360)%Q ->
  (0 <= calculator_longitude Math_PI lib t
   /\ calculator_longitude Math_PI lib t <= 360)%Q.
Proof.
  intros A0 A1 T0 T1.
  destruct (calculator_longitude_range Math_PI lib t A0 A1 T0 T1) as [L U].
  split; [exact L|]. apply Qlt_le_weak. exact U.
Qed.

(** C2, counterexamples.  Past two turns of ayanamsha the longitude of the
    inline series is negative whatever the sine and pi, as on 52671-12-25.
    Computed as the program computes, on binary64, it is negative on
    38449-10-31 at 10:11:14.644Z already (-173.02), where the ayanamsha is
    533 degrees.  The service returns 360 itself when the difference of
    the tropical longitude and the ayanamsha is a negative number too
    small to show in the sum with 360: on 2024-01-01T00:00:00Z with an
    ecliptic longitude of 0.42221255647662331 radians. *)
Lemma longitude_out_of_range :
  (forall Math_sin Math_PI,
      (Inline.getMoonSiderealLongitude Math_sin Math_PI 1600000000000000%Z
       < 0)%Q)
  /\ PrimFloat.ltb
       (Binary64.getMoonSiderealLongitude Binary64.sin (Binary64.number 1151192340674644))
       0%float = true
  /\ PrimFloat.eqb
       (Binary64.getLunarSiderealLongitude 0.42221255647662331%float
          (Binary64.number 1704067200000))
       360%float = true.
Proof.
  split; [|split].
  - intros Math_sin Math_PI. apply inline_longitude_negative.
    vm_compute. discriminate.
  - vm_compute. reflexivity.
  - vm_compute. reflexivity.
Qed.

(** C2, amended: the sidereal longitude of the inline series is in
    [0, 360) at every instant at which the ayanamsha is above -360 and at
    most 360 degrees; that of the service is in [0, 360], the end
    included, at every instant at which the ayanamsha is between 0 and 360
    degrees and the ecliptic longitude SunCalc reports, in degrees, is in
    [0, 360). *)
Theorem sidereal_longitude_range :
  (forall Math_sin Math_PI (t : Instant),
      (- 360 < getLahiriAyanamsha t)%Q -> (getLahiriAyanamsha t <= 360)%Q ->
      (0 <= Inline.getMoonSiderealLongitude Math_sin Math_PI t
       /\ Inline.getMoonSiderealLongitude Math_sin Math_PI t < 360)%Q)
  /\ (forall Math_PI window lib (t : Instant) (l : Q),
        (0 <= getLahiriAyanamsha t)%Q -> (getLahiriAyanamsha t <= 360)%Q ->
        Calculator.SunCalc window = Some lib ->
        (0 <= Calculator.eclipticLon (Calculator.getMoonPosition lib t)
              * (180 / Math_PI))%Q ->
        (Calculator.eclipticLon (Calculator.getMoonPosition lib t)
         * (180 / Math_PI) < 360)%Q ->
        Calculator.getLunarSiderealLongitude Math_PI window t = Ok l ->
        (0 <= l /\ l <= 360)%Q).
Proof.
  split.
  - intros Math_sin Math_PI t A0 A1. rewrite inline_longitude_eq.
    apply inline_normalise_range; assumption.
  - intros Math_PI window lib t l A0 A1 Hw T0 T1 H.
    rewrite (calculator_longitude_loaded _ _ lib t Hw) in H.
    inversion H; subst l.
    apply calculator_longitude_closed_range; assumption.
Qed.

Lemma sidereal_longitude_range_witness :
  (0 <= Inline.getMoonSiderealLongitude noSine PI_double 1704067200000%Z
   /\ Inline.getMoonSiderealLongitude noSine PI_double 1704067200000%Z
      < 360)%Q
  /\ exists l,
       Calculator.getLunarSiderealLongitude PI_double windowLoaded
         1704067200000 = Ok l
       /\ (0 <= l /\ l <= 360)%Q.
Proof.
  split.
  - apply (proj1 sidereal_longitude_range noSine PI_double 1704067200000).
    + vm_compute. reflexivity.
    + vm_compute. discriminate.
  - eexists. split; [reflexivity|].
    apply (proj2 sidereal_longitude_range PI_double windowLoaded
             meanMotionSunCalc 1704067200000).
    + vm_compute. discriminate.
    + vm_compute. discriminate.
    + reflexivity.
    + vm_compute. discriminate.
    + vm_compute. reflexivity.
    + reflexivity.
Defined.

(** ** Determinism *)

(** Equal sines, equal band tests. *)
Lemma inline_band_sines (sin1 sin2 : Q -> Q) (Math_PI : Q) :
  (forall x, (sin1 x == sin2 x)%Q) ->
  forall t : Instant,
    Inline.isSwathi (Inline.getMoonSiderealLongitude sin1 Math_PI t)
    = Inline.isSwathi (Inline.getMoonSiderealLongitude sin2 Math_PI t).
Proof.
  intros E t. apply isSwathi_comp. rewrite !inline_longitude_eq.
  apply inline_normalise_comp; [|reflexivity].
  unfold Inline.eclipticLongitude, Inline.sigmaL. cbv zeta.
  rewrite !E. reflexivity.
Qed.

Lemma calculator_locator_ext (P P' : Instant -> bool) :
  (forall d, P d = P' d) ->
  forall fuel ref,
    calculator_locator P fuel ref = calculator_locator P' fuel ref.
Proof.
  intros E fuel ref. unfold calculator_locator. rewrite (E ref).
  destruct (P' ref).
  - rewrite (while_ext (fun d => Ok (P d)) (fun d => Ok (P' d))
               (fun d => Ok (d - Calculator.coarseStep))
               (fun d => Ok (d - Calculator.coarseStep)))
      by (intro d; rewrite ?E; reflexivity).
    destruct (while fuel _ _ ref) as [s0| |]; cbn [bind]; try reflexivity.
    rewrite (while_ext (fun d => Ok (negb (P d))) (fun d => Ok (negb (P' d)))
               (fun d => Ok (d + Calculator.fineStep))
               (fun d => Ok (d + Calculator.fineStep)))
      by (intro d; rewrite ?E; reflexivity).
    destruct (while fuel _ _ s0) as [s| |]; cbn [bind]; try reflexivity.
    rewrite (while_ext (fun d => Ok (P d)) (fun d => Ok (P' d))
               (fun d => Ok (d + Calculator.coarseStep))
               (fun d => Ok (d + Calculator.coarseStep)))
      by (intro d; rewrite ?E; reflexivity).
    destruct (while fuel _ _ ref) as [e0| |]; cbn [bind]; try reflexivity.
    rewrite (while_ext (fun d => Ok (P d)) (fun d => Ok (P' d))
               (fun d => Ok (d + Calculator.fineStep))
               (fun d => Ok (d + Calculator.fineStep)))
      by (intro d; rewrite ?E; reflexivity).
    reflexivity.
  - rewrite (while_ext (fun d => Ok (negb (P d))) (fun d => Ok (negb (P' d)))
               (fun d => Ok (d + Calculator.coarseStep))
               (fun d => Ok (d + Calculator.coarseStep)))
      by (intro d; rewrite ?E; reflexivity).
    destruct (while fuel _ _ ref) as [s0| |]; cbn [bind]; try reflexivity.
    rewrite (while_ext (fun d => Ok (P (d - Calculator.fineStep)))
               (fun d => Ok (P' (d - Calculator.fineStep)))
               (fun d => Ok (d - Calculator.fineStep))
               (fun d => Ok (d - Calculator.fineStep)))
      by (intro d; rewrite ?E; reflexivity).
    destruct (while fuel _ _ s0) as [s| |]; cbn [bind]; try reflexivity.
    rewrite (while_ext (fun d => Ok (P d)) (fun d => Ok (P' d))
               (fun d => Ok (d + Calculator.coarseStep))
               (fun d => Ok (d + Calculator.coarseStep)))
      by (intro d; rewrite ?E; reflexivity).
    destruct (while fuel _ _ s) as [e0| |]; cbn [bind]; try reflexivity.
    rewrite (while_ext (fun d => Ok (P d)) (fun d => Ok (P' d))
               (fun d => Ok (d + Calculator.fineStep))
               (fun d => Ok (d + Calculator.fineStep)))
      by (intro d; rewrite ?E; reflexivity).
    reflexivity.
Qed.

(** Equal reports, equal band tests. *)
Lemma calculator_band_reports Math_PI lib1 lib2 :
  (forall date : Instant,
      (Calculator.eclipticLon (Calculator.getMoonPosition lib1 date)
       == Calculator.eclipticLon (Calculator.getMoonPosition lib2 date))%Q) ->
  forall d, calculator_band Math_PI lib1 d = calculator_band Math_PI lib2 d.
Proof.
  intros E d. unfold calculator_band. rewrite !calculator_isSwathi_eq.
  apply isSwathi_comp. unfold calculator_longitude. cbv zeta.
  set (y1 := (Calculator.eclipticLon (Calculator.getMoonPosition lib1 d)
              * (180 / Math_PI))%Q).
  set (y2 := (Calculator.eclipticLon (Calculator.getMoonPosition lib2 d)
              * (180 / Math_PI))%Q).
  assert (Ey : (y1 - getLahiriAyanamsha d == y2 - getLahiriAyanamsha d)%Q).
  { unfold y1, y2. rewrite (E d). reflexivity. }
  rewrite (Qlt_bool_comp _ _ 0 Ey).
  destruct (Qlt_bool (y2 - getLahiriAyanamsha d) 0); rewrite Ey; reflexivity.
Qed.

(** The service under two states of the global object that report the
    same. *)
Lemma calculator_locate_reports Math_PI w1 w2 fuel reference :
  same_reports w1 w2 ->
  Calculator.findCurrentOrNextSwathiPeriod Math_PI w1 fuel reference
  = Calculator.findCurrentOrNextSwathiPeriod Math_PI w2 fuel reference.
Proof.
  unfold same_reports.
  destruct (Calculator.SunCalc w1) as [lib1|] eqn:H1;
    destruct (Calculator.SunCalc w2) as [lib2|] eqn:H2; intro E;
    try contradiction.
  - rewrite (calculator_locate_eq _ _ lib1 _ _ H1).
    rewrite (calculator_locate_eq _ _ lib2 _ _ H2).
    apply calculator_locator_ext.
    apply calculator_band_reports. exact E.
  - rewrite (calculator_locate_bare _ _ _ _ H1).
    rewrite (calculator_locate_bare _ _ _ _ H2). reflexivity.
Qed.

Lemma calculator_example_longer :
  Calculator.findCurrentOrNextSwathiPeriod PI_double windowLoaded 256
    1704067200000
  = Ok {| start := 1704426840000; end_ := 1704516840000 |}.
Proof. vm_compute. reflexivity. Qed.

(** C8, counterexample: two calls of the service with the same reference,
    2024-01-01T00:00:00Z, one before the script of SunCalc has set the
    global [window.SunCalc] and one after: the first rejects, the second
    returns a period. *)
Lemma service_depends_on_the_global :
  Calculator.findCurrentOrNextSwathiPeriod PI_double windowBare 128
    1704067200000 = Throw SunCalcNotLoaded
  /\ Calculator.findCurrentOrNextSwathiPeriod PI_double windowLoaded 128
       1704067200000
     = Ok {| start := 1704426840000; end_ := 1704516840000 |}.
Proof. split; [reflexivity|exact calculator_example]. Qed.

(** C8, amended.  Neither locator reads a clock.  The inline locator
    reads nothing but its reference and the host's sine and pi: two calls
    with the same reference, under sines that return equal values,
    complete alike, however long each was left to run, with the same
    period or the same error.  The service reads the global
    [window.SunCalc] besides, at every probe: two calls with the same
    reference complete alike when the global is undefined at both, or
    holds at both a library that reports the same ecliptic longitudes. *)
Theorem locate_is_deterministic :
  (forall sin1 sin2 Math_PI (n m : nat) reference r1 r2,
      (forall x, (sin1 x == sin2 x)%Q) ->
      Inline.findCurrentOrNextSwathiPeriod sin1 Math_PI n reference = r1 ->
      Inline.findCurrentOrNextSwathiPeriod sin2 Math_PI m reference = r2 ->
      r1 <> Pending -> r2 <> Pending -> r1 = r2)
  /\ (forall Math_PI window1 window2 (n m : nat) reference r1 r2,
        same_reports window1 window2 ->
        Calculator.findCurrentOrNextSwathiPeriod Math_PI window1 n reference
        = r1 ->
        Calculator.findCurrentOrNextSwathiPeriod Math_PI window2 m reference
        = r2 ->
        r1 <> Pending -> r2 <> Pending -> r1 = r2).
Proof.
  split.
  - intros sin1 sin2 Math_PI n m reference r1 r2 Hsame H1 H2 N1 N2.
    rewrite inline_locate_eq in H1.
    rewrite (inline_locator_ext _ _ (inline_band_sines sin1 sin2 Math_PI
                                       Hsame)) in H1.
    rewrite <- inline_locate_eq in H1.
    rewrite <- H1, <- H2.
    apply (result_fuel_agree _
             (inline_locate_fuel_mono sin2 Math_PI reference));
      congruence.
  - intros Math_PI window1 window2 n m reference r1 r2 Hsame H1 H2 N1 N2.
    rewrite (calculator_locate_reports Math_PI window1 window2 n reference
               Hsame) in H1.
    rewrite <- H1, <- H2.
    apply (result_fuel_agree _
             (calculator_locate_fuel_mono Math_PI window2 reference));
      congruence.
Qed.

(** The library loaded a second time reports the same. *)
Lemma meanMotion_twice : same_reports windowLoaded windowReloaded.
Proof.
  intro date.
  cbn [Calculator.getMoonPosition Calculator.eclipticLon meanMotionSunCalc
       meanMotionSunCalcAgain].
  rewrite Qred_correct. reflexivity.
Qed.

Lemma locate_is_deterministic_witness :
  Ok {| start := 1704426840000; end_ := 1704514260000 |}
  = Inline.findCurrentOrNextSwathiPeriod noSine PI_double 65 1704426240000
  /\ Ok {| start := 1704426840000; end_ := 1704516840000 |}
     = Calculator.findCurrentOrNextSwathiPeriod PI_double windowReloaded
         256 1704067200000.
Proof.
  split.
  - apply (proj1 locate_is_deterministic noSine noSine PI_double 64%nat
             65%nat 1704426240000 _ _ (fun x => Qeq_refl (noSine x))
             inline_example eq_refl).
    + discriminate.
    + rewrite (inline_locate_fuel_mono noSine PI_double 1704426240000
                 64%nat 65%nat _ inline_example ltac:(discriminate)
                 ltac:(lia)).
      discriminate.
  - apply (proj2 locate_is_deterministic PI_double windowLoaded
             windowReloaded 128%nat 256%nat 1704067200000 _ _
             meanMotion_twice calculator_example eq_refl).
    + discriminate.
    + rewrite <- (calculator_locate_reports PI_double windowLoaded
                    windowReloaded 256 1704067200000 meanMotion_twice).
      rewrite calculator_example_longer. discriminate.
Defined.

(** ** Successive periods *)

(** A returned period ends well inside the range of valid dates. *)
Lemma inline_run_searchable Math_sin Math_PI ref p :
  inline_run (inline_band Math_sin Math_PI) ref p ->
  searchable (start p) /\ searchable (end_ p).
Proof.
  intro Hrun.
  destruct (inline_run_spec _ _ _ Hrun) as (S1 & _ & E1 & _).
  cbn beta in S1, E1.
  apply inline_band_era in S1. apply inline_band_era in E1.
  unfold searchable, BAND_GONE in *. lia.
Qed.

(** The inline locator over binary64 on 38449-10-31, a valid date: from
    09:41:14.644Z, in the band, it returns a period of thirty minutes. *)
Lemma binary64_last_period :
  inline_locator binary64_band 64 1151192338874644
  = Ok {| start := 1151192338874644; end_ := 1151192340674644 |}.
Proof. vm_compute. reflexivity. Qed.

(** None of the 1441 coarse probes from one millisecond after that period
    is in the band. *)
Lemma binary64_exhausted :
  inline_exhausted binary64_band (1151192340674644 + 1).
Proof.
  assert (H : forallb
                (fun k => negb (binary64_band
                                  (1151192340674644 + 1
                                   + Z.of_nat k * 1800000)))
                (List.seq 0 1441) = true)
    by (vm_compute; reflexivity).
  rewrite forallb_forall in H.
  intros k Hk. change Inline.coarseStep with 1800000.
  apply negb_true_iff. apply (H k). apply List.in_seq. lia.
Qed.

(** C9, counterexample.  Whatever the sine, among those with values in
    [-1, 1] and slope at most 1, some period is the last one: the call
    one millisecond after its end rejects with SearchExhausted.  Computed
    as the program computes, on binary64: the period returned from
    38449-10-31T09:41:14.644Z ends at 10:11:14.644Z, and the call from
    10:11:14.645Z rejects; the later visits of the band, a third of a
    degree wide by then, fall between the probes. *)
Lemma next_search_exhausted_after_last_period :
  (forall Math_sin Math_PI,
      sine_like Math_sin -> pi_like Math_PI ->
      exists fuel reference p,
        Inline.findCurrentOrNextSwathiPeriod Math_sin Math_PI fuel reference
        = Ok p
        /\ forall fuel2, (1440 < fuel2)%nat ->
             Inline.findCurrentOrNextSwathiPeriod Math_sin Math_PI fuel2
               (end_ p + 1) = Throw SearchExhausted)
  /\ inline_locator binary64_band 64 1151192338874644
     = Ok {| start := 1151192338874644; end_ := 1151192340674644 |}
  /\ forall fuel2, (1440 < fuel2)%nat ->
       inline_locator binary64_band fuel2 (1151192340674644 + 1)
       = Throw SearchExhausted.
Proof.
  split; [|split].
  - intros Math_sin Math_PI Hsin Hpi.
    destruct (inline_run_civil Math_sin Math_PI Hsin Hpi J2000
                ltac:(unfold J2000; lia)) as [p0 Hp0].
    destruct (inline_run_spec _ _ _ Hp0)
      as (S1 & S2 & E1 & E2 & Hlt & Hord).
    assert (Hlo : - 8000000000000000 <= end_ p0).
    { destruct (Inline.isSwathi
                  (Inline.getMoonSiderealLongitude Math_sin Math_PI J2000));
        unfold J2000 in *; lia. }
    destruct (inline_periods_end Math_sin Math_PI Hsin Hpi
                (Z.to_nat (BAND_GONE - start p0)) J2000 p0 Hp0 Hlo
                ltac:(lia)) as (ref & p & Hrun & Hex).
    destruct (inline_locator_complete _ _ _ Hrun) as [fuel Hfuel].
    exists fuel, ref, p. split.
    + rewrite inline_locate_eq. apply Hfuel. lia.
    + intros fuel2 Hf. rewrite inline_locate_eq.
      apply inline_locator_raise; assumption.
  - exact binary64_last_period.
  - intros fuel2 Hf.
    apply inline_locator_raise; [exact binary64_exhausted|exact Hf].
Qed.

(** C9, amended: after a period p returned by the inline locator, a call
    of locate at p.end + 1 ms that returns a period returns one that
    starts at or after p.end, and it does return one when p.end lies in
    the era in which the ayanamsha is within one turn.  The sine is any
    function with values in [-1, 1] that is no steeper than the identity,
    and pi is between 3.14 and 3.15. *)
Theorem successive_periods_do_not_overlap :
  forall Math_sin Math_PI,
    sine_like Math_sin -> pi_like Math_PI ->
    forall fuel reference p,
      Inline.findCurrentOrNextSwathiPeriod Math_sin Math_PI fuel reference
      = Ok p ->
      (forall fuel2 p2,
          Inline.findCurrentOrNextSwathiPeriod Math_sin Math_PI fuel2
            (end_ p + 1) = Ok p2 ->
          end_ p <= start p2)
      /\ (civil (end_ p) ->
          exists fuel2 p2,
            Inline.findCurrentOrNextSwathiPeriod Math_sin Math_PI fuel2
              (end_ p + 1) = Ok p2
            /\ end_ p <= start p2).
Proof.
  intros Math_sin Math_PI Hsin Hpi fuel reference p H.
  apply inline_locate_run in H.
  pose proof (proj2 (inline_run_searchable _ _ _ _ H)) as Hsearch.
  split.
  - intros fuel2 p2 H2. apply inline_locate_run in H2.
    pose proof (inline_next_order Math_sin Math_PI Hsin Hpi reference p p2
                  H Hsearch H2).
    lia.
  - intro Hcivil.
    destruct (inline_next_run Math_sin Math_PI Hsin Hpi reference p H Hcivil)
      as (p2 & Hrun & Hlt).
    destruct (inline_locator_complete _ _ _ Hrun) as [fuel2 Hfuel].
    exists fuel2, p2. split; [|lia].
    rewrite inline_locate_eq. apply Hfuel. lia.
Qed.

Lemma successive_periods_do_not_overlap_witness :
  (forall fuel2 p2,
      Inline.findCurrentOrNextSwathiPeriod noSine PI_double fuel2
        (1704514260000 + 1) = Ok p2 ->
      1704514260000 <= start p2)
  /\ exists fuel2 p2,
       Inline.findCurrentOrNextSwathiPeriod noSine PI_double fuel2
         (1704514260000 + 1) = Ok p2
       /\ 1704514260000 <= start p2.
Proof.
  assert (Hc : civil
                 (end_ {| start := 1704426840000; end_ := 1704514260000 |}))
    by (unfold civil; cbn [end_]; lia).
  destruct (successive_periods_do_not_overlap noSine PI_double
              noSine_sine_like PI_double_pi_like 64%nat 1704426240000
              {| start := 1704426840000; end_ := 1704514260000 |}
              inline_example) as [Hord Hnext].
  split; [exact Hord|exact (Hnext Hc)].
Defined.

(** ** Time values and Date objects *)

(** What the locator returns on time values it returns on Date objects:
    for a sine with values in [-1, 1], a call that returns a period has
    probed valid dates only, and on Date objects it returns the same
    period, of valid dates, once each loop is given 1441 rounds. *)
Theorem dated_returns_the_same Math_sin Math_PI :
  (forall x, (- 1 <= Math_sin x /\ Math_sin x <= 1)%Q) ->
  forall fuel (reference : Z) p,
    Inline.findCurrentOrNextSwathiPeriod Math_sin Math_PI fuel reference
    = Ok p ->
    forall fuel', (1441 <= fuel')%nat ->
      Dated.findCurrentOrNextSwathiPeriod Math_sin Math_PI fuel'
        (Some reference) = Ok (dated p).
Proof.
  intros Hsin fuel reference p H fuel' Hfuel.
  apply inline_locate_run in H.
  destruct (inline_run_searchable _ _ _ _ H) as [[S0 S1] [E0 E1]].
  pose proof (inline_run_spec _ _ _ H) as (P1 & _ & P3 & _ & Hlt & Hord).
  pose proof (inline_run_horizon _ _ _ H) as Hh.
  change Inline.horizon with 2592000000 in Hh.
  cbn beta in P1, P3.
  apply inline_band_era in P1. apply inline_band_era in P3.
  unfold BAND_GONE in *.
  assert (Href : searchable reference).
  { unfold searchable.
    destruct (Inline.isSwathi
                (Inline.getMoonSiderealLongitude Math_sin Math_PI
                   reference)); lia. }
  destruct Href as [R0 R1].
  rewrite dated_locate_eq.
  refine (dated_locator_within (Dated.inBand Math_sin Math_PI)
            (inline_band Math_sin Math_PI)
            (inBand_valid Math_sin Math_PI)
            (inBand_invalid Math_sin Math_PI) reference p
            (conj R0 R1) _ _ H fuel' Hfuel).
  - intro Hin. cbn beta in Hin. cbn beta. split.
    + destruct (Inline.isSwathi
                  (Inline.getMoonSiderealLongitude Math_sin Math_PI
                     (reference - 259200000))) eqn:E; [|reflexivity].
      pose proof (inline_leaves_band Math_sin Math_PI Hsin
                    (reference - 259200000) ltac:(lia) ltac:(lia) E) as H'.
      replace (reference - 259200000 + 259200000) with reference in H'
        by lia.
      rewrite H' in Hin. discriminate Hin.
    + exact (inline_leaves_band Math_sin Math_PI Hsin reference
               ltac:(lia) ltac:(lia) Hin).
  - intro Hin. cbn beta in Hin. cbn beta.
    exact (inline_leaves_band Math_sin Math_PI Hsin (start p)
             ltac:(lia) ltac:(lia) Hin).
Qed.

Lemma dated_returns_the_same_witness :
  Dated.findCurrentOrNextSwathiPeriod noSine PI_double 1441
    (Some 1704426240000)
  = Ok (dated {| start := 1704426840000; end_ := 1704514260000 |}).
Proof.
  refine (dated_returns_the_same noSine PI_double _ 64%nat 1704426240000 _
            inline_example 1441%nat _).
  - intro x. split; discriminate.
  - lia.
Defined.
